(** * Calendar feed function: a shallow embedding and its properties

    This development embeds [functions/api/calendar.ts] (the Cloudflare
    Pages function that renders per-team match data as an ICS calendar, a
    JSON Feed or an Atom feed) and proves properties of it.

    Modelling conventions.
    - A JavaScript string is a [string]: a sequence of 8-bit units.  ASCII
      text is represented exactly; a character outside ASCII (the em dash
      of the feed templates, an emoji) is represented by its UTF-8 bytes.
      [toLowerCase], the white space of [trim], [parseInt] and the class
      [\s], and the order of the default [sort()] are modelled on ASCII;
      units above 127 are passed through unchanged and compared as bytes.
      A property that rests on one of these built-ins is stated for
      ASCII text ([ascii_text]), where the embedding is exact.
    - A JavaScript number that holds an integer is a [Z]; a number that may
      be [NaN] is an [option Z] with [None] for [NaN].  An integer prints
      in full decimal digits, as JavaScript prints a safe integer
      ([safe_integer]).
    - A thrown exception is [None] in a function that returns [option].
    - The awaited calls of the handler (R2 bucket, static assets) are
      functions of the environment record: one request sees one snapshot. *)

From Stdlib Require Import ZArith String Ascii List Lia Bool.
From Stdlib Require Import Sorting.Sorted Sorting.Permutation.
From Stdlib Require Import Numbers.DecimalString.
Import ListNotations.
Local Open Scope list_scope.
Local Open Scope string_scope.
Local Open Scope Z_scope.

(** ** The JavaScript built-ins the function uses *)

Module JS.

(** The double-quote character and one-character strings used below. *)
Definition dquote : ascii := ascii_of_nat 34.
Definition backslash : ascii := ascii_of_nat 92.
Definition LF : string := String (ascii_of_nat 10) "".
Definition CRLF : string := String (ascii_of_nat 13) (String (ascii_of_nat 10) "").
Definition emdash : string :=
  String (ascii_of_nat 226) (String (ascii_of_nat 128) (String (ascii_of_nat 148) "")).

Definition code (c : ascii) : nat := nat_of_ascii c.

(** The class [\s] (and the white space [trim] and [parseInt] strip),
    on ASCII: TAB, LF, VT, FF, CR and SPACE. *)
Definition is_whitespace (c : ascii) : bool :=
  let n := code c in ((9 <=? n) && (n <=? 13))%nat || (n =? 32)%nat.

Definition is_digit (c : ascii) : bool :=
  let n := code c in ((48 <=? n) && (n <=? 57))%nat.

Definition is_upper (c : ascii) : bool :=
  let n := code c in ((65 <=? n) && (n <=? 90))%nat.

Definition is_lower (c : ascii) : bool :=
  let n := code c in ((97 <=? n) && (n <=? 122))%nat.

Definition lower_char (c : ascii) : ascii :=
  if is_upper c then ascii_of_nat (code c + 32) else c.

(** [String.prototype.toLowerCase]. *)
Fixpoint toLowerCase (s : string) : string :=
  match s with
  | EmptyString => EmptyString
  | String c s' => String (lower_char c) (toLowerCase s')
  end.

(** [s.replace(/\s+/g, r)]: every maximal run of white space becomes one
    copy of [r].  [in_run] tells that the previous character belonged to
    the run being replaced. *)
Fixpoint replace_ws_runs_from (in_run : bool) (r : string) (s : string) : string :=
  match s with
  | EmptyString => EmptyString
  | String c s' =>
      if is_whitespace c
      then (if in_run then replace_ws_runs_from true r s'
            else r ++ replace_ws_runs_from true r s')
      else String c (replace_ws_runs_from false r s')
  end.

Definition replace_ws_runs (r : string) (s : string) : string :=
  replace_ws_runs_from false r s.

(** [s.replace(/c/g, r)] for a one-character pattern [c]. *)
Fixpoint replace_char (c : ascii) (r : string) (s : string) : string :=
  match s with
  | EmptyString => EmptyString
  | String x s' =>
      if Ascii.eqb x c then r ++ replace_char c r s'
      else String x (replace_char c r s')
  end.

(** [s.includes(sub)]. *)
Fixpoint includes (s sub : string) : bool :=
  String.prefix sub s ||
  match s with
  | EmptyString => false
  | String _ s' => includes s' sub
  end.

(** [Array.prototype.join]. *)
Fixpoint join (sep : string) (l : list string) : string :=
  match l with
  | [] => ""
  | [x] => x
  | x :: l' => x ++ sep ++ join sep l'
  end.

(** [s.split(",")]: never empty, [""] splits into one empty field. *)
Fixpoint split_on (sep : ascii) (s : string) : list string :=
  match s with
  | EmptyString => [EmptyString]
  | String c s' =>
      if Ascii.eqb c sep then EmptyString :: split_on sep s'
      else match split_on sep s' with
           | h :: t => String c h :: t
           | [] => [String c EmptyString]
           end
  end.

Fixpoint trimStart (s : string) : string :=
  match s with
  | EmptyString => EmptyString
  | String c s' => if is_whitespace c then trimStart s' else s
  end.

Fixpoint trimEnd (s : string) : string :=
  match s with
  | EmptyString => EmptyString
  | String c s' =>
      match trimEnd s' with
      | EmptyString => if is_whitespace c then EmptyString else String c EmptyString
      | r => String c r
      end
  end.

Definition trim (s : string) : string := trimEnd (trimStart s).

(** Truthiness of a string: [Boolean(s)], [if (s)], [s || d]. *)
Definition truthy (s : string) : bool :=
  match s with EmptyString => false | _ => true end.

Definition or_else (s d : string) : string := if truthy s then s else d.

(** [String(n)] and [`${n}`] for an integer [n] (decimal, a leading
    minus sign for a negative number); JavaScript prints an integer this
    way while its magnitude is below 10^21. *)
Definition Number_toString (n : Z) : string :=
  NilZero.string_of_int (Z.to_int n).

(** [String(x)] for a number that may be [NaN]. *)
Definition String_of (x : option Z) : string :=
  match x with Some n => Number_toString n | None => "NaN" end.

Fixpoint repeat_string (n : nat) (fill : string) : string :=
  match n with O => "" | S n' => fill ++ repeat_string n' fill end.

(** [s.padStart(n, fill)] for a one-character [fill]. *)
Definition padStart (n : nat) (fill : string) (s : string) : string :=
  repeat_string (n - String.length s) fill ++ s.

(** *** parseInt(s, 10) *)

Definition digit_value (c : ascii) : Z := Z.of_nat (code c) - 48.

(** The value of the longest prefix of decimal digits, with the number of
    digits read. *)
Fixpoint read_digits (acc : Z) (count : nat) (s : string) : Z * nat :=
  match s with
  | EmptyString => (acc, count)
  | String c s' =>
      if is_digit c then read_digits (acc * 10 + digit_value c) (S count) s'
      else (acc, count)
  end.

(** [parseInt(s, 10)]: leading white space is skipped, one sign is read,
    then the longest run of digits; no digit gives [NaN].  Characters
    after the digits are ignored.  (The result is the exact integer: a
    JavaScript number rounds it beyond 2^53, which no comparison with 0
    or 1440 can see; -0 is 0.) *)
Definition parseInt10 (s : string) : option Z :=
  let s1 := trimStart s in
  let '(sign, s2) :=
    match s1 with
    | String c rest =>
        if Ascii.eqb c "-" then (-1, rest)
        else if Ascii.eqb c "+" then (1, rest)
        else (1, s1)
    | EmptyString => (1, s1)
    end in
  match read_digits 0 O s2 with
  | (_, O) => None
  | (v, S _) => Some (sign * v)
  end.

(** *** Array.prototype.sort

    The sort is stable, and for a consistent comparator the result is
    determined: the stable arrangement in which [x] comes before [y]
    whenever [comparefn x y < 0].  A comparator result of [NaN] counts
    as 0. *)
Section Sort.
Context {A : Type}.
Variable comparefn : A -> A -> option Z.

Definition SortCompare (x y : A) : Z :=
  match comparefn x y with Some v => v | None => 0 end.

Fixpoint sort_insert (x : A) (l : list A) : list A :=
  match l with
  | [] => [x]
  | y :: l' =>
      if SortCompare x y <=? 0 then x :: l else y :: sort_insert x l'
  end.

Fixpoint Array_sort (l : list A) : list A :=
  match l with
  | [] => []
  | x :: l' => sort_insert x (Array_sort l')
  end.
End Sort.

(** [x || d] for a string [x] that may be null. *)
Definition or_default (x : option string) (d : string) : string :=
  match x with Some s => or_else s d | None => d end.

(** [x - y] on numbers that may be [NaN]. *)
Definition Number_sub (x y : option Z) : option Z :=
  match x, y with
  | Some a, Some b => Some (a - b)
  | _, _ => None
  end.

(** A loop over [l] whose body may throw: the first exception ends it. *)
Fixpoint for_of {A S : Type} (body : S -> A -> option S) (l : list A) (s : S) : option S :=
  match l with
  | [] => Some s
  | x :: l' => match body s x with Some s' => for_of body l' s' | None => None end
  end.

(** [array.push(...xs)]. *)
Definition push {A : Type} (array xs : list A) : list A := app array xs.

(** The default comparator of [sort()] on strings. *)
Definition string_comparefn (x y : string) : option Z :=
  match String.compare x y with
  | Lt => Some (-1)
  | Eq => Some 0
  | Gt => Some 1
  end.

(** *** Date

    A [Date] holds a time value in milliseconds since the epoch, or is
    invalid ([None]).  The calendar fields follow the proleptic Gregorian
    calendar in UTC, as ECMAScript defines them. *)

Definition Date : Type := option Z.

Definition msPerDay : Z := 86400000.
Definition maxTime : Z := 8640000000000000.

(** [TimeClip]: a time value beyond 8.64e15 ms is [NaN]. *)
Definition TimeClip (v : Z) : Date :=
  if (Z.abs v <=? maxTime) then Some v else None.

(** [new Date(v)] for a number [v]. *)
Definition Date_of_number (v : Z) : Date := TimeClip v.

Definition getTime (d : Date) : option Z := d.

Definition Day (t : Z) : Z := t / msPerDay.
Definition TimeWithinDay (t : Z) : Z := t mod msPerDay.

(** Day of a 400-year era to (year of era counted from 1 March, month
    1..12, day of month). *)
Definition civil_of_doe (doe : Z) : Z * Z * Z :=
  let yoe := (doe - doe / 1460 + doe / 36524 - doe / 146096) / 365 in
  let doy := doe - (365 * yoe + yoe / 4 - yoe / 100) in
  let mp := (5 * doy + 2) / 153 in
  let d := doy - (153 * mp + 2) / 5 + 1 in
  let m := if mp <? 10 then mp + 3 else mp - 9 in
  (yoe, m, d).

(** (year, month 1..12, day of month) of a day number. *)
Definition civil_from_days (days : Z) : Z * Z * Z :=
  let z := days + 719468 in
  let era := z / 146097 in
  let doe := z - era * 146097 in
  let '(yoe, m, d) := civil_of_doe doe in
  (yoe + era * 400 + (if m <=? 2 then 1 else 0), m, d).

(** The day of the era of (year of era, month 1..12, day of month). *)
Definition doe_of_civil (yoe m d : Z) : Z :=
  let doy := (153 * (if 2 <? m then m - 3 else m + 9) + 2) / 5 + d - 1 in
  yoe * 365 + yoe / 4 - yoe / 100 + doy.

(** The day number of (year, month 1..12, day of month). *)
Definition days_from_civil (y m d : Z) : Z :=
  let y' := if m <=? 2 then y - 1 else y in
  let era := y' / 400 in
  let yoe := y' - era * 400 in
  era * 146097 + doe_of_civil yoe m d - 719468.

Definition YearFromTime (t : Z) : Z := fst (fst (civil_from_days (Day t))).
(** [MonthFromTime] counts from 0. *)
Definition MonthFromTime (t : Z) : Z := snd (fst (civil_from_days (Day t))) - 1.
Definition DateFromTime (t : Z) : Z := snd (civil_from_days (Day t)).
Definition HourFromTime (t : Z) : Z := (t / 3600000) mod 24.
Definition MinFromTime (t : Z) : Z := (t / 60000) mod 60.
Definition SecFromTime (t : Z) : Z := (t / 1000) mod 60.
Definition msFromTime (t : Z) : Z := t mod 1000.

Definition getUTCFullYear (d : Date) : option Z := option_map YearFromTime d.
Definition getUTCMonth (d : Date) : option Z := option_map MonthFromTime d.
Definition getUTCDate (d : Date) : option Z := option_map DateFromTime d.
Definition getUTCHours (d : Date) : option Z := option_map HourFromTime d.
Definition getUTCMinutes (d : Date) : option Z := option_map MinFromTime d.
Definition getUTCSeconds (d : Date) : option Z := option_map SecFromTime d.

Definition digit_char (d : Z) : ascii := ascii_of_nat (48 + Z.to_nat d).

(** [v] in exactly [n] decimal digits, most significant first. *)
Fixpoint fixed_digits (n : nat) (v : Z) : string :=
  match n with
  | O => EmptyString
  | S n' =>
      String (digit_char (v / 10 ^ Z.of_nat n'))
             (fixed_digits n' (v mod 10 ^ Z.of_nat n'))
  end.

(** The year of [toISOString]: four digits from 0 to 9999, otherwise a
    sign and six digits. *)
Definition iso_year (y : Z) : string :=
  if (0 <=? y) && (y <=? 9999) then fixed_digits 4 y
  else if y <? 0 then String "-" (fixed_digits 6 (- y))
  else String "+" (fixed_digits 6 y).

(** [Date.prototype.toISOString]: YYYY-MM-DDTHH:mm:ss.sssZ; an invalid
    date throws a RangeError ([None]). *)
Definition toISOString (d : Date) : option string :=
  match d with
  | None => None
  | Some t =>
      Some (iso_year (YearFromTime t) ++ "-" ++
            fixed_digits 2 (MonthFromTime t + 1) ++ "-" ++
            fixed_digits 2 (DateFromTime t) ++ "T" ++
            fixed_digits 2 (HourFromTime t) ++ ":" ++
            fixed_digits 2 (MinFromTime t) ++ ":" ++
            fixed_digits 2 (SecFromTime t) ++ "." ++
            fixed_digits 3 (msFromTime t) ++ "Z")
  end.

(** Exactly [n] decimal digits read from the front of [s]. *)
Fixpoint parse_digits (n : nat) (acc : Z) (s : string) : option (Z * string) :=
  match n with
  | O => Some (acc, s)
  | S n' =>
      match s with
      | String c s' =>
          if is_digit c then parse_digits n' (acc * 10 + digit_value c) s'
          else None
      | EmptyString => None
      end
  end.

Definition expect (c : ascii) (s : string) : option string :=
  match s with
  | String x s' => if Ascii.eqb x c then Some s' else None
  | EmptyString => None
  end.

Definition is_leap (y : Z) : bool :=
  ((y mod 4 =? 0) && negb (y mod 100 =? 0)) || (y mod 400 =? 0).

Definition DaysInMonth (y m : Z) : Z :=
  if m =? 2 then (if is_leap y then 29 else 28)
  else if (m =? 4) || (m =? 6) || (m =? 9) || (m =? 11) then 30
  else 31.

Definition MakeTime (h mi sec ms : Z) : Z :=
  ((h * 60 + mi) * 60 + sec) * 1000 + ms.

Definition MakeDate (day time : Z) : Z := day * msPerDay + time.

Notation "'let?' x ':=' e1 'in' e2" :=
  (match e1 with Some x => e2 | None => None end)
  (at level 10, x pattern, e1 at level 200, e2 at level 200, only parsing).

(** The year of a date-time string: a sign and six digits, or four
    digits.  The result is the sign, the digits' value and the rest. *)
Definition parse_year (s : string) : option (Z * Z * string) :=
  let '(sign, width, s0) :=
    match s with
    | String c rest =>
        if Ascii.eqb c "+" then (1, 6%nat, rest)
        else if Ascii.eqb c "-" then (-1, 6%nat, rest)
        else (1, 4%nat, s)
    | EmptyString => (1, 4%nat, s)
    end in
  let? (y, s1) := parse_digits width 0 s0 in
  Some (sign, y, s1).

(** What follows the year: -MM-DDTHH:mm:ss.sssZ and nothing more. *)
Definition parse_after_year (s1 : string) : option (Z * Z * Z * Z * Z * Z) :=
  let? s2 := expect "-" s1 in
  let? (mo, s3) := parse_digits 2 0 s2 in
  let? s4 := expect "-" s3 in
  let? (d, s5) := parse_digits 2 0 s4 in
  let? s6 := expect "T" s5 in
  let? (h, s7) := parse_digits 2 0 s6 in
  let? s8 := expect ":" s7 in
  let? (mi, s9) := parse_digits 2 0 s8 in
  let? s10 := expect ":" s9 in
  let? (sec, s11) := parse_digits 2 0 s10 in
  let? s12 := expect "." s11 in
  let? (ms, s13) := parse_digits 3 0 s12 in
  let? s14 := expect "Z" s13 in
  if truthy s14 then None else Some (mo, d, h, mi, sec, ms).

(** [new Date(s)] for a string in the date-time format of
    [toISOString] (the only strings this program parses); any other
    string is an invalid date here. *)
Definition Date_parse (s : string) : Date :=
  let? (sign, y, s1) := parse_year s in
  let? (mo, d, h, mi, sec, ms) := parse_after_year s1 in
  let year := sign * y in
  if negb ((sign =? -1) && (y =? 0))
     && (1 <=? mo) && (mo <=? 12)
     && (1 <=? d) && (d <=? DaysInMonth year mo)
     && ((h <=? 23) || ((h =? 24) && (mi =? 0) && (sec =? 0) && (ms =? 0)))
     && (mi <=? 59) && (sec <=? 59)
  then TimeClip (MakeDate (days_from_civil year mo d) (MakeTime h mi sec ms))
  else None.

End JS.


Notation "'let?' x ':=' e1 'in' e2" :=
  (match e1 with Some x => e2 | None => None end)
  (at level 10, x pattern, e1 at level 200, e2 at level 200, only parsing).

(** ** The data model of [calendar.ts] *)

Record TeamInfo := {
  name : string;
  slug : string;
  short_name : string;
  emoji : string;
  game : string;
  liquipedia_url : string;
  logo_url : option string
}.

(** [MatchData].  The interface of [calendar.ts] declares the first five
    fields; a stored record may carry a [score] as well (the records of
    the test suite do), which the parsed object then holds. *)
Record MatchData := {
  timestamp : Z;
  opponent : string;
  tournament : string;
  url : string;
  is_upcoming : bool;
  score : option string
}.

Record TeamData := {
  team : TeamInfo;
  matches : list MatchData;
  generated_utc : string
}.

(** The parsed request URL: origin, full text and query parameters. *)
Record URL := {
  origin : string;
  href : string;
  searchParams : list (string * string)
}.

Record Request := {
  method : string;
  request_url : URL
}.

(** The bindings of the function.  A lookup returns [None] when the call
    throws, [Some None] when there is no such object (or the asset
    response is not ok), [Some (Some data)] for the parsed record. *)
Record Env := {
  DATA_BUCKET : option (string -> option (option TeamData));
  ASSETS : string -> option (option TeamData)
}.

(** The context of a request; [clock] is the time [new Date()] reads. *)
Record Context := {
  request : Request;
  env : Env;
  clock : Z
}.

(** The item and the document of a JSON Feed. *)
Record FeedItem := {
  item_id : string;
  item_title : string;
  date_published : string;
  item_url : string;
  tags : list string;
  content_text : string
}.

Record JSONFeed := {
  version : string;
  feed_title : string;
  home_page_url : string;
  feed_url : string;
  description : string;
  items : list FeedItem
}.

(** A response body: none, a text, or [JSON.stringify] of a feed. *)
Inductive Body :=
| BodyNull
| BodyText (text : string)
| BodyJSON (feed : JSONFeed).

Record Response := {
  status : Z;
  headers : list (string * string);
  body : Body
}.

(** ** Request handling *)

Definition is_slug_char (c : ascii) : bool :=
  JS.is_lower c || JS.is_upper c || JS.is_digit c
  || Ascii.eqb c "_" || Ascii.eqb c "-".

Fixpoint all_chars (p : ascii -> bool) (s : string) : bool :=
  match s with
  | EmptyString => true
  | String c s' => p c && all_chars p s'
  end.

(** [SLUG_PATTERN.test(slug)] for /^[a-zA-Z0-9_-]+$/. *)
Definition SLUG_PATTERN_test (s : string) : bool :=
  JS.truthy s && all_chars is_slug_char s.

(** [url.searchParams.get(key)]: the first value of the key, or null. *)
Fixpoint searchParams_get (key : string) (params : list (string * string)) : option string :=
  match params with
  | [] => None
  | (k, v) :: rest => if String.eqb k key then Some v else searchParams_get key rest
  end.

(** [headers.set(key, value)]. *)
Fixpoint headers_set (key value : string) (h : list (string * string)) : list (string * string) :=
  match h with
  | [] => [(key, value)]
  | (k, v) :: rest =>
      if String.eqb k key then (k, value) :: rest
      else (k, v) :: headers_set key value rest
  end.

Definition corsResponse (response : Response) : Response :=
  let headers :=
    headers_set "Access-Control-Allow-Headers" "Content-Type"
      (headers_set "Access-Control-Allow-Methods" "GET, OPTIONS"
         (headers_set "Access-Control-Allow-Origin" "*" (headers response))) in
  {| status := status response; headers := headers; body := body response |}.

(** ** ICS generation (RFC 5545) *)

Definition ics_special (c : ascii) : bool :=
  Ascii.eqb c JS.backslash || Ascii.eqb c ";" || Ascii.eqb c ",".

(** [text.replace(/[\\;,]/g, (c) => "\\" + c)]: a backslash before every
    backslash, semicolon and comma. *)
Fixpoint icsEscape (text : string) : string :=
  match text with
  | EmptyString => EmptyString
  | String c rest =>
      if ics_special c then String JS.backslash (String c (icsEscape rest))
      else String c (icsEscape rest)
  end.

Definition pad (n : option Z) : string := JS.padStart 2 "0" (JS.String_of n).

Definition formatICSDate (timestamp : Z) : string :=
  let d := JS.Date_of_number (timestamp * 1000) in
  JS.String_of (JS.getUTCFullYear d) ++
  pad (option_map (fun m => m + 1) (JS.getUTCMonth d)) ++
  pad (JS.getUTCDate d) ++ "T" ++
  pad (JS.getUTCHours d) ++ pad (JS.getUTCMinutes d) ++
  pad (JS.getUTCSeconds d) ++ "Z".

(** The opponent token of the UID:
    [opponent.replace(/\s+/g, "-").replace(/_/g, "-").toLowerCase()]. *)
Definition uid_opponentSlug (opponent : string) : string :=
  JS.toLowerCase (JS.replace_char "_" "-" (JS.replace_ws_runs "-" opponent)).

(** The UID of an event: the two tokens sorted, then the timestamp. *)
Definition event_uid (team : TeamInfo) (match_ : MatchData) : string :=
  let opponentSlug := uid_opponentSlug (opponent match_) in
  let teams := JS.Array_sort JS.string_comparefn
                 [JS.toLowerCase (slug team); opponentSlug] in
  nth 0 teams "" ++ "-vs-" ++ nth 1 teams "" ++ "-" ++
  JS.Number_toString (timestamp match_) ++ "@esports-calendar".

(** The value of the DESCRIPTION property of an event. *)
Definition event_description (match_ : MatchData) : string :=
  let description := icsEscape ("Tournament: " ++ tournament match_) in
  let description :=
    if JS.truthy (url match_)
    then description ++ icsEscape ("\n\nMore info: " ++ url match_)
    else description in
  if negb (is_upcoming match_)
  then description ++ icsEscape "\n\n(Completed match)"
  else description.

Definition generateVEvent (team : TeamInfo) (match_ : MatchData)
    (reminderMinutes : Z) : list string :=
  let start := formatICSDate (timestamp match_) in
  let end_ := formatICSDate (timestamp match_ + 2 * 60 * 60) in
  let uid := event_uid team match_ in
  let summary :=
    icsEscape (emoji team ++ " " ++ short_name team ++ " vs " ++ opponent match_) in
  let description := event_description match_ in
  let lines :=
    [ "BEGIN:VEVENT";
      "UID:" ++ uid;
      "DTSTART:" ++ start;
      "DTEND:" ++ end_;
      "SUMMARY:" ++ summary;
      "DESCRIPTION:" ++ description;
      "STATUS:CONFIRMED" ] in
  let lines :=
    if JS.truthy (url match_) then JS.push lines ["URL:" ++ url match_] else lines in
  let lines :=
    if negb (is_upcoming match_) then JS.push lines ["TRANSP:TRANSPARENT"] else lines in
  let lines :=
    if is_upcoming match_ && (0 <? reminderMinutes)
    then JS.push lines
         [ "BEGIN:VALARM";
           "ACTION:DISPLAY";
           "DESCRIPTION:" ++
             icsEscape (name team ++ " vs " ++ opponent match_ ++ " starts in " ++
                        JS.Number_toString reminderMinutes ++ " minutes!");
           "TRIGGER:-PT" ++ JS.Number_toString reminderMinutes ++ "M";
           "END:VALARM" ]
    else lines in
  JS.push lines ["END:VEVENT"].

Definition generateICS (teams : list TeamData) (reminderMinutes : Z) : string :=
  let teamNames := JS.join ", " (map (fun t => name (team t)) teams) in
  let lines :=
    [ "BEGIN:VCALENDAR";
      "VERSION:2.0";
      "PRODID:-//Esports Calendar//" ++ teamNames ++ "//";
      "CALSCALE:GREGORIAN";
      "METHOD:PUBLISH";
      "X-WR-CALNAME:" ++ teamNames ++ " Matches";
      "X-PUBLISHED-TTL:PT4H" ] in
  let lines :=
    fold_left
      (fun lines teamData =>
         fold_left
           (fun lines match_ =>
              JS.push lines (generateVEvent (team teamData) match_ reminderMinutes))
           (matches teamData) lines)
      teams lines in
  let lines := JS.push lines ["END:VCALENDAR"] in
  JS.join JS.CRLF lines ++ JS.CRLF.

(** ** JSON Feed v1.1 *)

(** The object pushed for one match; [toISOString] throws on a time
    value out of the range of [Date]. *)
Definition feed_item (team : TeamInfo) (match_ : MatchData) : option FeedItem :=
  let? dt := JS.toISOString (JS.Date_of_number (timestamp match_ * 1000)) in
  let opponentSlug := JS.toLowerCase (JS.replace_ws_runs "-" (opponent match_)) in
  Some {| item_id := JS.toLowerCase (slug team) ++ "-" ++
                     JS.Number_toString (timestamp match_) ++ "-" ++ opponentSlug;
          item_title := emoji team ++ " " ++ short_name team ++ " vs " ++ opponent match_;
          date_published := dt;
          item_url := JS.or_else (url match_) (liquipedia_url team);
          tags := [ (if is_upcoming match_ then "upcoming" else "completed");
                    tournament match_ ];
          content_text := (if is_upcoming match_ then "Upcoming" else "Completed") ++
                          " " ++ JS.emdash ++ " " ++ tournament match_ |}.

(** The comparator of [items.sort]. *)
Definition items_comparefn (a b : FeedItem) : option Z :=
  JS.Number_sub (JS.getTime (JS.Date_parse (date_published b)))
                (JS.getTime (JS.Date_parse (date_published a))).

Definition generateJSONFeed (teams : list TeamData) (requestUrl : URL) : option JSONFeed :=
  let? items :=
    JS.for_of
      (fun items teamData =>
         JS.for_of
           (fun items match_ =>
              let? item := feed_item (team teamData) match_ in
              Some (JS.push items [item]))
           (matches teamData) items)
      teams [] in
  let items := JS.Array_sort items_comparefn items in
  let teamNames := JS.join ", " (map (fun t => name (team t)) teams) in
  Some {| version := "https://jsonfeed.org/version/1.1";
          feed_title := teamNames ++ " Match Schedule";
          home_page_url := origin requestUrl;
          feed_url := href requestUrl;
          description := "Upcoming and recent matches for " ++ teamNames;
          items := items |}.

(** ** Atom *)

Definition xmlEscape (text : string) : string :=
  JS.replace_char "'" "&apos;"
    (JS.replace_char JS.dquote "&quot;"
       (JS.replace_char ">" "&gt;"
          (JS.replace_char "<" "&lt;"
             (JS.replace_char "&" "&amp;" text)))).

Definition q : string := String JS.dquote "".

(** The comparator of [allMatches.sort]. *)
Definition allMatches_comparefn (a b : TeamInfo * MatchData) : option Z :=
  Some (timestamp (snd b) - timestamp (snd a)).

(** The text one iteration of the entry loop appends. *)
Definition atom_entry (team : TeamInfo) (match_ : MatchData) : option string :=
  let? dt := JS.toISOString (JS.Date_of_number (timestamp match_ * 1000)) in
  let status := if is_upcoming match_ then "Upcoming" else "Completed" in
  let title :=
    xmlEscape (emoji team ++ " " ++ short_name team ++ " vs " ++ opponent match_) in
  let tournament := xmlEscape (tournament match_) in
  let opponentSlug := JS.toLowerCase (JS.replace_ws_runs "-" (opponent match_)) in
  let entryId := JS.toLowerCase (slug team) ++ "-" ++
                 JS.Number_toString (timestamp match_) ++ "-" ++ opponentSlug in
  Some ("  <entry>" ++ JS.LF ++
        "    <id>urn:esports-calendar:" ++ entryId ++ "</id>" ++ JS.LF ++
        "    <title>" ++ title ++ "</title>" ++ JS.LF ++
        "    <updated>" ++ dt ++ "</updated>" ++ JS.LF ++
        "    <summary>" ++ status ++ " " ++ JS.emdash ++ " " ++ tournament ++
          "</summary>" ++ JS.LF ++
        "    <link href=" ++ q ++ xmlEscape (url match_) ++ q ++
          " rel=" ++ q ++ "alternate" ++ q ++ "/>" ++ JS.LF ++
        "    <category term=" ++ q ++ JS.toLowerCase status ++ q ++ "/>" ++ JS.LF ++
        "  </entry>" ++ JS.LF).

(** [allMatches] after the two collecting loops and the sort. *)
Definition atom_allMatches (teams : list TeamData) : list (TeamInfo * MatchData) :=
  let allMatches :=
    fold_left
      (fun allMatches teamData =>
         fold_left
           (fun allMatches match_ => JS.push allMatches [(team teamData, match_)])
           (matches teamData) allMatches)
      teams [] in
  JS.Array_sort allMatches_comparefn allMatches.

(** [now_ms] is the time [new Date()] reads. *)
Definition generateAtomFeed (teams : list TeamData) (requestUrl : URL) (now_ms : Z)
    : option string :=
  let? now := JS.toISOString (JS.Date_of_number now_ms) in
  let teamNames := JS.join ", " (map (fun t => name (team t)) teams) in
  let teamSlugs := JS.join "-" (map (fun t => JS.toLowerCase (slug (team t))) teams) in
  let allMatches := atom_allMatches teams in
  let? entries :=
    JS.for_of
      (fun entries '(team, match_) =>
         let? entry := atom_entry team match_ in
         Some (entries ++ entry))
      allMatches "" in
  Some ("<?xml version=" ++ q ++ "1.0" ++ q ++ " encoding=" ++ q ++ "UTF-8" ++ q ++
          "?>" ++ JS.LF ++
        "<feed xmlns=" ++ q ++ "http://www.w3.org/2005/Atom" ++ q ++ ">" ++ JS.LF ++
        "  <id>urn:esports-calendar:" ++ xmlEscape teamSlugs ++ "</id>" ++ JS.LF ++
        "  <title>" ++ xmlEscape teamNames ++ " Match Schedule</title>" ++ JS.LF ++
        "  <subtitle>Upcoming and recent matches</subtitle>" ++ JS.LF ++
        "  <updated>" ++ now ++ "</updated>" ++ JS.LF ++
        "  <link href=" ++ q ++ xmlEscape (href requestUrl) ++ q ++ " rel=" ++ q ++
          "self" ++ q ++ " type=" ++ q ++ "application/atom+xml" ++ q ++ "/>" ++ JS.LF ++
        "  <generator>esports-calendar</generator>" ++ JS.LF ++
        entries ++ "</feed>" ++ JS.LF).

(** ** The request handler *)

(** [new Response(text, { status })]; the headers are those the source
    gives (the runtime's own content type of a text body is left out). *)
Definition text_response (text : string) (status : Z) : Response :=
  {| status := status; headers := []; body := BodyText text |}.

(** The response to a reminder that is not an integer from 0 to 1440. *)
Definition invalid_reminder_response : Response :=
  corsResponse (text_response
    "Invalid 'reminder' parameter. Must be an integer between 0 and 1440." 400).

(** The reminder stage of [onRequest]: the reminder minutes, or the
    response returned at once. *)
Definition reminder_stage (reminderParam : option string) : Response + Z :=
  let reminderMinutes := 30 in
  match reminderParam with
  | Some reminderParam =>
      let parsed := JS.parseInt10 reminderParam in
      match parsed with
      | None => inl invalid_reminder_response
      | Some parsed =>
          if (parsed <? 0) || (1440 <? parsed)
          then inl invalid_reminder_response
          else inr parsed
      end
  | None => inr reminderMinutes
  end.

(** One iteration of the loading loop: R2 first, then the static assets;
    a team that cannot be loaded is skipped. *)
Definition load_team (env : Env) (url : URL) (slug : string) : option TeamData :=
  let key := JS.toLowerCase slug ++ ".json" in
  let from_assets :=
    match ASSETS env (origin url ++ "/data/" ++ key) with
    | Some (Some data) => Some data
    | _ => None
    end in
  match DATA_BUCKET env with
  | Some get =>
      match get key with
      | None => None
      | Some (Some data) => Some data
      | Some None => from_assets
      end
  | None => from_assets
  end.

Definition load_teams (env : Env) (url : URL) (slugs : list string) : list TeamData :=
  fold_left
    (fun teamDataList slug =>
       match load_team env url slug with
       | Some data => JS.push teamDataList [data]
       | None => teamDataList
       end)
    slugs [].

(** The filter stage: with a filter present every team keeps the matches
    whose lower-cased tournament includes the lower-cased filter. *)
Definition filter_stage (tournamentFilter : string) (teamDataList : list TeamData)
    : list TeamData :=
  if JS.truthy tournamentFilter then
    let filter_ := JS.toLowerCase tournamentFilter in
    map (fun teamData =>
           {| team := team teamData;
              matches := filter (fun m => JS.includes (JS.toLowerCase (tournament m)) filter_)
                                (matches teamData);
              generated_utc := generated_utc teamData |})
        teamDataList
  else teamDataList.

(** The final [switch (format)]. *)
Definition render_stage (format : string) (teamDataList : list TeamData)
    (reminderMinutes : Z) (url : URL) (now_ms : Z) : option Response :=
  if String.eqb format "ics" then
    Some (corsResponse
      {| status := 200;
         headers := [ ("Content-Type", "text/calendar; charset=utf-8");
                      ("Cache-Control", "public, max-age=3600");
                      ("Content-Disposition",
                       "inline; filename=" ++ q ++ "esports-calendar.ics" ++ q) ];
         body := BodyText (generateICS teamDataList reminderMinutes) |})
  else if String.eqb format "json" then
    let? feed := generateJSONFeed teamDataList url in
    Some (corsResponse
      {| status := 200;
         headers := [ ("Content-Type", "application/feed+json; charset=utf-8");
                      ("Cache-Control", "public, max-age=3600") ];
         body := BodyJSON feed |})
  else if String.eqb format "rss" then
    let? text := generateAtomFeed teamDataList url now_ms in
    Some (corsResponse
      {| status := 200;
         headers := [ ("Content-Type", "application/atom+xml; charset=utf-8");
                      ("Cache-Control", "public, max-age=3600") ];
         body := BodyText text |})
  else
    Some (corsResponse (text_response "Unknown format. Use: ics, json, or rss" 400)).

(** [onRequest] from the split of the [teams] parameter on: slugs,
    loading, filter and rendering, for the parameters read before. *)
Definition teams_stage (context : Context) (url : URL)
    (teamsParam format tournamentFilter : string) (reminderMinutes : Z)
    : option Response :=
  let slugs := filter JS.truthy (map JS.trim (JS.split_on "," teamsParam)) in
  match slugs with
  | [] =>
      Some (corsResponse (text_response
        "Missing 'teams' parameter. Usage: /api/calendar?teams=Los_Ratones,Fnatic"
        400))
  | _ =>
      match find (fun slug => negb (SLUG_PATTERN_test slug)) slugs with
      | Some slug =>
          Some (corsResponse (text_response ("Invalid team slug: " ++ slug) 400))
      | None =>
          let teamDataList := load_teams (env context) url slugs in
          match teamDataList with
          | [] =>
              Some (corsResponse (text_response
                "No data found for the requested teams" 404))
          | _ =>
              let teamDataList := filter_stage tournamentFilter teamDataList in
              render_stage format teamDataList reminderMinutes url (clock context)
          end
      end
  end.

(** [onRequest]; [None] is an exception that leaves the handler. *)
Definition onRequest (context : Context) : option Response :=
  if String.eqb (method (request context)) "OPTIONS" then
    Some (corsResponse {| status := 204; headers := []; body := BodyNull |})
  else if negb (String.eqb (method (request context)) "GET") then
    Some (corsResponse (text_response "Method not allowed" 405))
  else
    let url := request_url (request context) in
    let teamsParam := JS.or_default (searchParams_get "teams" (searchParams url)) "" in
    let format := JS.or_default (searchParams_get "format" (searchParams url)) "ics" in
    let tournamentFilter :=
      JS.or_default (searchParams_get "tournament" (searchParams url)) "" in
    match reminder_stage (searchParams_get "reminder" (searchParams url)) with
    | inl response => Some response
    | inr reminderMinutes =>
        teams_stage context url teamsParam format tournamentFilter reminderMinutes
    end.

(** ** Vocabulary of the properties *)

(** The number of characters of [text] that [icsEscape] escapes. *)
Fixpoint count_special (text : string) : nat :=
  match text with
  | EmptyString => O
  | String c rest => ((if ics_special c then 1 else 0) + count_special rest)%nat
  end.

(** The position in [icsEscape text] of the character at position [i] of
    [text]: every earlier character takes one place, two when escaped,
    and the character's own backslash, if any, comes first. *)
Fixpoint ics_pos (text : string) (i : nat) : nat :=
  match text with
  | EmptyString => O
  | String c rest =>
      let k := if ics_special c then 1%nat else 0%nat in
      match i with
      | O => k
      | S i' => (S k + ics_pos rest i')%nat
      end
  end.

(** Reading an escaped text back: a backslash quotes the next character. *)
Fixpoint icsUnescape (s : string) : string :=
  match s with
  | EmptyString => EmptyString
  | String c rest =>
      if Ascii.eqb c JS.backslash then
        match rest with
        | EmptyString => String c EmptyString
        | String d rest' => String d (icsUnescape rest')
        end
      else String c (icsUnescape rest)
  end.

(** The entity of a character in XML text, or the character itself. *)
Definition xml_entity (c : ascii) : string :=
  if Ascii.eqb c "&" then "&amp;"
  else if Ascii.eqb c "<" then "&lt;"
  else if Ascii.eqb c ">" then "&gt;"
  else if Ascii.eqb c JS.dquote then "&quot;"
  else if Ascii.eqb c "'" then "&apos;"
  else String c EmptyString.

Definition xml_special (c : ascii) : bool :=
  Ascii.eqb c "&" || Ascii.eqb c "<" || Ascii.eqb c ">"
  || Ascii.eqb c JS.dquote || Ascii.eqb c "'".

(** Every character replaced by its entity, in one pass. *)
Fixpoint xml_entities (text : string) : string :=
  match text with
  | EmptyString => EmptyString
  | String c rest => xml_entity c ++ xml_entities rest
  end.

(** The position in [xml_entities text] at which the image of the
    character at position [i] of [text] starts. *)
Fixpoint xml_pos (text : string) (i : nat) : nat :=
  match text with
  | EmptyString => O
  | String c rest =>
      match i with
      | O => O
      | S i' => (String.length (xml_entity c) + xml_pos rest i')%nat
      end
  end.

Definition xml_entity_names : list string :=
  ["&amp;"; "&lt;"; "&gt;"; "&quot;"; "&apos;"].

(** The four characters that no escaped XML text may contain. *)
Definition xml_markup (c : ascii) : bool :=
  Ascii.eqb c "<" || Ascii.eqb c ">" || Ascii.eqb c JS.dquote || Ascii.eqb c "'".

(** The five lines of the alarm of an event. *)
Definition valarm_block (team : TeamInfo) (match_ : MatchData) (reminderMinutes : Z)
    : list string :=
  [ "BEGIN:VALARM";
    "ACTION:DISPLAY";
    "DESCRIPTION:" ++
      icsEscape (name team ++ " vs " ++ opponent match_ ++ " starts in " ++
                 JS.Number_toString reminderMinutes ++ " minutes!");
    "TRIGGER:-PT" ++ JS.Number_toString reminderMinutes ++ "M";
    "END:VALARM" ].

(** ** The records of the test suite ([tests/calendar.test.ts])

    The suite takes its two timestamps one day either side of the clock;
    here the clock is fixed at 2026-11-01T12:00:00Z. *)

Definition FUTURE_TS : Z := 1793620800.
Definition PAST_TS : Z := 1793448000.

Definition TEAM_A_future : MatchData :=
  {| timestamp := FUTURE_TS; opponent := "G2 Esports";
     tournament := "LEC 2025 Spring";
     url := "https://liquipedia.net/leagueoflegends/LEC/2025";
     is_upcoming := true; score := None |}.

Definition TEAM_A_past : MatchData :=
  {| timestamp := PAST_TS; opponent := "MAD Lions";
     tournament := "LEC 2025 Spring";
     url := "https://liquipedia.net/leagueoflegends/LEC/2025";
     is_upcoming := false; score := Some "2 : 1" |}.

Definition TEAM_A : TeamData :=
  {| team := {| name := "Fnatic"; slug := "Fnatic"; short_name := "FNC";
                emoji := "🇪🇺"; game := "leagueoflegends";
                liquipedia_url := "https://liquipedia.net/leagueoflegends/Fnatic";
                logo_url := None |};
     matches := [ TEAM_A_future; TEAM_A_past ];
     generated_utc := "2026-11-01T12:00:00.000Z" |}.

Definition TEAM_B_future : MatchData :=
  {| timestamp := FUTURE_TS; opponent := "Fnatic";
     tournament := "LEC 2025 Spring";
     url := "https://liquipedia.net/leagueoflegends/LEC/2025";
     is_upcoming := true; score := None |}.

Definition TEAM_B : TeamData :=
  {| team := {| name := "G2 Esports"; slug := "G2_Esports"; short_name := "G2";
                emoji := "🇪🇺"; game := "leagueoflegends";
                liquipedia_url := "https://liquipedia.net/leagueoflegends/G2_Esports";
                logo_url := None |};
     matches := [ TEAM_B_future ];
     generated_utc := "2026-11-01T12:00:00.000Z" |}.

(** The mock bucket of the suite: a map from keys to records; the
    assets binding answers 404. *)
Definition mock_env : Env :=
  {| DATA_BUCKET := Some (fun key =>
       if String.eqb key "fnatic.json" then Some (Some TEAM_A)
       else if String.eqb key "g2_esports.json" then Some (Some TEAM_B)
       else Some None);
     ASSETS := fun _ => Some None |}.

(** [createMockContext] for a GET request with the given query. *)
Definition mock_context (href_ : string) (params : list (string * string)) : Context :=
  {| request := {| method := "GET";
                   request_url := {| origin := "https://example.com";
                                     href := href_;
                                     searchParams := params |} |};
     env := mock_env;
     clock := 1793534400000 |}.

(** The opponent token of a feed id, as the JSON Feed and the Atom
    renderers each compute it. *)
Definition feed_opponent_token (opponent : string) : string :=
  JS.toLowerCase (JS.replace_ws_runs "-" opponent).

(** A match record with another score. *)
Definition with_score (match_ : MatchData) (s : option string) : MatchData :=
  {| timestamp := timestamp match_; opponent := opponent match_;
     tournament := tournament match_; url := url match_;
     is_upcoming := is_upcoming match_; score := s |}.

(** The text of a response body, when it is a text. *)
Definition body_text (response : option Response) : string :=
  match response with
  | Some {| body := BodyText text |} => text
  | _ => ""
  end.

(** A numeric string in the sense of the reminder parameter: an optional
    sign and then decimal digits only, at least one. *)
Definition all_digits (s : string) : bool :=
  JS.truthy s && all_chars JS.is_digit s.

Definition numeric_string (s : string) : bool :=
  match s with
  | String c rest =>
      if Ascii.eqb c "-" || Ascii.eqb c "+" then all_digits rest else all_digits s
  | EmptyString => false
  end.

Definition starts_with_digit (s : string) : bool :=
  match s with String c _ => JS.is_digit c | EmptyString => false end.

(** The value of a string of decimal digits. *)
Fixpoint decimal_from (acc : Z) (digits : string) : Z :=
  match digits with
  | EmptyString => acc
  | String c rest => decimal_from (acc * 10 + JS.digit_value c) rest
  end.

Definition decimal_value (digits : string) : Z := decimal_from 0 digits.

(** The letter [c] in lower case, by the two alphabets. *)
Fixpoint letter_for (c : ascii) (from to : string) : ascii :=
  match from, to with
  | String a from', String b to' =>
      if Ascii.eqb c a then b else letter_for c from' to'
  | _, _ => c
  end.

Definition lowercased (c : ascii) : ascii :=
  letter_for c "ABCDEFGHIJKLMNOPQRSTUVWXYZ" "abcdefghijklmnopqrstuvwxyz".

(** [s] with every letter A to Z in lower case, the other characters
    as they are. *)
Fixpoint lowercase_text (s : string) : string :=
  match s with
  | EmptyString => EmptyString
  | String c s' => String (lowercased c) (lowercase_text s')
  end.


(** [kept] is [all] narrowed to exactly the elements that satisfy [P],
    in their order. *)
Inductive narrowed_to {A : Type} (P : A -> Prop) : list A -> list A -> Prop :=
| narrowed_nil : narrowed_to P [] []
| narrowed_keep (x : A) (all kept : list A) :
    P x -> narrowed_to P all kept -> narrowed_to P (x :: all) (x :: kept)
| narrowed_drop (x : A) (all kept : list A) :
    ~ P x -> narrowed_to P all kept -> narrowed_to P (x :: all) kept.

(** A day of the era maps to a date of the calendar and back. *)
Definition era_check (doe : Z) : bool :=
  let '(yoe, m, d) := JS.civil_of_doe doe in
  (0 <=? yoe) && (yoe <=? 399) && (1 <=? m) && (m <=? 12) && (1 <=? d)
  && (d <=? JS.DaysInMonth (yoe + (if m <=? 2 then 1 else 0)) m)
  && (JS.doe_of_civil yoe m d =? doe).

(** All (team, match) pairs of a request, team by team. *)
Definition all_matches (teams : list TeamData) : list (TeamInfo * MatchData) :=
  flat_map (fun teamData => map (pair (team teamData)) (matches teamData)) teams.

(** [f] on every element, in order, unless one fails. *)
Fixpoint traverse {A B : Type} (f : A -> option B) (l : list A) : option (list B) :=
  match l with
  | [] => Some []
  | x :: l' =>
      match f x, traverse f l' with
      | Some y, Some ys => Some (y :: ys)
      | _, _ => None
      end
  end.

(** The date an item is published, read back from its text. *)
Definition published_time (item : FeedItem) : option Z :=
  JS.getTime (JS.Date_parse (date_published item)).

(** [a] is not earlier than [b]; an invalid date compares with nothing. *)
Definition not_earlier (a b : option Z) : Prop :=
  match a, b with
  | Some x, Some y => y <= x
  | _, _ => False
  end.

(** The Atom document before its entries. *)
Definition atom_head (teams : list TeamData) (requestUrl : URL) (now : string) : string :=
  "<?xml version=" ++ q ++ "1.0" ++ q ++ " encoding=" ++ q ++ "UTF-8" ++ q ++
    "?>" ++ JS.LF ++
  "<feed xmlns=" ++ q ++ "http://www.w3.org/2005/Atom" ++ q ++ ">" ++ JS.LF ++
  "  <id>urn:esports-calendar:" ++
    xmlEscape (JS.join "-" (map (fun t => JS.toLowerCase (slug (team t))) teams)) ++
    "</id>" ++ JS.LF ++
  "  <title>" ++ xmlEscape (JS.join ", " (map (fun t => name (team t)) teams)) ++
    " Match Schedule</title>" ++ JS.LF ++
  "  <subtitle>Upcoming and recent matches</subtitle>" ++ JS.LF ++
  "  <updated>" ++ now ++ "</updated>" ++ JS.LF ++
  "  <link href=" ++ q ++ xmlEscape (href requestUrl) ++ q ++ " rel=" ++ q ++
    "self" ++ q ++ " type=" ++ q ++ "application/atom+xml" ++ q ++ "/>" ++ JS.LF ++
  "  <generator>esports-calendar</generator>" ++ JS.LF.

(** The order of a list sorted by a key, largest first. *)
Definition key_descending {A : Type} (key : A -> Z) (x y : A) : Prop :=
  key y <= key x.

(** [f] holds on the [n] integers from [start] on. *)
Fixpoint check_range (f : Z -> bool) (start : Z) (n : nat) : bool :=
  match n with
  | O => true
  | S n' => f start && check_range f (start + 1) n'
  end.

(** The time of an item for the order of the feed: the date it is
    published, 0 when the text is no date. *)
Definition published_key (item : FeedItem) : Z :=
  match published_time item with Some t => t | None => 0 end.

Definition match_time (p : TeamInfo * MatchData) : Z := timestamp (snd p).

(** The time value of a match is out of the range of a date. *)
Definition out_of_range (p : TeamInfo * MatchData) : Prop :=
  JS.Date_of_number (timestamp (snd p) * 1000) = None.

(** ECMAScript's [DayFromYear]: the day number of 1 January of [y]. *)
Definition DayFromYear (y : Z) : Z :=
  365 * (y - 1970) + (y - 1969) / 4 - (y - 1901) / 100 + (y - 1601) / 400.

(** The days of a year before month [m] (1..12), as ECMAScript's
    [MonthFromTime] tabulates them. *)
Definition days_before_month (leap : bool) (m : Z) : Z :=
  let l := if leap then 1 else 0 in
  if m =? 1 then 0 else if m =? 2 then 31 else if m =? 3 then 59 + l
  else if m =? 4 then 90 + l else if m =? 5 then 120 + l
  else if m =? 6 then 151 + l else if m =? 7 then 181 + l
  else if m =? 8 then 212 + l else if m =? 9 then 243 + l
  else if m =? 10 then 273 + l else if m =? 11 then 304 + l
  else 334 + l.

(** ** Vocabulary of the further properties *)

(** The characters of a storage key before its extension. *)
Definition key_char (c : ascii) : bool :=
  JS.is_lower c || JS.is_digit c || Ascii.eqb c "_" || Ascii.eqb c "-".

(** The body of the key of a valid slug: not empty, key characters only. *)
Definition safe_body (body : string) : bool :=
  JS.truthy body && all_chars key_char body.

(** Two bucket bindings are both absent, or both present and equal on
    the keys that satisfy [P]. *)
Definition buckets_agree_on (P : string -> Prop)
    (b1 b2 : option (string -> option (option TeamData))) : Prop :=
  match b1, b2 with
  | Some get1, Some get2 => forall key, P key -> get1 key = get2 key
  | None, None => True
  | _, _ => False
  end.

(** An environment like [mock_env] whose bucket throws on every key that
    holds a character other than a key character or a dot. *)
Definition guarded_env : Env :=
  {| DATA_BUCKET := Some (fun key =>
       if all_chars (fun c => key_char c || Ascii.eqb c ".") key
       then (if String.eqb key "fnatic.json" then Some (Some TEAM_A)
             else if String.eqb key "g2_esports.json" then Some (Some TEAM_B)
             else Some None)
       else None);
     ASSETS := fun _ => Some None |}.

(** A white-space or comma character: a [teams] parameter made of these
    names no team. *)
Definition blank_char (c : ascii) : bool := JS.is_whitespace c || Ascii.eqb c ",".

Definition starts_with_whitespace (s : string) : bool :=
  match s with String c _ => JS.is_whitespace c | EmptyString => false end.

(** [mock_context] over [guarded_env]. *)
Definition guarded_context (href_ : string) (params : list (string * string)) : Context :=
  {| request := request (mock_context href_ params);
     env := guarded_env;
     clock := clock (mock_context href_ params) |}.

(** A character other than the comma that separates the slugs. *)
Definition not_comma (c : ascii) : bool := negb (Ascii.eqb c ",").

(** A record whose only match lies beyond the range of a date, and an
    environment that stores it. *)
Definition TEAM_FAR : TeamData :=
  {| team := team TEAM_A;
     matches := [ {| timestamp := 10000000000000; opponent := "G2 Esports";
                    tournament := "LEC 2025 Spring"; url := "";
                    is_upcoming := true; score := None |} ];
     generated_utc := "2026-11-01T12:00:00.000Z" |}.

Definition far_context (href_ : string) (params : list (string * string)) : Context :=
  {| request := request (mock_context href_ params);
     env := {| DATA_BUCKET := Some (fun _ => Some (Some TEAM_FAR));
               ASSETS := fun _ => Some None |};
     clock := clock (mock_context href_ params) |}.

(** Reading a date-time of the form YYYYMMDDThhmmssZ: the seconds since
    the epoch it denotes. *)
Definition parse_ics_date (s : string) : option Z :=
  let? (y, s1) := JS.parse_digits 4 0 s in
  let? (mo, s2) := JS.parse_digits 2 0 s1 in
  let? (d, s3) := JS.parse_digits 2 0 s2 in
  let? s4 := JS.expect "T" s3 in
  let? (h, s5) := JS.parse_digits 2 0 s4 in
  let? (mi, s6) := JS.parse_digits 2 0 s5 in
  let? (sec, s7) := JS.parse_digits 2 0 s6 in
  let? s8 := JS.expect "Z" s7 in
  if negb (JS.truthy s8)
     && (1 <=? mo) && (mo <=? 12) && (1 <=? d) && (d <=? JS.DaysInMonth y mo)
     && (h <=? 23) && (mi <=? 59) && (sec <=? 59)
  then Some (JS.days_from_civil y mo d * 86400 + (h * 60 + mi) * 60 + sec)
  else None.

(** The year prints in four digits, a two-digit field pads to two. *)
Definition year_prints_fixed (y : Z) : bool :=
  String.eqb (JS.String_of (Some y)) (JS.fixed_digits 4 y).

Definition field_pads_fixed (v : Z) : bool :=
  String.eqb (pad (Some v)) (JS.fixed_digits 2 v).

(** A character a UID token never holds: white space, an underscore or
    an upper-case letter. *)
Definition token_char (c : ascii) : bool :=
  negb (JS.is_whitespace c) && negb (Ascii.eqb c "_") && negb (JS.is_upper c).

(** The same for the token of a feed id, which keeps underscores. *)
Definition feed_token_char (c : ascii) : bool :=
  negb (JS.is_whitespace c) && negb (JS.is_upper c).

(** The text of a description before it is escaped. *)
Definition raw_description (match_ : MatchData) : string :=
  "Tournament: " ++ tournament match_
  ++ (if JS.truthy (url match_) then "\n\nMore info: " ++ url match_ else "")
  ++ (if negb (is_upcoming match_) then "\n\n(Completed match)" else "").

(** Reading escaped XML text back: each of the five entities becomes its
    character.  [skip] characters are passed over first. *)
Fixpoint xmlUnescape_from (skip : nat) (s : string) : string :=
  match s with
  | EmptyString => EmptyString
  | String c rest =>
      match skip with
      | S k => xmlUnescape_from k rest
      | O =>
          if Ascii.eqb c "&" then
            if String.prefix "amp;" rest then String "&" (xmlUnescape_from 4 rest)
            else if String.prefix "lt;" rest then String "<" (xmlUnescape_from 3 rest)
            else if String.prefix "gt;" rest then String ">" (xmlUnescape_from 3 rest)
            else if String.prefix "quot;" rest
                 then String JS.dquote (xmlUnescape_from 5 rest)
            else if String.prefix "apos;" rest then String "'" (xmlUnescape_from 5 rest)
            else String c (xmlUnescape_from 0 rest)
          else String c (xmlUnescape_from 0 rest)
      end
  end.

Definition xmlUnescape (s : string) : string := xmlUnescape_from 0 s.

(** A reminder written in decimal is accepted as itself. *)
Definition reminder_accepted_as_itself (r : Z) : bool :=
  match reminder_stage (Some (JS.Number_toString r)) with
  | inr n => n =? r
  | inl _ => false
  end.

(** A team record without its matches. *)
Definition without_matches (teamData : TeamData) : TeamData :=
  {| team := team teamData; matches := []; generated_utc := generated_utc teamData |}.

(** The calendar of teams that have no match to show. *)
Definition empty_calendar (teams : list TeamData) : string :=
  JS.join JS.CRLF
    [ "BEGIN:VCALENDAR";
      "VERSION:2.0";
      "PRODID:-//Esports Calendar//" ++
        JS.join ", " (map (fun t => name (team t)) teams) ++ "//";
      "CALSCALE:GREGORIAN";
      "METHOD:PUBLISH";
      "X-WR-CALNAME:" ++
        JS.join ", " (map (fun t => name (team t)) teams) ++ " Matches";
      "X-PUBLISHED-TTL:PT4H";
      "END:VCALENDAR" ]
  ++ JS.CRLF.

(** The lines of all events of a calendar, in order. *)
Definition event_lines (teams : list TeamData) (reminderMinutes : Z) : list string :=
  flat_map (fun p => generateVEvent (fst p) (snd p) reminderMinutes) (all_matches teams).

(** No match of the teams passes the test of the tournament filter. *)
Definition no_match_passes (tournamentFilter : string) (teams : list TeamData) : bool :=
  forallb
    (fun teamData =>
       forallb
         (fun m => negb (JS.includes (JS.toLowerCase (tournament m))
                                     (JS.toLowerCase tournamentFilter)))
         (matches teamData))
    teams.

(** ** The text on which the built-ins are embedded exactly *)

(** A unit below 128. *)
Definition ascii_char (c : ascii) : bool := (JS.code c <? 128)%nat.

(** ASCII text.  On it the embedding of [toLowerCase], of the white space
    of [trim], [parseInt] and the class [\s], and of the order of
    [sort()] is exact; beyond it these built-ins go by the tables of
    Unicode, which the embedding leaves out. *)
Definition ascii_text (s : string) : bool := all_chars ascii_char s.

(** The tournaments of all matches of the teams are ASCII text. *)
Definition ascii_tournaments (teams : list TeamData) : bool :=
  forallb (fun teamData => forallb (fun m => ascii_text (tournament m)) (matches teamData))
          teams.

(** An integer that a JavaScript number holds exactly and prints in
    full: at most 2^53 - 1 in magnitude. *)
Definition safe_integer (n : Z) : bool := Z.abs n <=? 9007199254740991.

Fixpoint ends_with_whitespace (s : string) : bool :=
  match s with
  | EmptyString => false
  | String c EmptyString => JS.is_whitespace c
  | String _ s' => ends_with_whitespace s'
  end.

(** *** The opponent token, following the words of the claim

    "The opponent token lowercases and replaces whitespace runs with
    hyphens but preserves underscores (unlike the ICS UID's opponent
    normalization, which also maps underscores to hyphens)." *)

(** [token_spec underscores name token]: [token] is [name] read from the
    left, with each character that is not white space in lower case (an
    underscore as a hyphen when [underscores] is set, as for the UID) and
    each maximal run of white space as one hyphen. *)
Inductive token_spec (underscores : bool) : string -> string -> Prop :=
| token_end : token_spec underscores "" ""
| token_letter (c : ascii) (name token : string) :
    JS.is_whitespace c = false ->
    token_spec underscores name token ->
    token_spec underscores (String c name)
      (String (if underscores && Ascii.eqb c "_" then "-"%char else lowercased c) token)
| token_run (run name token : string) :
    run <> "" ->
    all_chars JS.is_whitespace run = true ->
    starts_with_whitespace name = false ->
    token_spec underscores name token ->
    token_spec underscores (run ++ name) (String "-" token).




(** The token of the UID ([underscores] set) or of the feed ids. *)
Definition token_of (underscores : bool) (name : string) : string :=
  if underscores then uid_opponentSlug name else feed_opponent_token name.


(** ** Strings *)

Lemma append_nil_r (s : string) : s ++ "" = s.
Proof. induction s; simpl; congruence. Qed.

Lemma append_assoc (s1 s2 s3 : string) : (s1 ++ s2) ++ s3 = s1 ++ (s2 ++ s3).
Proof. induction s1; simpl; congruence. Qed.

Lemma length_append (s1 s2 : string) :
  String.length (s1 ++ s2) = (String.length s1 + String.length s2)%nat.
Proof. induction s1; simpl; congruence. Qed.

Lemma get_append_l (s1 s2 : string) (n : nat) :
  (n < String.length s1)%nat -> String.get n (s1 ++ s2) = String.get n s1.
Proof. intros H. symmetry. now apply append_correct1. Qed.

Lemma get_append_r (s1 s2 : string) (n : nat) :
  String.get (String.length s1 + n) (s1 ++ s2) = String.get n s2.
Proof. rewrite Nat.add_comm. symmetry. apply append_correct2. Qed.

Lemma get_Some_lt (s : string) (n : nat) (c : ascii) :
  String.get n s = Some c -> (n < String.length s)%nat.
Proof.
  revert n. induction s as [|x s IH]; intros [|n] H; simpl in *; try discriminate.
  - lia.
  - apply IH in H. lia.
Qed.

(** ** ICS escaping *)

Lemma icsEscape_length (text : string) :
  String.length (icsEscape text) = (String.length text + count_special text)%nat.
Proof.
  induction text as [|c rest IH]; simpl; [reflexivity|].
  destruct (ics_special c); simpl; rewrite IH; lia.
Qed.

Lemma icsEscape_get (text : string) (i : nat) (c : ascii) :
  String.get i text = Some c ->
  String.get (ics_pos text i) (icsEscape text) = Some c.
Proof.
  revert i. induction text as [|x rest IH]; intros [|i] H; simpl in *;
    try discriminate.
  - injection H as ->. destruct (ics_special c); reflexivity.
  - destruct (ics_special x); simpl; auto.
Qed.

Lemma icsEscape_get_backslash (text : string) (i : nat) (c : ascii) :
  String.get i text = Some c -> ics_special c = true ->
  (1 <= ics_pos text i)%nat /\
  String.get (ics_pos text i - 1) (icsEscape text) = Some JS.backslash.
Proof.
  revert i. induction text as [|x rest IH]; intros [|i] H Hc; simpl in *;
    try discriminate.
  - injection H as ->. rewrite Hc. simpl. split; [lia | reflexivity].
  - destruct (IH i H Hc) as [Hpos Hget].
    destruct (ics_pos rest i) as [|p]; [lia|].
    simpl in Hget. rewrite Nat.sub_0_r in Hget.
    destruct (ics_special x); simpl; (split; [lia|]);
      rewrite ?Nat.sub_0_r; exact Hget.
Qed.

Lemma ics_pos_step (text : string) (i : nat) (c : ascii) :
  String.get (S i) text = Some c ->
  ics_pos text (S i) =
  (ics_pos text i + 1 + (if ics_special c then 1 else 0))%nat.
Proof.
  revert i. induction text as [|x rest IH]; intros i H; simpl in *;
    try discriminate.
  destruct i as [|i].
  - destruct rest as [|y rest']; simpl in *; try discriminate.
    injection H as ->. destruct (ics_special x), (ics_special c); reflexivity.
  - rewrite (IH i H). destruct (ics_special x), (ics_special c); lia.
Qed.

Lemma icsUnescape_icsEscape (text : string) : icsUnescape (icsEscape text) = text.
Proof.
  induction text as [|c rest IH]; simpl; [reflexivity|].
  destruct (ics_special c) eqn:Hc; simpl.
  - now rewrite IH.
  - destruct (Ascii.eqb c JS.backslash) eqn:Hb.
    + unfold ics_special in Hc. rewrite Hb in Hc. discriminate.
    + now rewrite IH.
Qed.

(** C7.  [icsEscape] puts exactly one backslash before every backslash,
    semicolon and comma of its input and changes nothing else: the
    output is longer than the input by the number of such characters;
    the input character at position [i] stands at position [ics_pos text i]
    of the output; when it is one of the three, the output character just
    before it is a backslash; the first character is preceded by that
    backslash only, and between the images of two neighbouring input
    characters there is nothing but the backslash of the second; reading
    the escapes back gives the input. *)
Theorem C7_icsEscape_one_backslash_each (text : string) :
  String.length (icsEscape text) = (String.length text + count_special text)%nat
  /\ (forall i c, String.get i text = Some c ->
        String.get (ics_pos text i) (icsEscape text) = Some c
        /\ (ics_special c = true ->
              (1 <= ics_pos text i)%nat /\
              String.get (ics_pos text i - 1) (icsEscape text) = Some JS.backslash))
  /\ (forall c, String.get 0 text = Some c ->
        ics_pos text 0 = if ics_special c then 1%nat else 0%nat)
  /\ (forall i c, String.get (S i) text = Some c ->
        ics_pos text (S i) =
        (ics_pos text i + 1 + (if ics_special c then 1 else 0))%nat)
  /\ icsUnescape (icsEscape text) = text.
Proof.
  split; [apply icsEscape_length|].
  split.
  { intros i c H. split; [now apply icsEscape_get|].
    intros Hc. now apply (icsEscape_get_backslash text i c). }
  split.
  { intros c H. destruct text as [|x rest]; simpl in *; [discriminate|].
    now injection H as ->. }
  split; [intros i c H; exact (ics_pos_step text i c H) | apply icsUnescape_icsEscape].
Qed.

(** ** XML escaping *)

Lemma replace_char_append (c : ascii) (r s1 s2 : string) :
  JS.replace_char c r (s1 ++ s2) = JS.replace_char c r s1 ++ JS.replace_char c r s2.
Proof.
  induction s1 as [|x s1 IH]; simpl; [reflexivity|].
  destruct (Ascii.eqb x c); simpl; rewrite IH; [now rewrite append_assoc | reflexivity].
Qed.

Lemma xmlEscape_append (s1 s2 : string) :
  xmlEscape (s1 ++ s2) = xmlEscape s1 ++ xmlEscape s2.
Proof. unfold xmlEscape. now rewrite !replace_char_append. Qed.

Ltac case_char c lit :=
  destruct (Ascii.eqb_spec c lit) as [->|?].

Lemma xmlEscape_char (c : ascii) : xmlEscape (String c "") = xml_entity c.
Proof.
  unfold xml_entity.
  case_char c "&"%char; [reflexivity|].
  case_char c "<"%char; [reflexivity|].
  case_char c ">"%char; [reflexivity|].
  case_char c JS.dquote; [reflexivity|].
  case_char c "'"%char; [reflexivity|].
  unfold xmlEscape. simpl.
  repeat match goal with
         | H : c <> ?l |- context [Ascii.eqb c ?l] =>
             rewrite (proj2 (Ascii.eqb_neq c l) H); simpl
         end.
  reflexivity.
Qed.

Lemma xmlEscape_entities (text : string) : xmlEscape text = xml_entities text.
Proof.
  induction text as [|c rest IH]; [reflexivity|].
  change (String c rest) with (String c "" ++ rest).
  rewrite xmlEscape_append, xmlEscape_char, IH. reflexivity.
Qed.

Lemma xml_entities_at (text : string) (i : nat) (c : ascii) :
  String.get i text = Some c ->
  exists pre post,
    xml_entities text = pre ++ xml_entity c ++ post /\
    String.length pre = xml_pos text i.
Proof.
  revert i. induction text as [|x rest IH]; intros [|i] H; simpl in *;
    try discriminate.
  - injection H as ->. exists "", (xml_entities rest). split; reflexivity.
  - destruct (IH i H) as (pre & post & E & L).
    exists (xml_entity x ++ pre), post. split.
    + rewrite E. now rewrite append_assoc.
    + rewrite length_append. lia.
Qed.

Lemma all_chars_append (p : ascii -> bool) (s1 s2 : string) :
  all_chars p (s1 ++ s2) = all_chars p s1 && all_chars p s2.
Proof.
  induction s1 as [|x s1 IH]; simpl; [reflexivity|].
  rewrite IH. now rewrite andb_assoc.
Qed.

Lemma all_chars_get (p : ascii -> bool) (s : string) (i : nat) (c : ascii) :
  all_chars p s = true -> String.get i s = Some c -> p c = true.
Proof.
  revert i. induction s as [|x s IH]; intros [|i] Hall H; simpl in *;
    try discriminate; apply andb_prop in Hall as [Hx Hs].
  - now injection H as <-.
  - eauto.
Qed.

Lemma xml_entity_no_markup (c : ascii) :
  all_chars (fun x => negb (xml_markup x)) (xml_entity c) = true.
Proof.
  unfold xml_entity.
  case_char c "&"%char; [reflexivity|].
  case_char c "<"%char; [reflexivity|].
  case_char c ">"%char; [reflexivity|].
  case_char c JS.dquote; [reflexivity|].
  case_char c "'"%char; [reflexivity|].
  simpl. unfold xml_markup.
  repeat match goal with
         | H : c <> ?l |- context [Ascii.eqb c ?l] =>
             rewrite (proj2 (Ascii.eqb_neq c l) H); simpl
         end.
  reflexivity.
Qed.

Lemma xml_entities_no_markup (text : string) :
  all_chars (fun x => negb (xml_markup x)) (xml_entities text) = true.
Proof.
  induction text as [|c rest IH]; simpl; [reflexivity|].
  now rewrite all_chars_append, xml_entity_no_markup, IH.
Qed.

Lemma xml_entities_ampersand (text : string) (i : nat) :
  String.get i (xml_entities text) = Some "&"%char ->
  exists e pre post,
    In e xml_entity_names /\
    xml_entities text = pre ++ e ++ post /\
    String.length pre = i.
Proof.
  revert i. induction text as [|c rest IH]; intros i H; simpl in H.
  { destruct i; discriminate. }
  assert (Hshift : forall k j,
            String.get j (xml_entities rest) = Some "&"%char ->
            String.length (xml_entity c) = k ->
            exists e pre post,
              In e xml_entity_names /\
              xml_entities (String c rest) = pre ++ e ++ post /\
              String.length pre = (k + j)%nat).
  { intros k j Hj Hk. destruct (IH j Hj) as (e & pre & post & He & E & L).
    exists e, (xml_entity c ++ pre), post. split; [exact He|]. split.
    - simpl. rewrite E. now rewrite append_assoc.
    - rewrite length_append. lia. }
  assert (Hhere : forall e,
            In e xml_entity_names -> xml_entity c = e ->
            exists e0 pre post,
              In e0 xml_entity_names /\
              xml_entities (String c rest) = pre ++ e0 ++ post /\
              String.length pre = 0%nat).
  { intros e He Hc. exists e, "", (xml_entities rest).
    split; [exact He|]. split; [simpl; now rewrite Hc | reflexivity]. }
  unfold xml_entity in H, Hshift, Hhere. unfold xml_entity_names in Hhere.
  case_char c "&"%char.
  { simpl in *.
    destruct i as [|[|[|[|[|i]]]]]; simpl in H; try discriminate.
    - apply (Hhere "&amp;"); simpl; auto 10.
    - apply (Hshift 5%nat i H). reflexivity. }
  case_char c "<"%char.
  { simpl in *.
    destruct i as [|[|[|[|i]]]]; simpl in H; try discriminate.
    - apply (Hhere "&lt;"); simpl; auto 10.
    - apply (Hshift 4%nat i H). reflexivity. }
  case_char c ">"%char.
  { simpl in *.
    destruct i as [|[|[|[|i]]]]; simpl in H; try discriminate.
    - apply (Hhere "&gt;"); simpl; auto 10.
    - apply (Hshift 4%nat i H). reflexivity. }
  case_char c JS.dquote.
  { simpl in *.
    destruct i as [|[|[|[|[|[|i]]]]]]; simpl in H; try discriminate.
    - apply (Hhere "&quot;"); simpl; auto 10.
    - apply (Hshift 6%nat i H). reflexivity. }
  case_char c "'"%char.
  { simpl in *.
    destruct i as [|[|[|[|[|[|i]]]]]]; simpl in H; try discriminate.
    - apply (Hhere "&apos;"); simpl; auto 10.
    - apply (Hshift 6%nat i H). reflexivity. }
  simpl in *. destruct i as [|i]; simpl in H.
  - congruence.
  - apply (Hshift 1%nat i H). reflexivity.
Qed.

(** C8.  [xmlEscape], five substitutions with the ampersand first, is the
    one-pass replacement of every [&], [<], [>], double quote and
    apostrophe by its named entity: the entity of the input character at
    position [i] stands in the output at position [xml_pos text i]; the
    output holds no [<], [>], double quote or apostrophe at all; and every
    [&] of the output is the first character of one of the five
    entities. *)
Theorem C8_xmlEscape_named_entities (text : string) :
  xmlEscape text = xml_entities text
  /\ (forall i c, String.get i text = Some c ->
        exists pre post,
          xmlEscape text = pre ++ xml_entity c ++ post /\
          String.length pre = xml_pos text i)
  /\ (forall i c, String.get i (xmlEscape text) = Some c ->
        c <> "<"%char /\ c <> ">"%char /\ c <> JS.dquote /\ c <> "'"%char)
  /\ (forall i, String.get i (xmlEscape text) = Some "&"%char ->
        exists e pre post,
          In e xml_entity_names /\
          xmlEscape text = pre ++ e ++ post /\
          String.length pre = i).
Proof.
  rewrite xmlEscape_entities.
  split; [reflexivity|].
  split; [intros i c H; now apply xml_entities_at|].
  split; [|apply xml_entities_ampersand].
  intros i c H.
  pose proof (all_chars_get _ _ i c (xml_entities_no_markup text) H) as Hc.
  unfold xml_markup in Hc.
  apply negb_true_iff in Hc.
  repeat (apply orb_false_iff in Hc as [Hc ?]).
  repeat split; apply Ascii.eqb_neq; assumption.
Qed.

(** The order of the substitutions matters: with the ampersand last, the
    entity written for [<] would be escaped a second time. *)
Example xmlEscape_ampersand_first :
  xmlEscape "a<b & c" = "a&lt;b &amp; c" /\
  JS.replace_char "&" "&amp;" (JS.replace_char "<" "&lt;" "a<b") = "a&amp;lt;b".
Proof. split; reflexivity. Qed.

(** ** The lines of an event *)

(** [generateVEvent] returns seven fixed properties, then the optional
    URL, transparency and alarm parts, then the closing line. *)
Lemma generateVEvent_shape (team : TeamInfo) (match_ : MatchData) (reminderMinutes : Z) :
  generateVEvent team match_ reminderMinutes =
  app [ "BEGIN:VEVENT";
        "UID:" ++ event_uid team match_;
        "DTSTART:" ++ formatICSDate (timestamp match_);
        "DTEND:" ++ formatICSDate (timestamp match_ + 2 * 60 * 60);
        "SUMMARY:" ++
          icsEscape (emoji team ++ " " ++ short_name team ++ " vs " ++ opponent match_);
        "DESCRIPTION:" ++ event_description match_;
        "STATUS:CONFIRMED" ]
   (app (if JS.truthy (url match_) then ["URL:" ++ url match_] else [])
   (app (if negb (is_upcoming match_) then ["TRANSP:TRANSPARENT"] else [])
   (app (if is_upcoming match_ && (0 <? reminderMinutes)
         then valarm_block team match_ reminderMinutes else [])
        ["END:VEVENT"]))).
Proof.
  unfold generateVEvent, JS.push, valarm_block.
  destruct (JS.truthy (url match_)), (is_upcoming match_), (0 <? reminderMinutes);
    reflexivity.
Qed.

(** Deciding whether a line with a known first character occurs among
    the lines of an event. *)
Ltac line_cases :=
  repeat match goal with
         | H : In _ (_ ++ _)%list |- _ => apply in_app_or in H
         | H : _ \/ _ |- _ => destruct H
         | H : In _ (if ?b then _ else _) |- _ => destruct b eqn:?
         | H : In _ (_ :: _) |- _ => cbn [In] in H
         | H : In _ [] |- _ => destruct H
         | H : False |- _ => destruct H
         | H : (_ ++ _)%string = _ |- _ => cbn [String.append] in H
         | H : String _ _ = String _ _ |- _ => try discriminate H; clear H
         end.

Lemma valarm_condition (b : bool) (r : Z) :
  b && (0 <? r) = true <-> b = true /\ 0 < r.
Proof. rewrite andb_true_iff, Z.ltb_lt. tauto. Qed.

Lemma begin_valarm_iff (team : TeamInfo) (match_ : MatchData) (reminderMinutes : Z) :
  In "BEGIN:VALARM" (generateVEvent team match_ reminderMinutes) <->
  is_upcoming match_ = true /\ 0 < reminderMinutes.
Proof.
  rewrite generateVEvent_shape, <- valarm_condition. split.
  - intros H. unfold valarm_block in H. line_cases; reflexivity.
  - intros ->. rewrite !in_app_iff. do 3 right. left. left. reflexivity.
Qed.

Lemma end_valarm_iff (team : TeamInfo) (match_ : MatchData) (reminderMinutes : Z) :
  In "END:VALARM" (generateVEvent team match_ reminderMinutes) <->
  is_upcoming match_ = true /\ 0 < reminderMinutes.
Proof.
  rewrite generateVEvent_shape, <- valarm_condition. split.
  - intros H. unfold valarm_block in H. line_cases; reflexivity.
  - intros ->. rewrite !in_app_iff. do 3 right. left. unfold valarm_block.
    cbn [In]. auto 10.
Qed.

(** C4.  The lines [generateVEvent] returns for a match hold the line
    BEGIN:VALARM exactly when the match is upcoming and the reminder is
    positive, and likewise END:VALARM; under that condition, and only
    then, the event ends with the five lines of the alarm followed by
    END:VEVENT, and it always starts with BEGIN:VEVENT.  ([generateICS]
    renders these lines for every match of every team with the reminder
    of the request: lemma [generateICS_events].) *)
Theorem C4_valarm_iff_upcoming_and_reminder
    (team : TeamInfo) (match_ : MatchData) (reminderMinutes : Z) :
  let lines := generateVEvent team match_ reminderMinutes in
  (In "BEGIN:VALARM" lines <-> is_upcoming match_ = true /\ 0 < reminderMinutes)
  /\ (In "END:VALARM" lines <-> is_upcoming match_ = true /\ 0 < reminderMinutes)
  /\ ((exists before,
         lines = (before ++ valarm_block team match_ reminderMinutes
                         ++ ["END:VEVENT"])%list)
      <-> is_upcoming match_ = true /\ 0 < reminderMinutes)
  /\ hd_error lines = Some "BEGIN:VEVENT"
  /\ last lines "" = "END:VEVENT".
Proof.
  cbv zeta.
  split; [apply begin_valarm_iff|].
  split; [apply end_valarm_iff|].
  split; [|split].
  - split.
    + intros [before E]. apply (begin_valarm_iff team match_ reminderMinutes).
      rewrite E, in_app_iff. right. left. reflexivity.
    + intros Hc. apply valarm_condition in Hc.
      rewrite generateVEvent_shape, Hc.
      eexists. rewrite !app_assoc. reflexivity.
  - rewrite generateVEvent_shape. reflexivity.
  - rewrite generateVEvent_shape. rewrite !app_assoc. apply last_last.
Qed.

(** C5.  The lines [generateVEvent] returns for a match hold the line
    TRANSP:TRANSPARENT exactly when the match is not upcoming, whatever
    the team, the other fields of the match and the reminder. *)
Theorem C5_transp_iff_not_upcoming
    (team : TeamInfo) (match_ : MatchData) (reminderMinutes : Z) :
  In "TRANSP:TRANSPARENT" (generateVEvent team match_ reminderMinutes) <->
  is_upcoming match_ = false.
Proof.
  rewrite generateVEvent_shape. split.
  - intros H. unfold valarm_block in H. line_cases;
      match goal with H : negb _ = true |- _ => now apply negb_true_iff in H end.
  - intros ->. rewrite !in_app_iff. do 2 right. left. left. reflexivity.
Qed.

(** ** The UID of an event *)

Lemma sort_pair (x y : string) :
  JS.Array_sort JS.string_comparefn [x; y] =
  if (x <=? y)%string then [x; y] else [y; x].
Proof.
  cbn [JS.Array_sort JS.sort_insert]. unfold JS.SortCompare, JS.string_comparefn.
  unfold String.leb. destruct (String.compare x y); reflexivity.
Qed.

Lemma sort_pair_swap (x y : string) :
  JS.Array_sort JS.string_comparefn [x; y] = JS.Array_sort JS.string_comparefn [y; x].
Proof.
  rewrite !sort_pair. unfold String.leb.
  rewrite (String.compare_antisym x y).
  destruct (String.compare y x) eqn:E; cbn [CompOpp]; try reflexivity.
  apply String.compare_eq_iff in E. now subst.
Qed.

(** The UID is the same from both records of a match when each team's
    lower-cased slug is the token the other record derives from its
    name. *)
Lemma event_uid_symmetric (teamA teamB : TeamInfo) (matchA matchB : MatchData) :
  timestamp matchA = timestamp matchB ->
  uid_opponentSlug (opponent matchA) = JS.toLowerCase (slug teamB) ->
  uid_opponentSlug (opponent matchB) = JS.toLowerCase (slug teamA) ->
  event_uid teamA matchA = event_uid teamB matchB.
Proof.
  intros Ht HA HB. unfold event_uid. cbv zeta.
  rewrite HA, HB, Ht, (sort_pair_swap (JS.toLowerCase (slug teamA))).
  reflexivity.
Qed.

(** C1 (the code departs from the claim).  The two records of the test
    suite describe one match: Fnatic's record names the opponent
    "G2 Esports", G2 Esports's record (slug [G2_Esports]) names the
    opponent "Fnatic", at the same timestamp.  [generateVEvent] gives
    them different UID lines: the underscore of an opponent name becomes
    a hyphen, the underscore of the team's own slug stays. *)
Theorem C1_uid_differs_between_the_two_records :
  opponent TEAM_A_future = name (team TEAM_B)
  /\ opponent TEAM_B_future = name (team TEAM_A)
  /\ timestamp TEAM_A_future = timestamp TEAM_B_future
  /\ nth 1 (generateVEvent (team TEAM_A) TEAM_A_future 30) "" =
     "UID:fnatic-vs-g2-esports-1793620800@esports-calendar"
  /\ nth 1 (generateVEvent (team TEAM_B) TEAM_B_future 30) "" =
     "UID:fnatic-vs-g2_esports-1793620800@esports-calendar"
  /\ nth 1 (generateVEvent (team TEAM_A) TEAM_A_future 30) "" <>
     nth 1 (generateVEvent (team TEAM_B) TEAM_B_future 30) "".
Proof.
  repeat split; try reflexivity.
  apply String.eqb_neq. vm_compute. reflexivity.
Qed.

(** ** The description of an event *)

Lemma generateVEvent_ignores_score
    (team : TeamInfo) (match_ : MatchData) (s : option string) (reminderMinutes : Z) :
  generateVEvent team (with_score match_ s) reminderMinutes =
  generateVEvent team match_ reminderMinutes.
Proof. reflexivity. Qed.

(** C2 (the code departs from the claim).  The completed match of the
    test suite carries the score "2 : 1".  The DESCRIPTION line
    [generateVEvent] renders for it has the tournament, the link and the
    completed marker and no score; no line of the event and no part of
    the response to the request of the suite includes "Score: 2 : 1". *)
Theorem C2_description_has_no_score :
  is_upcoming TEAM_A_past = false
  /\ score TEAM_A_past = Some "2 : 1"
  /\ nth 5 (generateVEvent (team TEAM_A) TEAM_A_past 30) "" =
     "DESCRIPTION:Tournament: LEC 2025 Spring\\n\\nMore info: https://liquipedia.net/leagueoflegends/LEC/2025\\n\\n(Completed match)"
  /\ forallb (fun line => negb (JS.includes line "Score: 2 : 1"))
       (generateVEvent (team TEAM_A) TEAM_A_past 30) = true
  /\ JS.includes
       (body_text (onRequest (mock_context
          "https://example.com/api/calendar?teams=Fnatic" [("teams", "Fnatic")])))
       "Score: 2 : 1" = false
  /\ JS.includes
       (body_text (onRequest (mock_context
          "https://example.com/api/calendar?teams=Fnatic" [("teams", "Fnatic")])))
       "(Completed match)" = true.
Proof. repeat split; vm_compute; reflexivity. Qed.

(** ** Feed identifiers *)

Lemma toLowerCase_append (s1 s2 : string) :
  JS.toLowerCase (s1 ++ s2) = JS.toLowerCase s1 ++ JS.toLowerCase s2.
Proof. induction s1; simpl; congruence. Qed.




(** ** The reminder parameter *)

Lemma digit_not_space_or_sign (c : ascii) :
  JS.is_digit c = true ->
  JS.is_whitespace c = false /\ Ascii.eqb c "-" = false /\ Ascii.eqb c "+" = false.
Proof.
  destruct c as [[] [] [] [] [] [] [] []]; vm_compute; intros H;
    try discriminate H; repeat split.
Qed.

Lemma trimStart_whitespace (ws s : string) :
  all_chars JS.is_whitespace ws = true -> JS.trimStart (ws ++ s) = JS.trimStart s.
Proof.
  induction ws as [|c ws IH]; simpl; [reflexivity|].
  intros H. apply andb_prop in H as [Hc Hws]. rewrite Hc. auto.
Qed.

Lemma read_digits_prefix (digits rest : string) (acc : Z) (count : nat) :
  all_chars JS.is_digit digits = true ->
  starts_with_digit rest = false ->
  JS.read_digits acc count (digits ++ rest) =
  (decimal_from acc digits, (count + String.length digits)%nat).
Proof.
  revert acc count. induction digits as [|c digits IH]; intros acc count Hd Hr.
  - simpl. rewrite Nat.add_0_r. destruct rest as [|x rest]; [reflexivity|].
    simpl in *. now rewrite Hr.
  - simpl in *. apply andb_prop in Hd as [Hc Hd]. rewrite Hc.
    rewrite IH by assumption. f_equal. lia.
Qed.

(** [parseInt] reads the integer at the front of a string and ignores
    what follows its digits. *)
Lemma parseInt10_leading_integer (ws sign digits rest : string) :
  all_chars JS.is_whitespace ws = true ->
  sign = "" \/ sign = "+" \/ sign = "-" ->
  all_digits digits = true ->
  starts_with_digit rest = false ->
  JS.parseInt10 (ws ++ sign ++ digits ++ rest) =
  Some ((if String.eqb sign "-" then -1 else 1) * decimal_value digits).
Proof.
  intros Hws Hsign Hd Hr. unfold all_digits in Hd.
  apply andb_prop in Hd as [Hne Hd].
  unfold JS.parseInt10. rewrite trimStart_whitespace by assumption.
  destruct digits as [|c digits]; [discriminate|].
  pose proof Hd as Hd'. simpl in Hd'. apply andb_prop in Hd' as [Hc _].
  destruct (digit_not_space_or_sign c Hc) as (Hw & Hm & Hp).
  destruct Hsign as [->|[->| ->]].
  - change ("" ++ String c digits ++ rest) with (String c digits ++ rest).
    cbn [String.append JS.trimStart]. rewrite Hw, Hm, Hp.
    change (String c (digits ++ rest)) with (String c digits ++ rest).
    rewrite read_digits_prefix by assumption. reflexivity.
  - change (JS.trimStart ("+" ++ String c digits ++ rest))
      with (String "+" (String c digits ++ rest)).
    cbv iota beta.
    change (Ascii.eqb "+" "-") with false. change (Ascii.eqb "+" "+") with true.
    cbv iota beta.
    rewrite read_digits_prefix by assumption. reflexivity.
  - change (JS.trimStart ("-" ++ String c digits ++ rest))
      with (String "-" (String c digits ++ rest)).
    cbv iota beta.
    change (Ascii.eqb "-" "-") with true.
    cbv iota beta.
    rewrite read_digits_prefix by assumption. reflexivity.
Qed.

Lemma trimStart_no_digit (s : string) :
  all_chars (fun c => negb (JS.is_digit c)) s = true ->
  all_chars (fun c => negb (JS.is_digit c)) (JS.trimStart s) = true.
Proof.
  induction s as [|c s IH]; simpl; [reflexivity|].
  intros H. destruct (JS.is_whitespace c).
  - apply andb_prop in H as [_ H]. auto.
  - exact H.
Qed.

(** A string without a decimal digit is not a number for [parseInt]. *)
Lemma parseInt10_no_digit (s : string) :
  all_chars (fun c => negb (JS.is_digit c)) s = true -> JS.parseInt10 s = None.
Proof.
  intros H. apply trimStart_no_digit in H. unfold JS.parseInt10.
  destruct (JS.trimStart s) as [|c rest]; [reflexivity|].
  simpl in H. apply andb_prop in H as [Hc Hrest].
  assert (Hnone : forall t, all_chars (fun c => negb (JS.is_digit c)) t = true ->
                            JS.read_digits 0 0 t = (0, O)).
  { intros [|x t] Ht; [reflexivity|]. simpl in *.
    apply andb_prop in Ht as [Hx _]. apply negb_true_iff in Hx. now rewrite Hx. }
  destruct (Ascii.eqb c "-"); [now rewrite (Hnone rest)|].
  destruct (Ascii.eqb c "+"); [now rewrite (Hnone rest)|].
  rewrite (Hnone (String c rest)); [reflexivity|].
  simpl. now rewrite Hc, Hrest.
Qed.

(** C3 (the code departs from the claim).  "12abc" is not a numeric
    string, yet the handler accepts it as a reminder of 12 minutes and
    renders the calendar with that alarm, where the claim, the message of
    the handler ("Must be an integer between 0 and 1440") and the test
    "rejects non-numeric reminder" of the suite have a non-numeric
    reminder rejected; the non-numeric "abc" of that test is rejected
    with status 400. *)
Theorem C3_non_numeric_reminder_accepted :
  numeric_string "12abc" = false
  /\ reminder_stage (Some "12abc") = inr 12
  /\ option_map status
       (onRequest (mock_context
          "https://example.com/api/calendar?teams=Fnatic&reminder=12abc"
          [("teams", "Fnatic"); ("reminder", "12abc")])) = Some 200
  /\ JS.includes
       (body_text (onRequest (mock_context
          "https://example.com/api/calendar?teams=Fnatic&reminder=12abc"
          [("teams", "Fnatic"); ("reminder", "12abc")])))
       "TRIGGER:-PT12M" = true
  /\ numeric_string "abc" = false
  /\ onRequest (mock_context
          "https://example.com/api/calendar?teams=Fnatic&reminder=abc"
          [("teams", "Fnatic"); ("reminder", "abc")]) = Some invalid_reminder_response
  /\ status invalid_reminder_response = 400.
Proof. repeat split; vm_compute; reflexivity. Qed.

(** X25.  For a GET request with a reminder parameter of ASCII text, the
    handler goes by [parseInt]: when the parameter has no leading integer
    or the integer is outside 0..1440, the response is the 400 response
    of the reminder check, whatever the teams and the stored data, with
    nothing loaded or rendered; otherwise the request goes on with the
    parsed integer itself as the reminder.  "0" and "1440" parse to 0
    and 1440, "-1" and "1441" to -1 and 1441, "abc" to nothing; a string
    without any digit parses to nothing; and a string that starts, after
    white space and a sign, with digits parses to their value, whatever
    follows them. *)
Theorem X25_reminder_goes_by_parseInt (context : Context) (reminderParam : string) :
  method (request context) = "GET" ->
  searchParams_get "reminder" (searchParams (request_url (request context)))
    = Some reminderParam ->
  ascii_text reminderParam = true ->
  match JS.parseInt10 reminderParam with
  | Some n =>
      if (0 <=? n) && (n <=? 1440)
      then onRequest context =
           teams_stage context (request_url (request context))
             (JS.or_default
                (searchParams_get "teams" (searchParams (request_url (request context)))) "")
             (JS.or_default
                (searchParams_get "format" (searchParams (request_url (request context))))
                "ics")
             (JS.or_default
                (searchParams_get "tournament"
                   (searchParams (request_url (request context)))) "")
             n
      else onRequest context = Some invalid_reminder_response
  | None => onRequest context = Some invalid_reminder_response
  end
  /\ status invalid_reminder_response = 400
  /\ JS.parseInt10 "0" = Some 0 /\ JS.parseInt10 "1440" = Some 1440
  /\ JS.parseInt10 "-1" = Some (-1) /\ JS.parseInt10 "1441" = Some 1441
  /\ JS.parseInt10 "abc" = None
  /\ (forall s, all_chars (fun c => negb (JS.is_digit c)) s = true ->
                JS.parseInt10 s = None)
  /\ (forall ws sign digits rest,
        all_chars JS.is_whitespace ws = true ->
        sign = "" \/ sign = "+" \/ sign = "-" ->
        all_digits digits = true ->
        starts_with_digit rest = false ->
        JS.parseInt10 (ws ++ sign ++ digits ++ rest) =
        Some ((if String.eqb sign "-" then -1 else 1) * decimal_value digits)).
Proof.
  intros Hm Hr _.
  split; [|repeat split; try reflexivity;
           [apply parseInt10_no_digit | apply parseInt10_leading_integer]].
  unfold onRequest, reminder_stage. rewrite Hm, Hr. cbn [String.eqb Ascii.eqb Bool.eqb negb].
  destruct (JS.parseInt10 reminderParam) as [n|]; [|reflexivity].
  destruct (Z.leb_spec 0 n), (Z.leb_spec n 1440); cbn [andb];
    destruct (Z.ltb_spec n 0), (Z.ltb_spec 1440 n); cbn [orb];
    try lia; reflexivity.
Qed.

Lemma X25_reminder_goes_by_parseInt_witness :
  method (request (mock_context
     "https://example.com/api/calendar?teams=Fnatic&reminder=1441"
     [("teams", "Fnatic"); ("reminder", "1441")])) = "GET"
  /\ onRequest (mock_context
     "https://example.com/api/calendar?teams=Fnatic&reminder=1441"
     [("teams", "Fnatic"); ("reminder", "1441")]) = Some invalid_reminder_response.
Proof.
  split; [reflexivity|].
  exact (proj1 (X25_reminder_goes_by_parseInt
    (mock_context "https://example.com/api/calendar?teams=Fnatic&reminder=1441"
       [("teams", "Fnatic"); ("reminder", "1441")])
    "1441" eq_refl eq_refl eq_refl)).
Defined.

(** ** The tournament filter *)

Lemma prefix_iff (a b : string) :
  String.prefix a b = true <-> exists post, b = a ++ post.
Proof.
  revert b. induction a as [|x a IH]; intros [|y b]; simpl.
  - split; [intros _; now exists "" | reflexivity].
  - split; [intros _; now exists (String y b) | reflexivity].
  - split; [discriminate | intros [post H]; discriminate].
  - destruct (ascii_dec x y) as [->|Hne].
    + rewrite IH. split; intros [post H]; exists post; congruence.
    + split; [discriminate | intros [post H]; congruence].
Qed.



Lemma lowercased_lower_char (c : ascii) : lowercased c = JS.lower_char c.
Proof. destruct c as [[] [] [] [] [] [] [] []]; vm_compute; reflexivity. Qed.

Lemma toLowerCase_lowercase_text (s : string) : JS.toLowerCase s = lowercase_text s.
Proof.
  induction s as [|c s IH]; [reflexivity|].
  cbn [JS.toLowerCase lowercase_text]. now rewrite IH, lowercased_lower_char.
Qed.



Lemma narrowed_to_In {A : Type} (P : A -> Prop) (all kept : list A) (x : A) :
  narrowed_to P all kept -> (In x kept <-> In x all /\ P x).
Proof.
  induction 1 as [|y all kept Hy _ IH|y all kept Hy _ IH]; simpl.
  - tauto.
  - rewrite IH. split; [intros [->|[? ?]]; auto | tauto].
  - rewrite IH. split; [tauto|]. intros [[->|?] ?]; tauto.
Qed.





(** ** Array.prototype.sort with a comparator that follows a key *)

Section SortByKey.
Context {A : Type}.
Variable comparefn : A -> A -> option Z.
Variable key : A -> Z.
Variable good : A -> Prop.

(** On the elements to sort, the comparator is at most 0 exactly when the
    first argument has the larger or an equal key: a descending order. *)
Hypothesis comparefn_descending :
  forall x y, good x -> good y ->
    (JS.SortCompare comparefn x y <=? 0) = (key y <=? key x).

Lemma sort_insert_permutation (x : A) (l : list A) :
  Permutation (x :: l) (JS.sort_insert comparefn x l).
Proof.
  induction l as [|y l IH]; simpl; [reflexivity|].
  destruct (JS.SortCompare comparefn x y <=? 0); [reflexivity|].
  rewrite perm_swap. now constructor.
Qed.

Lemma Array_sort_permutation (l : list A) :
  Permutation l (JS.Array_sort comparefn l).
Proof.
  induction l as [|x l IH]; simpl; [reflexivity|].
  rewrite <- sort_insert_permutation. now constructor.
Qed.

Lemma sort_insert_sorted (x : A) (l : list A) :
  good x -> Forall good l ->
  StronglySorted (key_descending key) l ->
  StronglySorted (key_descending key) (JS.sort_insert comparefn x l).
Proof.
  intros Hx Hl Hs. induction Hs as [|y l Hs IH Hy]; simpl.
  - repeat constructor.
  - inversion Hl as [|? ? Hgy Hgl]; subst.
    rewrite (comparefn_descending x y Hx Hgy).
    destruct (Z.leb_spec (key y) (key x)) as [Hle|Hgt].
    + constructor; [now constructor|].
      constructor; [exact Hle|].
      eapply Forall_impl; [|exact Hy]. unfold key_descending. intros z Hz. lia.
    + constructor; [now apply IH|].
      eapply Permutation_Forall; [apply sort_insert_permutation|].
      constructor; [unfold key_descending; lia | exact Hy].
Qed.

Lemma Array_sort_sorted (l : list A) :
  Forall good l -> StronglySorted (key_descending key) (JS.Array_sort comparefn l).
Proof.
  induction l as [|x l IH]; intros Hl; simpl; [constructor|].
  inversion Hl as [|? ? Hx Hl']; subst.
  apply sort_insert_sorted; auto.
  eapply Permutation_Forall; [apply Array_sort_permutation | exact Hl'].
Qed.

End SortByKey.

Lemma StronglySorted_impl_on {A : Type} (R R' : A -> A -> Prop) (good : A -> Prop)
    (l : list A) :
  (forall x y, good x -> good y -> R x y -> R' x y) ->
  Forall good l -> StronglySorted R l -> StronglySorted R' l.
Proof.
  intros HR Hl Hs. induction Hs as [|x l Hs IH Hx]; [constructor|].
  inversion Hl as [|? ? Hgx Hgl]; subst.
  constructor; [now apply IH|].
  rewrite Forall_forall in *. intros y Hy. apply HR; auto.
Qed.

(** ** Dates: [toISOString] and reading it back *)

Lemma digit_char_facts (d : Z) :
  0 <= d <= 9 ->
  JS.is_digit (JS.digit_char d) = true /\
  JS.digit_value (JS.digit_char d) = d /\
  Ascii.eqb (JS.digit_char d) "+" = false /\
  Ascii.eqb (JS.digit_char d) "-" = false.
Proof.
  intros H.
  assert (d = 0 \/ d = 1 \/ d = 2 \/ d = 3 \/ d = 4 \/
          d = 5 \/ d = 6 \/ d = 7 \/ d = 8 \/ d = 9) as Hd by lia.
  repeat destruct Hd as [Hd|Hd]; subst d; vm_compute; auto.
Qed.

Lemma parse_fixed_digits (n : nat) (v acc : Z) (rest : string) :
  0 <= v < 10 ^ Z.of_nat n ->
  JS.parse_digits n acc (JS.fixed_digits n v ++ rest) =
  Some (acc * 10 ^ Z.of_nat n + v, rest).
Proof.
  revert v acc. induction n as [|n IH]; intros v acc Hv.
  - cbn [JS.parse_digits JS.fixed_digits String.append].
    change (10 ^ Z.of_nat 0) with 1 in *. f_equal. f_equal. lia.
  - rewrite Nat2Z.inj_succ, Z.pow_succ_r in * by lia.
    cbn [JS.parse_digits JS.fixed_digits String.append].
    set (p := 10 ^ Z.of_nat n) in *.
    assert (Hp : 0 < p) by (apply Z.pow_pos_nonneg; lia).
    assert (Hd : 0 <= v / p <= 9).
    { split; [apply Z.div_pos; lia|].
      assert (v / p < 10); [|lia].
      apply Z.div_lt_upper_bound; lia. }
    destruct (digit_char_facts _ Hd) as (Hdig & Hval & _ & _).
    rewrite Hdig, Hval, IH by (apply Z.mod_pos_bound; lia).
    f_equal. f_equal. pose proof (Z.div_mod v p). nia.
Qed.

Lemma time_within_day (t : Z) :
  JS.MakeDate (JS.Day t)
    (JS.MakeTime (JS.HourFromTime t) (JS.MinFromTime t)
                 (JS.SecFromTime t) (JS.msFromTime t)) = t.
Proof.
  unfold JS.MakeDate, JS.MakeTime, JS.Day, JS.HourFromTime, JS.MinFromTime,
    JS.SecFromTime, JS.msFromTime, JS.msPerDay.
  assert (E1 : t / 60000 = t / 1000 / 60) by (now rewrite Z.div_div by lia).
  assert (E2 : t / 3600000 = t / 60000 / 60) by (now rewrite Z.div_div by lia).
  assert (E3 : t / 86400000 = t / 3600000 / 24) by (now rewrite Z.div_div by lia).
  pose proof (Z.div_mod t 1000 ltac:(lia)) as H0.
  pose proof (Z.div_mod (t / 1000) 60 ltac:(lia)) as H1.
  pose proof (Z.div_mod (t / 60000) 60 ltac:(lia)) as H2.
  pose proof (Z.div_mod (t / 3600000) 24 ltac:(lia)) as H3.
  rewrite <- E1 in H1. rewrite <- E2 in H2. rewrite <- E3 in H3.
  lia.
Qed.

Lemma time_fields_range (t : Z) :
  0 <= JS.HourFromTime t <= 23 /\ 0 <= JS.MinFromTime t <= 59 /\
  0 <= JS.SecFromTime t <= 59 /\ 0 <= JS.msFromTime t <= 999.
Proof.
  unfold JS.HourFromTime, JS.MinFromTime, JS.SecFromTime, JS.msFromTime.
  pose proof (Z.mod_pos_bound (t / 3600000) 24).
  pose proof (Z.mod_pos_bound (t / 60000) 60).
  pose proof (Z.mod_pos_bound (t / 1000) 60).
  pose proof (Z.mod_pos_bound t 1000).
  lia.
Qed.

Lemma check_range_spec (f : Z -> bool) (n : nat) (start z : Z) :
  check_range f start n = true -> start <= z < start + Z.of_nat n -> f z = true.
Proof.
  revert start. induction n as [|n IH]; intros start Hc Hz; [lia|].
  cbn [check_range] in Hc. apply andb_prop in Hc as [Hs Hc].
  destruct (Z.eq_dec z start) as [->|Hne]; [exact Hs|].
  apply (IH (start + 1)); [exact Hc | lia].
Qed.

Lemma era_check_all (doe : Z) : 0 <= doe < 146097 -> era_check doe = true.
Proof.
  intros H.
  apply (check_range_spec era_check (Z.to_nat 146097) 0).
  - vm_compute. reflexivity.
  - rewrite Z2Nat.id; lia.
Qed.

Lemma is_leap_period (y k : Z) : JS.is_leap (y + k * 400) = JS.is_leap y.
Proof.
  unfold JS.is_leap.
  replace (y + k * 400) with (y + (k * 100) * 4) at 1 by lia.
  replace (y + k * 400) with (y + (k * 4) * 100) at 1 by lia.
  now rewrite !Z.mod_add by lia.
Qed.

Lemma DaysInMonth_period (y k m : Z) :
  JS.DaysInMonth (y + k * 400) m = JS.DaysInMonth y m.
Proof. unfold JS.DaysInMonth. now rewrite is_leap_period. Qed.

(** Every day number names a date of the calendar, and that date names
    the day number. *)
Lemma civil_from_days_roundtrip (days : Z) :
  let '(y, m, d) := JS.civil_from_days days in
  JS.days_from_civil y m d = days /\
  1 <= m <= 12 /\ 1 <= d <= JS.DaysInMonth y m /\
  (days + 719468) / 146097 * 400 <= y <= (days + 719468) / 146097 * 400 + 400.
Proof.
  unfold JS.civil_from_days.
  set (z := days + 719468). set (era := z / 146097).
  set (doe := z - era * 146097).
  assert (Hdoe : 0 <= doe < 146097).
  { subst doe era. pose proof (Z.div_mod z 146097 ltac:(lia)).
    pose proof (Z.mod_pos_bound z 146097 ltac:(lia)). lia. }
  pose proof (era_check_all doe Hdoe) as Hc. unfold era_check in Hc.
  destruct (JS.civil_of_doe doe) as [[yoe m] d].
  repeat (apply andb_prop in Hc as [Hc ?]).
  repeat match goal with
         | H : (_ <=? _) = true |- _ => apply Z.leb_le in H
         | H : (_ =? _) = true |- _ => apply Z.eqb_eq in H
         end.
  assert (Hera : forall c, c = 0 \/ c = 1 ->
            (if m <=? 2 then yoe + era * 400 + c - c else yoe + era * 400 + c - c) / 400
            = era).
  { intros c _. replace (if m <=? 2 then _ else _) with (yoe + era * 400)
      by (destruct (m <=? 2); lia).
    rewrite Z.div_add by lia. rewrite Z.div_small by lia. lia. }
  split; [|split; [lia|split]].
  - unfold JS.days_from_civil.
    destruct (Z.leb_spec m 2).
    + replace (yoe + era * 400 + 1 - 1) with (yoe + era * 400) by lia.
      rewrite Z.div_add, Z.div_small by lia.
      replace (yoe + era * 400 - (0 + era) * 400) with yoe by lia. lia.
    + replace (yoe + era * 400 + 0) with (yoe + era * 400) by lia.
      rewrite Z.div_add, Z.div_small by lia.
      replace (yoe + era * 400 - (0 + era) * 400) with yoe by lia. lia.
  - replace (yoe + era * 400 + (if m <=? 2 then 1 else 0))
      with (yoe + (if m <=? 2 then 1 else 0) + era * 400) by lia.
    rewrite DaysInMonth_period. lia.
  - destruct (m <=? 2); lia.
Qed.

Lemma parse_fixed_digits0 (n : nat) (v : Z) (rest : string) :
  0 <= v < 10 ^ Z.of_nat n ->
  JS.parse_digits n 0 (JS.fixed_digits n v ++ rest) = Some (v, rest).
Proof. intros H. now rewrite parse_fixed_digits by exact H. Qed.

Lemma expect_same (c : ascii) (s : string) : JS.expect c (String c s) = Some s.
Proof. unfold JS.expect. now rewrite Ascii.eqb_refl. Qed.

Lemma parse_year_iso_year (y : Z) (rest : string) :
  -999999 <= y <= 999999 ->
  exists sign a,
    JS.parse_year (JS.iso_year y ++ rest) = Some (sign, a, rest) /\
    sign * a = y /\ (sign =? -1) && (a =? 0) = false.
Proof.
  intros Hy. unfold JS.iso_year.
  destruct (Z.leb_spec 0 y) as [H0|H0]; cbn [andb].
  - destruct (Z.leb_spec y 9999) as [H1|H1].
    + exists 1, y. split; [|split; [lia | reflexivity]].
      assert (Hd : 0 <= y / 10 ^ Z.of_nat 3 <= 9).
      { change (10 ^ Z.of_nat 3) with 1000.
        pose proof (Z.div_mod y 1000 ltac:(lia)).
        pose proof (Z.mod_pos_bound y 1000 ltac:(lia)). lia. }
      destruct (digit_char_facts _ Hd) as (_ & _ & Hplus & Hminus).
      unfold JS.parse_year.
      assert (E : exists tl, JS.fixed_digits 4 y =
                             String (JS.digit_char (y / 10 ^ Z.of_nat 3)) tl)
        by (eexists; reflexivity).
      destruct E as [tl E]. rewrite E. cbn [String.append].
      rewrite Hplus, Hminus.
      change (String ?c (tl ++ rest)) with (String c tl ++ rest).
      rewrite <- E. rewrite parse_fixed_digits0; [reflexivity|].
      change (10 ^ Z.of_nat 4) with 10000. lia.
    + destruct (Z.ltb_spec y 0) as [H2|H2]; [lia|].
      exists 1, y. split; [|split; [lia | reflexivity]].
      unfold JS.parse_year. cbn [String.append].
      change (Ascii.eqb "+" "+") with true. cbv iota beta.
      rewrite parse_fixed_digits0; [reflexivity|].
      change (10 ^ Z.of_nat 6) with 1000000. lia.
  - destruct (Z.ltb_spec y 0) as [H2|H2]; [|lia].
    exists (-1), (- y). split; [|split; [lia|]].
    + unfold JS.parse_year. cbn [String.append].
      change (Ascii.eqb "-" "+") with false. change (Ascii.eqb "-" "-") with true.
      cbv iota beta.
      rewrite parse_fixed_digits0; [reflexivity|].
      change (10 ^ Z.of_nat 6) with 1000000. lia.
    + destruct (Z.eqb_spec (- y) 0); [lia|]. now rewrite andb_false_r.
Qed.

Lemma parse_after_year_fields (mo d h mi sec ms : Z) :
  0 <= mo < 100 -> 0 <= d < 100 -> 0 <= h < 100 -> 0 <= mi < 100 ->
  0 <= sec < 100 -> 0 <= ms < 1000 ->
  JS.parse_after_year
    ("-" ++ JS.fixed_digits 2 mo ++ "-" ++ JS.fixed_digits 2 d ++ "T" ++
     JS.fixed_digits 2 h ++ ":" ++ JS.fixed_digits 2 mi ++ ":" ++
     JS.fixed_digits 2 sec ++ "." ++ JS.fixed_digits 3 ms ++ "Z") =
  Some (mo, d, h, mi, sec, ms).
Proof.
  intros Hmo Hd Hh Hmi Hsec Hms. unfold JS.parse_after_year.
  change (10 ^ Z.of_nat 2) with 100 in *.
  repeat match goal with
         | |- context [JS.expect ?c (String ?c ?s)] => rewrite (expect_same c s)
         | |- context [(String ?c EmptyString ++ ?s)%string] =>
             change (String c EmptyString ++ s)%string with (String c s)
         | |- context [JS.parse_digits 2 0 (JS.fixed_digits 2 ?v ++ ?r)] =>
             rewrite (parse_fixed_digits0 2 v r) by (change (10 ^ Z.of_nat 2) with 100; lia)
         | |- context [JS.parse_digits 3 0 (JS.fixed_digits 3 ?v ++ ?r)] =>
             rewrite (parse_fixed_digits0 3 v r) by (change (10 ^ Z.of_nat 3) with 1000; lia)
         end.
  reflexivity.
Qed.

(** The text [toISOString] prints for a time value in the range of a
    date reads back as that time value. *)
Lemma Date_parse_toISOString (t : Z) :
  Z.abs t <= JS.maxTime ->
  exists s, JS.toISOString (Some t) = Some s /\ JS.Date_parse s = Some t.
Proof.
  intros Ht. unfold JS.maxTime in Ht.
  eexists. split; [reflexivity|].
  pose proof (civil_from_days_roundtrip (JS.Day t)) as Hc.
  unfold JS.YearFromTime, JS.MonthFromTime, JS.DateFromTime.
  destruct (JS.civil_from_days (JS.Day t)) as [[y m] d]. cbn [fst snd].
  destruct Hc as (Hdays & Hm & Hd & Hy).
  assert (Hday : -100000000 <= JS.Day t <= 100000000).
  { unfold JS.Day, JS.msPerDay.
    pose proof (Z.div_mod t 86400000 ltac:(lia)).
    pose proof (Z.mod_pos_bound t 86400000 ltac:(lia)). lia. }
  assert (Hyr : -999999 <= y <= 999999).
  { pose proof (Z.div_mod (JS.Day t + 719468) 146097 ltac:(lia)).
    pose proof (Z.mod_pos_bound (JS.Day t + 719468) 146097 ltac:(lia)). lia. }
  assert (Hdim : JS.DaysInMonth y m <= 31).
  { unfold JS.DaysInMonth.
    destruct (m =? 2); [destruct (JS.is_leap y); lia|].
    destruct ((m =? 4) || (m =? 6) || (m =? 9) || (m =? 11)); lia. }
  destruct (time_fields_range t) as (Hh & Hmi & Hsec & Hms).
  unfold JS.Date_parse.
  destruct (parse_year_iso_year y
    ("-" ++ JS.fixed_digits 2 (m - 1 + 1) ++ "-" ++ JS.fixed_digits 2 d ++ "T" ++
     JS.fixed_digits 2 (JS.HourFromTime t) ++ ":" ++
     JS.fixed_digits 2 (JS.MinFromTime t) ++ ":" ++
     JS.fixed_digits 2 (JS.SecFromTime t) ++ "." ++
     JS.fixed_digits 3 (JS.msFromTime t) ++ "Z") Hyr)
    as (sign & a & Hp & Hsa & Hz).
  rewrite Hp. rewrite parse_after_year_fields by lia.
  rewrite Hz, Hsa. cbn [negb andb].
  replace (m - 1 + 1) with m by lia.
  repeat match goal with
         | |- context [?a <=? ?b] =>
             destruct (Z.leb_spec a b); [|lia]
         end.
  cbn [andb orb].
  rewrite Hdays, time_within_day.
  unfold JS.TimeClip, JS.maxTime.
  destruct (Z.leb_spec (Z.abs t) 8640000000000000); [reflexivity | lia].
Qed.

(** The day number of a date is the one ECMAScript defines: the day of
    1 January, the days of the months before, the day of the month. *)
Lemma days_from_civil_ecma (y m d : Z) :
  1 <= m <= 12 ->
  JS.days_from_civil y m d =
  DayFromYear y + days_before_month (JS.is_leap y) m + d - 1.
Proof.
  intros Hm. unfold JS.days_from_civil, JS.doe_of_civil, DayFromYear,
    days_before_month, JS.is_leap.
  assert (m = 1 \/ m = 2 \/ m = 3 \/ m = 4 \/ m = 5 \/ m = 6 \/ m = 7 \/
          m = 8 \/ m = 9 \/ m = 10 \/ m = 11 \/ m = 12) as Hcases by lia.
  repeat destruct Hcases as [Hcases|Hcases]; subst m; cbn -[Z.div Z.modulo Z.mul Z.add Z.sub];
    repeat match goal with
           | |- context [?a =? ?b] => destruct (Z.eqb_spec a b)
           end; cbn [andb orb negb];
    Z.div_mod_to_equations; lia.
Qed.

(** ** The loops of the feed renderers *)

Lemma traverse_app {A B : Type} (f : A -> option B) (l1 l2 : list A) :
  traverse f (l1 ++ l2)%list =
  match traverse f l1, traverse f l2 with
  | Some a, Some b => Some (a ++ b)%list
  | _, _ => None
  end.
Proof.
  induction l1 as [|x l1 IH]; simpl.
  - destruct (traverse f l2); reflexivity.
  - rewrite IH. destruct (f x), (traverse f l1), (traverse f l2); reflexivity.
Qed.

Lemma traverse_map {A B C : Type} (g : A -> B) (f : B -> option C) (l : list A) :
  traverse f (map g l) = traverse (fun x => f (g x)) l.
Proof. induction l as [|x l IH]; simpl; [reflexivity | now rewrite IH]. Qed.

Lemma traverse_Some {A B : Type} (f : A -> option B) (l : list A) (ys : list B) :
  traverse f l = Some ys -> Forall2 (fun x y => f x = Some y) l ys.
Proof.
  revert ys. induction l as [|x l IH]; simpl; intros ys H.
  - injection H as <-. constructor.
  - destruct (f x) eqn:Ex; [|discriminate].
    destruct (traverse f l); [|discriminate].
    injection H as <-. constructor; auto.
Qed.

Lemma traverse_None {A B : Type} (f : A -> option B) (l : list A) :
  traverse f l = None -> Exists (fun x => f x = None) l.
Proof.
  induction l as [|x l IH]; simpl; [discriminate|].
  destruct (f x) eqn:Ex; [|now constructor].
  destruct (traverse f l); [discriminate|]. intros _. apply Exists_cons_tl. auto.
Qed.

(** A loop that pushes the result of [f], or throws with it. *)
Lemma for_of_push {A B : Type} (f : A -> option B) (l : list A) (init : list B) :
  JS.for_of
    (fun acc x => match f x with
                  | Some y => Some (JS.push acc [y])
                  | None => None
                  end) l init =
  option_map (app init) (traverse f l).
Proof.
  revert init. induction l as [|x l IH]; intros init; simpl.
  - now rewrite app_nil_r.
  - destruct (f x); [|reflexivity]. rewrite IH. unfold JS.push.
    destruct (traverse f l); simpl; [|reflexivity].
    now rewrite <- app_assoc.
Qed.

Lemma for_of_teams {B : Type} (f : TeamInfo * MatchData -> option B)
    (teams : list TeamData) (init : list B) :
  JS.for_of
    (fun acc teamData =>
       JS.for_of
         (fun acc match_ =>
            match f (team teamData, match_) with
            | Some y => Some (JS.push acc [y])
            | None => None
            end)
         (matches teamData) acc)
    teams init =
  option_map (app init) (traverse f (all_matches teams)).
Proof.
  revert init. induction teams as [|teamData teams IH]; intros init.
  - simpl. now rewrite app_nil_r.
  - cbn [JS.for_of all_matches flat_map].
    rewrite (for_of_push (fun m => f (team teamData, m))).
    rewrite traverse_app, traverse_map.
    destruct (traverse (fun m => f (team teamData, m)) (matches teamData));
      [|reflexivity].
    cbn [option_map]. rewrite IH. fold (all_matches teams).
    destruct (traverse f (all_matches teams)); simpl; [|reflexivity].
    now rewrite app_assoc.
Qed.

Lemma fold_left_teams {B : Type} (g : TeamInfo * MatchData -> list B)
    (teams : list TeamData) (init : list B) :
  fold_left
    (fun acc teamData =>
       fold_left
         (fun acc match_ => JS.push acc (g (team teamData, match_)))
         (matches teamData) acc)
    teams init =
  (init ++ flat_map g (all_matches teams))%list.
Proof.
  revert init. induction teams as [|teamData teams IH]; intros init.
  - simpl. now rewrite app_nil_r.
  - cbn [fold_left all_matches flat_map]. rewrite IH. fold (all_matches teams).
    rewrite flat_map_app, app_assoc. f_equal.
    generalize (matches teamData) init. clear.
    intros ms. induction ms as [|m ms IH]; intros init; simpl.
    + now rewrite app_nil_r.
    + rewrite IH. unfold JS.push. now rewrite <- app_assoc.
Qed.

Lemma flat_map_singleton {A : Type} (l : list A) : flat_map (fun x => [x]) l = l.
Proof. induction l as [|x l IH]; simpl; congruence. Qed.

(** [generateICS] joins the seven lines of the head, the lines
    [generateVEvent] gives for every match of every team, in order, and
    the closing line. *)
Lemma generateICS_events (teams : list TeamData) (reminderMinutes : Z) :
  generateICS teams reminderMinutes =
  JS.join JS.CRLF
    (app [ "BEGIN:VCALENDAR";
           "VERSION:2.0";
           "PRODID:-//Esports Calendar//" ++
             JS.join ", " (map (fun t => name (team t)) teams) ++ "//";
           "CALSCALE:GREGORIAN";
           "METHOD:PUBLISH";
           "X-WR-CALNAME:" ++
             JS.join ", " (map (fun t => name (team t)) teams) ++ " Matches";
           "X-PUBLISHED-TTL:PT4H" ]
       (app (flat_map (fun p => generateVEvent (fst p) (snd p) reminderMinutes)
               (all_matches teams))
            [ "END:VCALENDAR" ]))
  ++ JS.CRLF.
Proof.
  unfold generateICS.
  rewrite (fold_left_teams (fun p => generateVEvent (fst p) (snd p) reminderMinutes)).
  unfold JS.push. now rewrite <- app_assoc.
Qed.

Lemma for_of_ext {A S : Type} (f g : S -> A -> option S) (l : list A) (s : S) :
  (forall acc x, f acc x = g acc x) -> JS.for_of f l s = JS.for_of g l s.
Proof.
  intros H. revert s. induction l as [|x l IH]; intros s; simpl; [reflexivity|].
  rewrite H. destruct (g s x); auto.
Qed.

(** A loop that appends the text [f] gives, or throws with it. *)
Lemma for_of_append {A : Type} (f : A -> option string) (l : list A) (init : string) :
  JS.for_of
    (fun acc x => match f x with
                  | Some y => Some (acc ++ y)
                  | None => None
                  end) l init =
  option_map (fun ys => init ++ JS.join "" ys) (traverse f l).
Proof.
  revert init. induction l as [|x l IH]; intros init; simpl.
  - now rewrite append_nil_r.
  - destruct (f x) as [y|]; [|reflexivity]. rewrite IH.
    destruct (traverse f l) as [ys|]; simpl; [|reflexivity].
    f_equal. rewrite append_assoc. f_equal.
    destruct ys; simpl; [now rewrite append_nil_r | reflexivity].
Qed.

(** ** The order of the feeds *)

Lemma feed_item_published (team : TeamInfo) (match_ : MatchData) (item : FeedItem) :
  feed_item team match_ = Some item ->
  published_time item = Some (timestamp match_ * 1000).
Proof.
  unfold feed_item, JS.Date_of_number, JS.TimeClip.
  destruct (Z.leb_spec (Z.abs (timestamp match_ * 1000)) JS.maxTime) as [Hr|Hr];
    [|discriminate].
  destruct (Date_parse_toISOString _ Hr) as (s & Hs & Hp).
  rewrite Hs. intros H. injection H as <-.
  unfold published_time, JS.getTime. cbn [date_published]. exact Hp.
Qed.

Lemma feed_item_None (team : TeamInfo) (match_ : MatchData) :
  feed_item team match_ = None -> out_of_range (team, match_).
Proof.
  unfold feed_item, out_of_range. cbn [snd].
  destruct (JS.Date_of_number (timestamp match_ * 1000)); [discriminate|reflexivity].
Qed.

Lemma atom_entry_None (team : TeamInfo) (match_ : MatchData) :
  atom_entry team match_ = None -> out_of_range (team, match_).
Proof.
  unfold atom_entry, out_of_range. cbn [snd].
  destruct (JS.Date_of_number (timestamp match_ * 1000)); [discriminate|reflexivity].
Qed.

Lemma feed_items_published
    (pairs : list (TeamInfo * MatchData)) (unsorted : list FeedItem) :
  Forall2 (fun p item => feed_item (fst p) (snd p) = Some item) pairs unsorted ->
  map published_time unsorted =
    map (fun p => Some (timestamp (snd p) * 1000)) pairs
  /\ Forall (fun item => published_time item <> None) unsorted.
Proof.
  induction 1 as [|p item ps its Hp _ [IH1 IH2]]; [split; constructor|].
  apply feed_item_published in Hp. split.
  - cbn [map]. now rewrite IH1, Hp.
  - constructor; [congruence | exact IH2].
Qed.

Lemma generateJSONFeed_items (teams : list TeamData) (requestUrl : URL) :
  option_map items (generateJSONFeed teams requestUrl) =
  option_map (JS.Array_sort items_comparefn)
    (traverse (fun p => feed_item (fst p) (snd p)) (all_matches teams)).
Proof.
  unfold generateJSONFeed.
  rewrite (for_of_teams (fun p => feed_item (fst p) (snd p))).
  destruct (traverse _ (all_matches teams)); reflexivity.
Qed.

Lemma items_comparefn_descending (x y : FeedItem) :
  published_time x <> None -> published_time y <> None ->
  (JS.SortCompare items_comparefn x y <=? 0) = (published_key y <=? published_key x).
Proof.
  unfold JS.SortCompare, items_comparefn, published_key, published_time, JS.getTime.
  destruct (JS.Date_parse (date_published x)) as [tx|]; [|congruence].
  destruct (JS.Date_parse (date_published y)) as [ty|]; [|congruence].
  intros _ _. cbn [JS.Number_sub].
  destruct (Z.leb_spec (ty - tx) 0), (Z.leb_spec ty tx); lia || reflexivity.
Qed.

Lemma allMatches_comparefn_descending (x y : TeamInfo * MatchData) :
  True -> True ->
  (JS.SortCompare allMatches_comparefn x y <=? 0) = (match_time y <=? match_time x).
Proof.
  intros _ _. unfold JS.SortCompare, allMatches_comparefn, match_time.
  destruct (Z.leb_spec (timestamp (snd y) - timestamp (snd x)) 0),
           (Z.leb_spec (timestamp (snd y)) (timestamp (snd x))); lia || reflexivity.
Qed.

Lemma atom_allMatches_sorted (teams : list TeamData) :
  atom_allMatches teams = JS.Array_sort allMatches_comparefn (all_matches teams) /\
  Permutation (all_matches teams) (atom_allMatches teams) /\
  StronglySorted (key_descending match_time) (atom_allMatches teams).
Proof.
  unfold atom_allMatches.
  rewrite (fold_left_teams (fun p => [p])), flat_map_singleton. cbn [app].
  split; [reflexivity|]. split.
  - apply Array_sort_permutation.
  - apply (Array_sort_sorted allMatches_comparefn match_time (fun _ => True)
             allMatches_comparefn_descending).
    apply Forall_forall. auto.
Qed.

(** [generateAtomFeed] writes the head, the entries of the sorted
    matches and the closing tag, unless a date cannot be printed. *)
Lemma generateAtomFeed_entries (teams : list TeamData) (requestUrl : URL) (now_ms : Z) :
  generateAtomFeed teams requestUrl now_ms =
  match JS.toISOString (JS.Date_of_number now_ms),
        traverse (fun p => atom_entry (fst p) (snd p)) (atom_allMatches teams) with
  | Some now, Some entries =>
      Some (atom_head teams requestUrl now ++ JS.join "" entries ++ "</feed>" ++ JS.LF)
  | _, _ => None
  end.
Proof.
  unfold generateAtomFeed.
  destruct (JS.toISOString (JS.Date_of_number now_ms)) as [now|]; [|reflexivity].
  rewrite (for_of_ext _
             (fun acc p => match atom_entry (fst p) (snd p) with
                           | Some y => Some (acc ++ y)
                           | None => None
                           end))
    by (intros acc [t m]; reflexivity).
  rewrite (for_of_append (fun p => atom_entry (fst p) (snd p))).
  destruct (traverse _ (atom_allMatches teams)) as [entries|]; cbn [option_map];
    [|reflexivity].
  f_equal. unfold atom_head, q, JS.LF.
  repeat (progress (rewrite ?append_assoc; cbn [String.append])).
  reflexivity.
Qed.

(** C9.  When [generateJSONFeed] returns a feed, its items are in order
    of publication date, latest first (every item's date is not earlier
    than that of any item after it), and the dates are those of the
    matches; it throws only when the time of some match is out of the
    range of a date.  When [generateAtomFeed] returns a text, the text
    is the head of the document, the entries of the matches in order of
    timestamp, largest first, and the closing tag; it throws only when
    the clock or the time of some match is out of the range of a date. *)
Theorem C9_feeds_latest_first
    (teams : list TeamData) (requestUrl : URL) (now_ms : Z) :
  match generateJSONFeed teams requestUrl with
  | Some feed =>
      StronglySorted
        (fun a b => not_earlier (published_time a) (published_time b))
        (items feed)
      /\ Permutation
           (map published_time (items feed))
           (map (fun p => Some (timestamp (snd p) * 1000)) (all_matches teams))
  | None => Exists out_of_range (all_matches teams)
  end
  /\
  match generateAtomFeed teams requestUrl now_ms with
  | Some text =>
      exists now sorted entries,
        JS.toISOString (JS.Date_of_number now_ms) = Some now
        /\ Permutation (all_matches teams) sorted
        /\ StronglySorted (key_descending match_time) sorted
        /\ Forall2 (fun p entry => atom_entry (fst p) (snd p) = Some entry)
             sorted entries
        /\ text = atom_head teams requestUrl now ++ JS.join "" entries ++
                  "</feed>" ++ JS.LF
  | None =>
      JS.Date_of_number now_ms = None \/ Exists out_of_range (all_matches teams)
  end.
Proof.
  split.
  - pose proof (generateJSONFeed_items teams requestUrl) as H.
    destruct (generateJSONFeed teams requestUrl) as [feed|];
      destruct (traverse (fun p => feed_item (fst p) (snd p)) (all_matches teams))
        as [unsorted|] eqn:Et; try discriminate H.
    + cbn [option_map] in H. injection H as H.
      apply traverse_Some in Et.
      destruct (feed_items_published _ _ Et) as [Hpub Hgood].
      rewrite H. split.
      * apply (StronglySorted_impl_on (key_descending published_key) _
                 (fun item => published_time item <> None)).
        -- unfold key_descending, published_key, not_earlier.
           intros x y Hx Hy. destruct (published_time x), (published_time y);
             congruence || auto.
        -- eapply Permutation_Forall; [apply Array_sort_permutation | exact Hgood].
        -- apply (Array_sort_sorted items_comparefn published_key
                    (fun item => published_time item <> None)
                    items_comparefn_descending). exact Hgood.
      * rewrite <- Hpub. apply Permutation_map. symmetry.
        apply Array_sort_permutation.
    + apply traverse_None in Et.
      eapply Exists_impl; [|exact Et]. intros [t m] Hn. now apply feed_item_None in Hn.
  - rewrite generateAtomFeed_entries.
    destruct (JS.toISOString (JS.Date_of_number now_ms)) as [now|] eqn:Enow.
    2:{ left. unfold JS.toISOString in Enow.
        destruct (JS.Date_of_number now_ms); [discriminate|reflexivity]. }
    destruct (atom_allMatches_sorted teams) as (_ & Hperm & Hsorted).
    destruct (traverse (fun p => atom_entry (fst p) (snd p)) (atom_allMatches teams))
      as [entries|] eqn:Et.
    + exists now, (atom_allMatches teams), entries.
      repeat split; auto. now apply traverse_Some.
    + right. apply traverse_None in Et.
      apply Exists_exists in Et as ([t m] & Hin & Hn).
      apply Exists_exists. exists (t, m). split.
      * eapply Permutation_in; [symmetry; exact Hperm | exact Hin].
      * now apply atom_entry_None in Hn.
Qed.

(** ** The identifiers of the two feeds *)

Section SortRelated.
Context {A B : Type}.
Variable related : A -> B -> Prop.
Variable compareA : A -> A -> option Z.
Variable compareB : B -> B -> option Z.

(** Related elements compare alike. *)
Hypothesis compare_alike :
  forall x y u v, related x u -> related y v ->
    (JS.SortCompare compareA x y <=? 0) = (JS.SortCompare compareB u v <=? 0).



End SortRelated.




(** ** The opponent token against the words of the claim *)

Lemma replace_ws_runs_from_after_run (r s : string) :
  starts_with_whitespace s = false ->
  JS.replace_ws_runs_from true r s = JS.replace_ws_runs_from false r s.
Proof.
  destruct s as [|c s]; [reflexivity|]. cbn [starts_with_whitespace].
  intros H. cbn [JS.replace_ws_runs_from]. now rewrite H.
Qed.

Lemma replace_ws_runs_from_in_run (r run name : string) :
  all_chars JS.is_whitespace run = true ->
  starts_with_whitespace name = false ->
  JS.replace_ws_runs_from true r (run ++ name) = JS.replace_ws_runs_from false r name.
Proof.
  intros Hrun Hname. induction run as [|c run IH].
  - now apply replace_ws_runs_from_after_run.
  - cbn [all_chars] in Hrun. apply andb_prop in Hrun as [Hc Hrun].
    cbn [String.append JS.replace_ws_runs_from]. rewrite Hc. now apply IH.
Qed.

Lemma replace_ws_runs_one_for_run (r run name : string) :
  run <> "" ->
  all_chars JS.is_whitespace run = true ->
  starts_with_whitespace name = false ->
  JS.replace_ws_runs r (run ++ name) = r ++ JS.replace_ws_runs r name.
Proof.
  intros Hne Hrun Hname. destruct run as [|c run]; [congruence|].
  cbn [all_chars] in Hrun. apply andb_prop in Hrun as [Hc Hrun].
  unfold JS.replace_ws_runs. cbn [String.append JS.replace_ws_runs_from].
  rewrite Hc. now rewrite replace_ws_runs_from_in_run.
Qed.

Lemma token_of_letter (underscores : bool) (c : ascii) (name : string) :
  JS.is_whitespace c = false ->
  token_of underscores (String c name) =
  String (if underscores && Ascii.eqb c "_" then "-"%char else lowercased c)
         (token_of underscores name).
Proof.
  intros Hc. rewrite lowercased_lower_char.
  unfold token_of, uid_opponentSlug, feed_opponent_token, JS.replace_ws_runs.
  cbn [JS.replace_ws_runs_from]. rewrite Hc.
  destruct underscores; cbn [andb]; [|reflexivity].
  cbn [JS.replace_char]. destruct (Ascii.eqb c "_"); reflexivity.
Qed.

Lemma token_of_run (underscores : bool) (run name : string) :
  run <> "" ->
  all_chars JS.is_whitespace run = true ->
  starts_with_whitespace name = false ->
  token_of underscores (run ++ name) = String "-" (token_of underscores name).
Proof.
  intros Hne Hrun Hname.
  unfold token_of, uid_opponentSlug, feed_opponent_token.
  rewrite (replace_ws_runs_one_for_run "-" run name Hne Hrun Hname).
  destruct underscores; reflexivity.
Qed.

Lemma token_spec_token_of (underscores : bool) (name token : string) :
  token_spec underscores name token -> token = token_of underscores name.
Proof.
  induction 1 as [|c name token Hc _ IH|run name token Hne Hrun Hname _ IH].
  - destruct underscores; reflexivity.
  - now rewrite token_of_letter, IH.
  - now rewrite token_of_run, IH.
Qed.

Lemma whitespace_run_split (s : string) :
  exists run name,
    s = run ++ name /\ all_chars JS.is_whitespace run = true /\
    starts_with_whitespace name = false.
Proof.
  induction s as [|c s (run & name & Hs & Hrun & Hname)].
  - exists "", "". repeat split.
  - destruct (JS.is_whitespace c) eqn:Hc.
    + exists (String c run), name. cbn [String.append all_chars].
      rewrite Hc, Hrun. subst s. repeat split. exact Hname.
    + exists "", (String c s). cbn [starts_with_whitespace]. repeat split. exact Hc.
Qed.

Lemma token_of_token_spec (underscores : bool) (name : string) :
  token_spec underscores name (token_of underscores name).
Proof.
  remember (String.length name) as n eqn:Hn.
  revert name Hn. induction n as [n IH] using lt_wf_ind. intros name Hn.
  destruct name as [|c name].
  - destruct underscores; constructor.
  - destruct (JS.is_whitespace c) eqn:Hc.
    + destruct (whitespace_run_split name) as (run & rest & Hs & Hrun & Hrest).
      subst name.
      change (String c (run ++ rest)) with (String c run ++ rest).
      rewrite token_of_run;
        [|discriminate|cbn [all_chars]; now rewrite Hc, Hrun|exact Hrest].
      apply token_run; [discriminate|cbn [all_chars]; now rewrite Hc, Hrun|exact Hrest|].
      apply (IH (String.length rest)); [|reflexivity].
      subst n. cbn [String.length]. rewrite length_append. lia.
    + rewrite token_of_letter by exact Hc. apply token_letter; [exact Hc|].
      apply (IH (String.length name)); [|reflexivity]. subst n. cbn. lia.
Qed.

Lemma token_spec_iff (underscores : bool) (name token : string) :
  token_spec underscores name token <-> token = token_of underscores name.
Proof.
  split; [apply token_spec_token_of|]. intros ->. apply token_of_token_spec.
Qed.


Lemma uid_token_spec (name token : string) :
  token_spec true name token <-> token = uid_opponentSlug name.
Proof. apply (token_spec_iff true). Qed.



(** ** Further properties of the request handler *)

Lemma headers_set_In (key value : string) (h : list (string * string)) :
  In (key, value) (headers_set key value h).
Proof.
  induction h as [|[k v] h IH]; simpl; [now left|].
  destruct (String.eqb_spec k key) as [->|Hne]; [now left | now right].
Qed.

Lemma headers_set_keeps (key value k v : string) (h : list (string * string)) :
  k <> key -> In (k, v) h -> In (k, v) (headers_set key value h).
Proof.
  intros Hne. induction h as [|[k0 v0] h IH]; simpl; [tauto|].
  intros [E|Hin].
  - injection E as -> ->. rewrite (proj2 (String.eqb_neq k key) Hne). now left.
  - destruct (String.eqb k0 key); right; auto.
Qed.

Lemma corsResponse_headers (response : Response) :
  In ("Access-Control-Allow-Origin", "*") (headers (corsResponse response))
  /\ In ("Access-Control-Allow-Methods", "GET, OPTIONS") (headers (corsResponse response))
  /\ In ("Access-Control-Allow-Headers", "Content-Type") (headers (corsResponse response)).
Proof.
  unfold corsResponse. cbn [headers]. repeat split.
  - apply headers_set_keeps; [discriminate|].
    apply headers_set_keeps; [discriminate|]. apply headers_set_In.
  - apply headers_set_keeps; [discriminate|]. apply headers_set_In.
  - apply headers_set_In.
Qed.

Lemma reminder_stage_inl (reminderParam : option string) (response : Response) :
  reminder_stage reminderParam = inl response -> response = invalid_reminder_response.
Proof.
  unfold reminder_stage. destruct reminderParam as [s|]; [|discriminate].
  destruct (JS.parseInt10 s) as [n|]; [|congruence].
  destruct ((n <? 0) || (1440 <? n)); congruence.
Qed.

(** What [onRequest] returns is [corsResponse] of a response with one of
    the five statuses, 204 and 405 being decided by the method alone. *)
Lemma onRequest_inner (context : Context) (response : Response) :
  onRequest context = Some response ->
  exists inner,
    response = corsResponse inner /\
    (status inner = 204 <-> method (request context) = "OPTIONS") /\
    (status inner = 405 <->
       method (request context) <> "OPTIONS" /\ method (request context) <> "GET") /\
    (status inner = 200 \/ status inner = 204 \/ status inner = 400 \/
     status inner = 404 \/ status inner = 405).
Proof.
  unfold onRequest.
  destruct (String.eqb_spec (method (request context)) "OPTIONS") as [Ho|Ho].
  { intros H. injection H as <-. eexists. split; [reflexivity|]. cbn [status].
    intuition (try discriminate; try congruence). }
  destruct (String.eqb_spec (method (request context)) "GET") as [Hg|Hg]; cbn [negb].
  { assert (Hfin : forall inner : Response,
              status inner = 200 \/ status inner = 400 \/ status inner = 404 ->
              (status inner = 204 <-> method (request context) = "OPTIONS") /\
              (status inner = 405 <->
                 method (request context) <> "OPTIONS" /\
                 method (request context) <> "GET") /\
              (status inner = 200 \/ status inner = 204 \/ status inner = 400 \/
               status inner = 404 \/ status inner = 405)).
    { intros inner Hs.
      destruct Hs as [Hs|[Hs|Hs]]; rewrite Hs;
        intuition (try discriminate; try congruence). }
    destruct (reminder_stage _) as [r|n] eqn:Er.
    - intros H. injection H as <-. apply reminder_stage_inl in Er. subst r.
      eexists. split; [reflexivity|]. apply Hfin. cbn. auto.
    - unfold teams_stage.
      destruct (filter JS.truthy _) as [|s0 slugs].
      { intros H. injection H as <-. eexists. split; [reflexivity|].
        apply Hfin. cbn. auto. }
      destruct (find _ _).
      { intros H. injection H as <-. eexists. split; [reflexivity|].
        apply Hfin. cbn. auto. }
      destruct (load_teams _ _ _) as [|t0 ts].
      { intros H. injection H as <-. eexists. split; [reflexivity|].
        apply Hfin. cbn. auto. }
      unfold render_stage.
      destruct (String.eqb _ "ics").
      { intros H. injection H as <-. eexists. split; [reflexivity|].
        apply Hfin. cbn. auto. }
      destruct (String.eqb _ "json").
      { destruct (generateJSONFeed _ _); [|discriminate].
        intros H. injection H as <-. eexists. split; [reflexivity|].
        apply Hfin. cbn. auto. }
      destruct (String.eqb _ "rss").
      { destruct (generateAtomFeed _ _ _); [|discriminate].
        intros H. injection H as <-. eexists. split; [reflexivity|].
        apply Hfin. cbn. auto. }
      intros H. injection H as <-. eexists. split; [reflexivity|].
      apply Hfin. cbn. auto. }
  intros H. injection H as <-. eexists. split; [reflexivity|]. cbn [status].
  intuition (try discriminate; try congruence).
Qed.

(** X1.  Every response [onRequest] returns carries the three CORS
    headers that [corsResponse] sets; its status is 200, 204, 400, 404 or
    405, with 204 exactly for the method OPTIONS and 405 exactly for a
    method that is neither OPTIONS nor GET. *)
Theorem X1_responses_carry_cors_and_known_status
    (context : Context) (response : Response) :
  onRequest context = Some response ->
  In ("Access-Control-Allow-Origin", "*") (headers response)
  /\ In ("Access-Control-Allow-Methods", "GET, OPTIONS") (headers response)
  /\ In ("Access-Control-Allow-Headers", "Content-Type") (headers response)
  /\ (status response = 204 <-> method (request context) = "OPTIONS")
  /\ (status response = 405 <->
        method (request context) <> "OPTIONS" /\ method (request context) <> "GET")
  /\ (status response = 200 \/ status response = 204 \/ status response = 400 \/
      status response = 404 \/ status response = 405).
Proof.
  intros H. apply onRequest_inner in H as (inner & -> & H204 & H405 & Hall).
  destruct (corsResponse_headers inner) as (H1 & H2 & H3).
  repeat split; auto; try (apply H204); try (apply H405); auto.
Qed.

Lemma X1_responses_carry_cors_and_known_status_witness :
  exists response,
    onRequest (mock_context "https://example.com/api/calendar?teams=Fnatic"
                 [("teams", "Fnatic")]) = Some response
    /\ In ("Access-Control-Allow-Origin", "*") (headers response)
    /\ (status response = 405 <-> "GET" <> "OPTIONS" /\ "GET" <> "GET").
Proof.
  eexists. split; [reflexivity|].
  pose proof (X1_responses_carry_cors_and_known_status
                (mock_context "https://example.com/api/calendar?teams=Fnatic"
                   [("teams", "Fnatic")]) _ eq_refl) as (H1 & _ & _ & _ & H405 & _).
  split; [exact H1 | exact H405].
Defined.
(** ** The keys read from storage *)

Lemma slug_char_lower_key_char (c : ascii) :
  is_slug_char c = true -> key_char (JS.lower_char c) = true.
Proof.
  destruct c as [[] [] [] [] [] [] [] []]; vm_compute; intros H;
    try discriminate H; reflexivity.
Qed.

Lemma valid_slug_safe_body (slug_ : string) :
  SLUG_PATTERN_test slug_ = true -> safe_body (JS.toLowerCase slug_) = true.
Proof.
  unfold SLUG_PATTERN_test, safe_body. intros H.
  apply andb_prop in H as [Hne Hall]. apply andb_true_intro. split.
  - destruct slug_; [discriminate | reflexivity].
  - clear Hne. induction slug_ as [|c s IH]; [reflexivity|].
    simpl in *. apply andb_prop in Hall as [Hc Hs].
    now rewrite slug_char_lower_key_char, IH.
Qed.

Lemma key_char_plain (c : ascii) :
  key_char c = true ->
  c <> "/"%char /\ c <> "."%char /\ c <> JS.backslash /\ c <> "%"%char /\
  JS.is_upper c = false.
Proof.
  destruct c as [[] [] [] [] [] [] [] []]; vm_compute; intros H;
    try discriminate H; repeat split; discriminate.
Qed.

Section SafeKeys.
Variables env1 env2 : Env.
Variable url_ : URL.

Hypothesis buckets :
  buckets_agree_on
    (fun key => exists body, safe_body body = true /\ key = body ++ ".json")
    (DATA_BUCKET env1) (DATA_BUCKET env2).

Hypothesis assets :
  forall body, safe_body body = true ->
    ASSETS env1 (origin url_ ++ "/data/" ++ body ++ ".json") =
    ASSETS env2 (origin url_ ++ "/data/" ++ body ++ ".json").

Lemma load_team_agree (slug_ : string) :
  SLUG_PATTERN_test slug_ = true ->
  load_team env1 url_ slug_ = load_team env2 url_ slug_.
Proof.
  intros Hv. apply valid_slug_safe_body in Hv.
  unfold load_team. rewrite (assets _ Hv).
  unfold buckets_agree_on in buckets.
  destruct (DATA_BUCKET env1) as [get1|], (DATA_BUCKET env2) as [get2|];
    try contradiction; [|reflexivity].
  rewrite (buckets (JS.toLowerCase slug_ ++ ".json")); [reflexivity|].
  now exists (JS.toLowerCase slug_).
Qed.

Lemma fold_left_ext_in_slugs (slugs : list string) (init : list TeamData) :
  Forall (fun s => SLUG_PATTERN_test s = true) slugs ->
  fold_left
    (fun teamDataList slug_ =>
       match load_team env1 url_ slug_ with
       | Some data => JS.push teamDataList [data]
       | None => teamDataList
       end) slugs init =
  fold_left
    (fun teamDataList slug_ =>
       match load_team env2 url_ slug_ with
       | Some data => JS.push teamDataList [data]
       | None => teamDataList
       end) slugs init.
Proof.
  revert init. induction slugs as [|s slugs IH]; intros init Hv; [reflexivity|].
  inversion Hv as [|? ? Hs Hrest]; subst. cbn [fold_left].
  rewrite (load_team_agree s Hs). now apply IH.
Qed.

Lemma load_teams_agree (slugs : list string) :
  Forall (fun s => SLUG_PATTERN_test s = true) slugs ->
  load_teams env1 url_ slugs = load_teams env2 url_ slugs.
Proof.
  unfold load_teams. intros Hv.
  apply fold_left_ext_in_slugs. exact Hv.
Qed.

End SafeKeys.

Lemma find_invalid_none (slugs : list string) :
  find (fun s => negb (SLUG_PATTERN_test s)) slugs = None ->
  Forall (fun s => SLUG_PATTERN_test s = true) slugs.
Proof.
  intros H. apply Forall_forall. intros s Hin.
  apply (find_none _ _ H) in Hin. now apply negb_false_iff in Hin.
Qed.

(** X2.  The handler reads the stored data only under keys built from
    valid slugs: two environments that agree on the bucket keys
    [body.json] and on the asset paths [/data/body.json], for every
    non-empty [body] of lower-case letters, digits, underscores and
    hyphens, get the same result for the same request.  Such a body holds
    no slash, dot, backslash, percent sign or upper-case letter. *)
Theorem X2_only_keys_of_valid_slugs_are_read (context1 context2 : Context) :
  request context1 = request context2 ->
  clock context1 = clock context2 ->
  buckets_agree_on
    (fun key => exists body, safe_body body = true /\ key = body ++ ".json")
    (DATA_BUCKET (env context1)) (DATA_BUCKET (env context2)) ->
  (forall body, safe_body body = true ->
     ASSETS (env context1)
       (origin (request_url (request context1)) ++ "/data/" ++ body ++ ".json") =
     ASSETS (env context2)
       (origin (request_url (request context1)) ++ "/data/" ++ body ++ ".json")) ->
  onRequest context1 = onRequest context2
  /\ (forall body i c,
        safe_body body = true -> String.get i body = Some c ->
        c <> "/"%char /\ c <> "."%char /\ c <> JS.backslash /\ c <> "%"%char /\
        JS.is_upper c = false).
Proof.
  intros Hreq Hclock Hb Ha. split.
  - unfold onRequest, teams_stage. rewrite <- Hreq, <- Hclock.
    destruct (String.eqb _ "OPTIONS"); [reflexivity|].
    destruct (negb _); [reflexivity|].
    destruct (reminder_stage _); [reflexivity|].
    destruct (filter JS.truthy _) as [|s0 slugs] eqn:Es; [reflexivity|].
    destruct (find _ (s0 :: slugs)) eqn:Ef; [reflexivity|].
    apply find_invalid_none in Ef.
    now rewrite (load_teams_agree (env context1) (env context2) _ Hb Ha _ Ef).
  - intros body i c Hs Hg. unfold safe_body in Hs.
    apply andb_prop in Hs as [_ Hall].
    apply key_char_plain. exact (all_chars_get _ _ _ _ Hall Hg).
Qed.

Lemma all_chars_impl (p q : ascii -> bool) (s : string) :
  (forall c, p c = true -> q c = true) -> all_chars p s = true -> all_chars q s = true.
Proof.
  intros Hpq. induction s as [|c s IH]; simpl; [reflexivity|].
  intros H. apply andb_prop in H as [Hc Hs]. now rewrite (Hpq c Hc), IH.
Qed.

Lemma X2_only_keys_of_valid_slugs_are_read_witness :
  onRequest (mock_context "https://example.com/api/calendar?teams=Fnatic,G2_Esports"
               [("teams", "Fnatic,G2_Esports")]) =
  onRequest (guarded_context "https://example.com/api/calendar?teams=Fnatic,G2_Esports"
               [("teams", "Fnatic,G2_Esports")]).
Proof.
  apply (X2_only_keys_of_valid_slugs_are_read
           (mock_context "https://example.com/api/calendar?teams=Fnatic,G2_Esports"
              [("teams", "Fnatic,G2_Esports")])
           (guarded_context "https://example.com/api/calendar?teams=Fnatic,G2_Esports"
              [("teams", "Fnatic,G2_Esports")])).
  - reflexivity.
  - reflexivity.
  - cbv beta iota delta
      [buckets_agree_on DATA_BUCKET env mock_context guarded_context mock_env
       guarded_env].
    intros key (body & Hs & ->).
    unfold safe_body in Hs. apply andb_prop in Hs as [_ Hall].
    rewrite all_chars_append.
    assert (Hdot : all_chars (fun c => key_char c || Ascii.eqb c ".") body = true).
    { apply (all_chars_impl key_char); [|exact Hall]. intros c Hc. now rewrite Hc. }
    rewrite Hdot. reflexivity.
  - reflexivity.
Defined.

(** ** The [teams] parameter *)

Lemma trimStart_whitespace_only (s : string) :
  all_chars JS.is_whitespace s = true -> JS.trimStart s = "".
Proof.
  induction s as [|c s IH]; simpl; [reflexivity|].
  intros H. apply andb_prop in H as [Hc Hs]. rewrite Hc. auto.
Qed.

Lemma trim_whitespace_only (s : string) :
  all_chars JS.is_whitespace s = true -> JS.trim s = "".
Proof. intros H. unfold JS.trim. now rewrite trimStart_whitespace_only. Qed.

Lemma split_on_blank (s : string) :
  all_chars blank_char s = true ->
  Forall (fun piece => all_chars JS.is_whitespace piece = true) (JS.split_on "," s).
Proof.
  induction s as [|c s IH]; simpl; [repeat constructor|].
  intros H. apply andb_prop in H as [Hc Hs]. specialize (IH Hs).
  unfold blank_char in Hc.
  destruct (Ascii.eqb c ","); [constructor; [reflexivity | exact IH]|].
  rewrite orb_false_r in Hc.
  destruct (JS.split_on "," s) as [|h t]; [repeat constructor; simpl; now rewrite Hc|].
  inversion IH; subst. constructor; [simpl; now rewrite Hc | assumption].
Qed.

Lemma blank_teams_no_slug (teamsParam : string) :
  all_chars blank_char teamsParam = true ->
  filter JS.truthy (map JS.trim (JS.split_on "," teamsParam)) = [].
Proof.
  intros H. apply split_on_blank in H.
  induction H as [|piece pieces Hp _ IH]; [reflexivity|].
  cbn [map filter]. now rewrite (trim_whitespace_only piece Hp).
Qed.

(** X3.  A GET request with an acceptable reminder whose [teams]
    parameter is missing, empty or made of commas and white space only
    names no team: the response is the 400 response that asks for the
    parameter, whatever the format, the filter and the stored data. *)
Theorem X3_blank_teams_parameter_is_rejected
    (context : Context) (reminderMinutes : Z) :
  method (request context) = "GET" ->
  reminder_stage
    (searchParams_get "reminder" (searchParams (request_url (request context))))
    = inr reminderMinutes ->
  all_chars blank_char
    (JS.or_default
       (searchParams_get "teams" (searchParams (request_url (request context)))) "")
    = true ->
  onRequest context =
  Some (corsResponse (text_response
    "Missing 'teams' parameter. Usage: /api/calendar?teams=Los_Ratones,Fnatic" 400)).
Proof.
  intros Hm Hr Hb. unfold onRequest. rewrite Hm, Hr.
  cbn [String.eqb Ascii.eqb Bool.eqb negb].
  unfold teams_stage. now rewrite (blank_teams_no_slug _ Hb).
Qed.

Lemma X3_blank_teams_parameter_is_rejected_witness :
  option_map status
    (onRequest (mock_context "https://example.com/api/calendar?teams=%20,%20,&format=json"
                  [("teams", " , ,"); ("format", "json")])) = Some 400.
Proof.
  rewrite (X3_blank_teams_parameter_is_rejected
             (mock_context "https://example.com/api/calendar?teams=%20,%20,&format=json"
                [("teams", " , ,"); ("format", "json")]) 30 eq_refl eq_refl eq_refl).
  reflexivity.
Defined.

Lemma trimStart_fixed (s : string) :
  starts_with_whitespace s = false -> JS.trimStart s = s.
Proof. destruct s as [|c s]; simpl; [reflexivity|]. now intros ->. Qed.

Lemma trimStart_no_leading_whitespace (s : string) :
  starts_with_whitespace (JS.trimStart s) = false.
Proof.
  induction s as [|c s IH]; simpl; [reflexivity|].
  destruct (JS.is_whitespace c) eqn:E; [exact IH | simpl; exact E].
Qed.

Lemma trimEnd_no_leading_whitespace (s : string) :
  starts_with_whitespace s = false -> starts_with_whitespace (JS.trimEnd s) = false.
Proof.
  destruct s as [|c s]; simpl; [reflexivity|]. intros Hc.
  destruct (JS.trimEnd s); rewrite ?Hc; simpl; auto.
Qed.

Lemma trimEnd_cons (c : ascii) (s : string) :
  JS.trimEnd (String c s) =
  match JS.trimEnd s with
  | EmptyString => if JS.is_whitespace c then EmptyString else String c EmptyString
  | r => String c r
  end.
Proof. reflexivity. Qed.

Lemma trimEnd_idempotent (s : string) : JS.trimEnd (JS.trimEnd s) = JS.trimEnd s.
Proof.
  induction s as [|c s IH]; [reflexivity|]. rewrite trimEnd_cons.
  destruct (JS.trimEnd s) as [|x r] eqn:E.
  - destruct (JS.is_whitespace c) eqn:Ec; [reflexivity|].
    rewrite trimEnd_cons. cbn [JS.trimEnd]. now rewrite Ec.
  - rewrite trimEnd_cons, IH. reflexivity.
Qed.

Lemma trim_idempotent (s : string) : JS.trim (JS.trim s) = JS.trim s.
Proof.
  unfold JS.trim.
  rewrite (trimStart_fixed (JS.trimEnd (JS.trimStart s))).
  - apply trimEnd_idempotent.
  - apply trimEnd_no_leading_whitespace, trimStart_no_leading_whitespace.
Qed.

Lemma trimStart_all_chars (p : ascii -> bool) (s : string) :
  all_chars p s = true -> all_chars p (JS.trimStart s) = true.
Proof.
  induction s as [|c s IH]; simpl; [reflexivity|]. intros H.
  destruct (JS.is_whitespace c); [|exact H].
  apply andb_prop in H as [_ H]. auto.
Qed.

Lemma trimEnd_all_chars (p : ascii -> bool) (s : string) :
  all_chars p s = true -> all_chars p (JS.trimEnd s) = true.
Proof.
  induction s as [|c s IH]; [reflexivity|]. rewrite trimEnd_cons.
  intros H. simpl in H. apply andb_prop in H as [Hc Hs]. specialize (IH Hs).
  destruct (JS.trimEnd s) as [|x r].
  - destruct (JS.is_whitespace c); simpl; [reflexivity | now rewrite Hc].
  - change (all_chars p (String c (String x r)))
      with (p c && all_chars p (String x r)).
    now rewrite Hc, IH.
Qed.

Lemma split_on_no_separator (s : string) :
  Forall (fun piece => all_chars not_comma piece = true) (JS.split_on "," s).
Proof.
  induction s as [|c s IH]; simpl; [repeat constructor|].
  destruct (Ascii.eqb c ",") eqn:E; [constructor; [reflexivity | exact IH]|].
  destruct (JS.split_on "," s) as [|h t];
    [repeat constructor; simpl; unfold not_comma; now rewrite E|].
  inversion IH; subst. constructor; [|assumption].
  simpl. unfold not_comma at 1. rewrite E. simpl. assumption.
Qed.

Lemma split_on_not_nil (sep : ascii) (s : string) : JS.split_on sep s <> [].
Proof.
  destruct s as [|c s]; simpl; [discriminate|].
  destruct (Ascii.eqb c sep); [discriminate|].
  destruct (JS.split_on sep s); discriminate.
Qed.

Lemma join_cons2 (sep x y : string) (l : list string) :
  JS.join sep (x :: y :: l) = x ++ sep ++ JS.join sep (y :: l).
Proof. reflexivity. Qed.

Lemma join_split_on (s : string) : JS.join "," (JS.split_on "," s) = s.
Proof.
  induction s as [|c s IH]; [reflexivity|]. cbn [JS.split_on].
  pose proof (split_on_not_nil "," s) as Hne.
  destruct (JS.split_on "," s) as [|h t]; [congruence|].
  destruct (Ascii.eqb_spec c ",") as [->|Hc].
  - rewrite join_cons2, IH. reflexivity.
  - destruct t as [|y t].
    + cbn [JS.join] in *. now rewrite IH.
    + rewrite join_cons2 in IH. rewrite join_cons2.
      change (String c h ++ "," ++ JS.join "," (y :: t))
        with (String c (h ++ "," ++ JS.join "," (y :: t))).
      now rewrite IH.
Qed.

Lemma split_on_all_chars (p : ascii -> bool) (sep : ascii) (s : string) :
  all_chars p s = true ->
  Forall (fun piece => all_chars p piece = true) (JS.split_on sep s).
Proof.
  induction s as [|c s IH]; simpl; [repeat constructor|].
  intros H. apply andb_prop in H as [Hc Hs]. specialize (IH Hs).
  destruct (Ascii.eqb c sep); [constructor; [reflexivity | exact IH]|].
  destruct (JS.split_on sep s) as [|h t];
    [repeat constructor; simpl; now rewrite Hc|].
  inversion IH; subst. constructor; [|assumption].
  simpl. now rewrite Hc.
Qed.

Lemma trimEnd_no_trailing_whitespace (s : string) :
  ends_with_whitespace (JS.trimEnd s) = false.
Proof.
  induction s as [|c s IH]; [reflexivity|]. rewrite trimEnd_cons.
  destruct (JS.trimEnd s) as [|x r].
  - destruct (JS.is_whitespace c) eqn:Ec; [reflexivity|].
    cbn [ends_with_whitespace]. exact Ec.
  - exact IH.
Qed.

(** X4.  The slugs the handler takes from a [teams] parameter of ASCII
    text are never empty, carry no white space at either end (trimming
    one again changes nothing), hold no comma and are ASCII text; the
    pieces they are trimmed from, joined by commas, are the parameter. *)
Theorem X4_parsed_slugs_are_trimmed_and_non_empty (teamsParam : string) :
  ascii_text teamsParam = true ->
  Forall
    (fun slug_ =>
       slug_ <> "" /\ JS.trim slug_ = slug_ /\
       starts_with_whitespace slug_ = false /\
       ends_with_whitespace slug_ = false /\
       all_chars not_comma slug_ = true /\
       ascii_text slug_ = true)
    (filter JS.truthy (map JS.trim (JS.split_on "," teamsParam)))
  /\ JS.join "," (JS.split_on "," teamsParam) = teamsParam.
Proof.
  intros Hascii. split; [|apply join_split_on].
  apply Forall_forall. intros slug_ Hin.
  apply filter_In in Hin as [Hin Ht].
  apply in_map_iff in Hin as (piece & <- & Hp).
  pose proof (split_on_no_separator teamsParam) as Hsep.
  rewrite Forall_forall in Hsep. specialize (Hsep piece Hp).
  pose proof (split_on_all_chars ascii_char "," teamsParam Hascii) as Hpieces.
  rewrite Forall_forall in Hpieces. specialize (Hpieces piece Hp).
  repeat split.
  - intros E. rewrite E in Ht. discriminate.
  - apply trim_idempotent.
  - apply trimEnd_no_leading_whitespace, trimStart_no_leading_whitespace.
  - apply trimEnd_no_trailing_whitespace.
  - now apply trimEnd_all_chars, trimStart_all_chars.
  - now apply trimEnd_all_chars, trimStart_all_chars.
Qed.

Lemma X4_parsed_slugs_are_trimmed_and_non_empty_witness :
  filter JS.truthy (map JS.trim (JS.split_on "," " Fnatic ,, G2_Esports")) =
    ["Fnatic"; "G2_Esports"]
  /\ Forall
       (fun slug_ =>
          slug_ <> "" /\ JS.trim slug_ = slug_ /\
          starts_with_whitespace slug_ = false /\
          ends_with_whitespace slug_ = false /\
          all_chars not_comma slug_ = true /\
          ascii_text slug_ = true)
       (filter JS.truthy (map JS.trim (JS.split_on "," " Fnatic ,, G2_Esports"))).
Proof.
  split; [reflexivity|].
  apply (X4_parsed_slugs_are_trimmed_and_non_empty " Fnatic ,, G2_Esports").
  reflexivity.
Defined.

(** ** Loading *)

Lemma load_teams_flat_map (env_ : Env) (url_ : URL) (slugs : list string) :
  load_teams env_ url_ slugs =
  flat_map (fun slug_ => match load_team env_ url_ slug_ with
                         | Some data => [data]
                         | None => []
                         end) slugs.
Proof.
  unfold load_teams.
  assert (H : forall init,
            fold_left
              (fun teamDataList slug_ =>
                 match load_team env_ url_ slug_ with
                 | Some data => JS.push teamDataList [data]
                 | None => teamDataList
                 end) slugs init =
            (init ++ flat_map (fun slug_ => match load_team env_ url_ slug_ with
                                           | Some data => [data]
                                           | None => []
                                           end) slugs)%list).
  { induction slugs as [|s slugs IH]; intros init; simpl.
    - now rewrite app_nil_r.
    - rewrite IH. destruct (load_team env_ url_ s); unfold JS.push; simpl.
      + now rewrite <- app_assoc.
      + reflexivity. }
  now rewrite H.
Qed.

(** X5.  Teams load one by one and independently: the list loaded for
    two lists of slugs one after the other is the two loaded lists one
    after the other; a slug that cannot be loaded is skipped, so the
    loaded list is never longer than the list of slugs; and every loaded
    record is the record of one of the slugs. *)
Theorem X5_teams_load_independently
    (env_ : Env) (url_ : URL) (slugs1 slugs2 : list string) :
  load_teams env_ url_ (slugs1 ++ slugs2) =
    (load_teams env_ url_ slugs1 ++ load_teams env_ url_ slugs2)%list
  /\ (List.length (load_teams env_ url_ slugs1) <= List.length slugs1)%nat
  /\ Forall (fun data => exists slug_,
               In slug_ slugs1 /\ load_team env_ url_ slug_ = Some data)
       (load_teams env_ url_ slugs1).
Proof.
  rewrite !load_teams_flat_map. split; [apply flat_map_app|]. split.
  - induction slugs1 as [|s l IH]; simpl; [lia|].
    rewrite length_app. destruct (load_team env_ url_ s); simpl; lia.
  - apply Forall_forall. intros data Hin.
    apply in_flat_map in Hin as (s & Hs & Hd). exists s. split; [exact Hs|].
    destruct (load_team env_ url_ s) as [d|]; [|contradiction].
    destruct Hd as [->|[]]. reflexivity.
Qed.

Lemma lower_key_char_slug_char (c : ascii) :
  key_char (JS.lower_char c) = true -> is_slug_char c = true.
Proof.
  destruct c as [[] [] [] [] [] [] [] []]; vm_compute; intros H;
    try discriminate H; reflexivity.
Qed.

Lemma same_lower_valid (a b : string) :
  JS.toLowerCase a = JS.toLowerCase b ->
  SLUG_PATTERN_test a = true -> SLUG_PATTERN_test b = true.
Proof.
  intros E Ha. apply valid_slug_safe_body in Ha. rewrite E in Ha.
  unfold safe_body in Ha. apply andb_prop in Ha as [Hne Hall].
  unfold SLUG_PATTERN_test. apply andb_true_intro. split.
  - destruct b; [discriminate | reflexivity].
  - clear Hne E. induction b as [|c b IH]; [reflexivity|].
    simpl in *. apply andb_prop in Hall as [Hc Hb].
    now rewrite lower_key_char_slug_char, IH.
Qed.

Lemma load_team_same_lower (env_ : Env) (url_ : URL) (a b : string) :
  JS.toLowerCase a = JS.toLowerCase b ->
  load_team env_ url_ a = load_team env_ url_ b.
Proof. intros E. unfold load_team. now rewrite E. Qed.

(** X6.  Slugs are looked up without regard to the case of their letters:
    two [teams] parameters whose slugs agree one by one up to case, those
    of the first being valid, get the same response from the slug stage
    on, for every format, filter and reminder. *)
Theorem X6_slug_lookup_ignores_case
    (context : Context) (url_ : URL)
    (teamsParam1 teamsParam2 format tournamentFilter : string) (reminderMinutes : Z) :
  Forall2 (fun a b => JS.toLowerCase a = JS.toLowerCase b)
    (filter JS.truthy (map JS.trim (JS.split_on "," teamsParam1)))
    (filter JS.truthy (map JS.trim (JS.split_on "," teamsParam2))) ->
  Forall (fun s => SLUG_PATTERN_test s = true)
    (filter JS.truthy (map JS.trim (JS.split_on "," teamsParam1))) ->
  teams_stage context url_ teamsParam1 format tournamentFilter reminderMinutes =
  teams_stage context url_ teamsParam2 format tournamentFilter reminderMinutes.
Proof.
  unfold teams_stage.
  generalize (filter JS.truthy (map JS.trim (JS.split_on "," teamsParam1))).
  generalize (filter JS.truthy (map JS.trim (JS.split_on "," teamsParam2))).
  intros l2 l1 Hsame Hvalid.
  assert (Hvalid2 : Forall (fun s => SLUG_PATTERN_test s = true) l2).
  { clear - Hsame Hvalid. induction Hsame as [|a b l1 l2 Hab _ IH]; [constructor|].
    inversion Hvalid; subst. constructor; [now apply (same_lower_valid a) | auto]. }
  assert (Hfind : forall l, Forall (fun s => SLUG_PATTERN_test s = true) l ->
                            find (fun s => negb (SLUG_PATTERN_test s)) l = None).
  { induction 1 as [|s l Hs _ IH]; simpl; [reflexivity|]. now rewrite Hs. }
  assert (Hload : load_teams (env context) url_ l1 = load_teams (env context) url_ l2).
  { rewrite !load_teams_flat_map. clear - Hsame.
    induction Hsame as [|a b l1 l2 Hab _ IH]; simpl; [reflexivity|].
    now rewrite (load_team_same_lower _ _ a b Hab), IH. }
  rewrite (Hfind l1 Hvalid), (Hfind l2 Hvalid2), Hload.
  destruct Hsame; reflexivity.
Qed.

Lemma X6_slug_lookup_ignores_case_witness :
  teams_stage (mock_context "https://example.com/api/calendar?teams=FNATIC,g2_esports"
                 [("teams", "FNATIC,g2_esports")])
    (request_url (request (mock_context
       "https://example.com/api/calendar?teams=FNATIC,g2_esports"
       [("teams", "FNATIC,g2_esports")])))
    "FNATIC,g2_esports" "ics" "" 30 =
  teams_stage (mock_context "https://example.com/api/calendar?teams=FNATIC,g2_esports"
                 [("teams", "FNATIC,g2_esports")])
    (request_url (request (mock_context
       "https://example.com/api/calendar?teams=FNATIC,g2_esports"
       [("teams", "FNATIC,g2_esports")])))
    "Fnatic, G2_Esports" "ics" "" 30.
Proof.
  apply X6_slug_lookup_ignores_case.
  - repeat constructor.
  - repeat constructor.
Defined.

(** ** Exceptions *)

Lemma generateJSONFeed_None (teams : list TeamData) (requestUrl : URL) :
  generateJSONFeed teams requestUrl = None ->
  Exists out_of_range (all_matches teams).
Proof.
  intros H. pose proof (generateJSONFeed_items teams requestUrl) as Hi.
  rewrite H in Hi. cbn [option_map] in Hi.
  destruct (traverse (fun p => feed_item (fst p) (snd p)) (all_matches teams)) eqn:Et;
    [discriminate|].
  apply traverse_None in Et. eapply Exists_impl; [|exact Et].
  intros [t m] Hn. now apply feed_item_None in Hn.
Qed.

Lemma generateAtomFeed_None (teams : list TeamData) (requestUrl : URL) (now_ms : Z) :
  generateAtomFeed teams requestUrl now_ms = None ->
  JS.Date_of_number now_ms = None \/ Exists out_of_range (all_matches teams).
Proof.
  rewrite generateAtomFeed_entries.
  destruct (JS.toISOString (JS.Date_of_number now_ms)) eqn:En.
  - destruct (traverse _ (atom_allMatches teams)) eqn:Et; [discriminate|].
    intros _. right. apply traverse_None in Et.
    destruct (atom_allMatches_sorted teams) as (_ & Hperm & _).
    apply Exists_exists in Et as ([t m] & Hin & Hn).
    apply Exists_exists. exists (t, m). split.
    + eapply Permutation_in; [symmetry; exact Hperm | exact Hin].
    + now apply atom_entry_None in Hn.
  - intros _. left. unfold JS.toISOString in En.
    destruct (JS.Date_of_number now_ms); [discriminate | reflexivity].
Qed.

Lemma filter_stage_all_matches (tournamentFilter : string) (teams : list TeamData)
    (p : TeamInfo * MatchData) :
  In p (all_matches (filter_stage tournamentFilter teams)) -> In p (all_matches teams).
Proof.
  unfold filter_stage. destruct (JS.truthy tournamentFilter); [|auto].
  unfold all_matches. rewrite !in_flat_map.
  intros (kept & Hk & Hp). apply in_map_iff in Hk as (teamData & <- & Ht).
  exists teamData. split; [exact Ht|]. cbn [team matches] in Hp.
  apply in_map_iff in Hp as (m & <- & Hm). apply filter_In in Hm as [Hm _].
  now apply in_map.
Qed.

Lemma Exists_out_of_range_unfiltered (tournamentFilter : string) (teams : list TeamData) :
  Exists out_of_range (all_matches (filter_stage tournamentFilter teams)) ->
  Exists out_of_range (all_matches teams).
Proof.
  rewrite !Exists_exists. intros (p & Hin & Hp). exists p.
  split; [now apply (filter_stage_all_matches tournamentFilter) | exact Hp].
Qed.

(** X7.  [onRequest] throws only while it renders a JSON Feed or an Atom
    feed, and only because a date cannot be printed: the time of a match
    of a loaded team, or for Atom the clock, is beyond the range of a
    date.  Every other request, in particular every ICS request, gets a
    response. *)
Theorem X7_handler_throws_only_on_unprintable_dates (context : Context) :
  onRequest context = None ->
  let url_ := request_url (request context) in
  let format := JS.or_default (searchParams_get "format" (searchParams url_)) "ics" in
  let slugs :=
    filter JS.truthy
      (map JS.trim
         (JS.split_on ","
            (JS.or_default (searchParams_get "teams" (searchParams url_)) ""))) in
  let loaded := load_teams (env context) url_ slugs in
  (format = "json" /\ Exists out_of_range (all_matches loaded))
  \/ (format = "rss" /\
      (JS.Date_of_number (clock context) = None \/
       Exists out_of_range (all_matches loaded))).
Proof.
  unfold onRequest, teams_stage, render_stage.
  destruct (String.eqb _ "OPTIONS"); [discriminate|].
  destruct (negb _); [discriminate|].
  destruct (reminder_stage _); [discriminate|].
  destruct (filter JS.truthy _) as [|s0 slugs]; [discriminate|].
  destruct (find _ _); [discriminate|].
  destruct (load_teams _ _ _) as [|t0 ts]; [discriminate|].
  destruct (String.eqb _ "ics"); [discriminate|].
  destruct (String.eqb_spec
              (JS.or_default
                 (searchParams_get "format" (searchParams (request_url (request context))))
                 "ics") "json") as [Ej|Ej].
  { destruct (generateJSONFeed _ _) eqn:Eg; [discriminate|]. intros _. left.
    split; [exact Ej|]. apply generateJSONFeed_None in Eg.
    now apply Exists_out_of_range_unfiltered in Eg. }
  destruct (String.eqb_spec
              (JS.or_default
                 (searchParams_get "format" (searchParams (request_url (request context))))
                 "ics") "rss") as [Er|Er]; [|discriminate].
  destruct (generateAtomFeed _ _ _) eqn:Eg; [discriminate|]. intros _. right.
  split; [exact Er|]. apply generateAtomFeed_None in Eg as [Hc|He]; [now left|].
  right. now apply Exists_out_of_range_unfiltered in He.
Qed.

Lemma X7_handler_throws_only_on_unprintable_dates_witness :
  onRequest (far_context "https://example.com/api/calendar?teams=Fnatic&format=json"
               [("teams", "Fnatic"); ("format", "json")]) = None
  /\ ("json" = "json" /\ Exists out_of_range (all_matches [TEAM_FAR])
      \/ "json" = "rss" /\
         (JS.Date_of_number 1793534400000 = None \/
          Exists out_of_range (all_matches [TEAM_FAR]))).
Proof.
  split; [reflexivity|].
  exact (X7_handler_throws_only_on_unprintable_dates
           (far_context "https://example.com/api/calendar?teams=Fnatic&format=json"
              [("teams", "Fnatic"); ("format", "json")]) eq_refl).
Defined.

(** ** The dates of an event *)

Lemma year_prints_fixed_all (y : Z) :
  1000 <= y <= 9999 -> JS.String_of (Some y) = JS.fixed_digits 4 y.
Proof.
  intros H. apply String.eqb_eq.
  apply (check_range_spec year_prints_fixed (Z.to_nat 9000) 1000).
  - vm_compute. reflexivity.
  - rewrite Z2Nat.id; lia.
Qed.

Lemma field_pads_fixed_all (v : Z) :
  0 <= v <= 99 -> pad (Some v) = JS.fixed_digits 2 v.
Proof.
  intros H. apply String.eqb_eq.
  apply (check_range_spec field_pads_fixed (Z.to_nat 100) 0).
  - vm_compute. reflexivity.
  - rewrite Z2Nat.id; lia.
Qed.

Lemma DaysInMonth_range (y m : Z) : 28 <= JS.DaysInMonth y m <= 31.
Proof.
  unfold JS.DaysInMonth.
  destruct (m =? 2); [destruct (JS.is_leap y); lia|].
  destruct ((m =? 4) || (m =? 6) || (m =? 9) || (m =? 11)); lia.
Qed.

Lemma days_before_month_range (leap : bool) (m : Z) :
  0 <= days_before_month leap m <= 335.
Proof.
  unfold days_before_month.
  repeat match goal with
         | |- context [?a =? ?b] => destruct (a =? b)
         end; destruct leap; lia.
Qed.

(** The year of a day from 1970 to 9999. *)
Lemma civil_year_range (days : Z) :
  0 <= days <= 2932896 ->
  1000 <= fst (fst (JS.civil_from_days days)) <= 9999.
Proof.
  intros Hd. pose proof (civil_from_days_roundtrip days) as Hc.
  destruct (JS.civil_from_days days) as [[y m] d]. cbn [fst].
  destruct Hc as (Hdays & Hm & Hday & _).
  rewrite (days_from_civil_ecma y m d Hm) in Hdays.
  pose proof (days_before_month_range (JS.is_leap y) m).
  pose proof (DaysInMonth_range y m).
  unfold DayFromYear in Hdays.
  Z.div_mod_to_equations. lia.
Qed.

(** [formatICSDate] of a time from 1970 to 9999 reads back as that time. *)
Lemma formatICSDate_roundtrip (ts : Z) :
  0 <= ts < 253402300800 ->
  parse_ics_date (formatICSDate ts) = Some ts /\
  String.length (formatICSDate ts) = 16%nat.
Proof.
  intros Hts. unfold formatICSDate, JS.Date_of_number, JS.TimeClip, JS.maxTime.
  destruct (Z.leb_spec (Z.abs (ts * 1000)) 8640000000000000) as [_|Hbad]; [|lia].
  unfold JS.getUTCFullYear, JS.getUTCMonth, JS.getUTCDate, JS.getUTCHours,
    JS.getUTCMinutes, JS.getUTCSeconds. cbn [option_map].
  set (t := ts * 1000).
  assert (Hday : 0 <= JS.Day t <= 2932896).
  { unfold JS.Day, JS.msPerDay. subst t.
    pose proof (Z.div_mod (ts * 1000) 86400000 ltac:(lia)).
    pose proof (Z.mod_pos_bound (ts * 1000) 86400000 ltac:(lia)). lia. }
  pose proof (civil_year_range _ Hday) as Hyear.
  pose proof (civil_from_days_roundtrip (JS.Day t)) as Hc.
  unfold JS.YearFromTime, JS.MonthFromTime, JS.DateFromTime.
  destruct (JS.civil_from_days (JS.Day t)) as [[y m] d]. cbn [fst snd] in *.
  destruct Hc as (Hdays & Hm & Hd & _).
  pose proof (DaysInMonth_range y m) as Hdim.
  destruct (time_fields_range t) as (Hh & Hmi & Hsec & Hms).
  replace (m - 1 + 1) with m by lia.
  rewrite (year_prints_fixed_all y Hyear).
  rewrite !field_pads_fixed_all by lia.
  split.
  - unfold parse_ics_date.
    rewrite parse_fixed_digits0 by (change (10 ^ Z.of_nat 4) with 10000; lia).
    rewrite parse_fixed_digits0 by (change (10 ^ Z.of_nat 2) with 100; lia).
    rewrite parse_fixed_digits0 by (change (10 ^ Z.of_nat 2) with 100; lia).
    change ("T" ++ ?x) with (String "T" x). rewrite expect_same.
    rewrite parse_fixed_digits0 by (change (10 ^ Z.of_nat 2) with 100; lia).
    rewrite parse_fixed_digits0 by (change (10 ^ Z.of_nat 2) with 100; lia).
    rewrite parse_fixed_digits0 by (change (10 ^ Z.of_nat 2) with 100; lia).
    rewrite expect_same. cbn [JS.truthy negb andb].
    repeat match goal with
           | |- context [?a <=? ?b] => destruct (Z.leb_spec a b); [|lia]
           end.
    cbn [andb]. f_equal. rewrite Hdays.
    pose proof (time_within_day t) as Ht.
    unfold JS.MakeDate, JS.MakeTime, JS.msPerDay in Ht.
    assert (Hms0 : JS.msFromTime t = 0).
    { unfold JS.msFromTime. subst t. apply Z.mod_mul. lia. }
    rewrite Hms0 in Ht. subst t. lia.
  - rewrite !length_append. reflexivity.
Qed.

(** X8.  For a match from 1970 to the year 9999, the DTSTART line of its
    event holds sixteen characters YYYYMMDDThhmmssZ that read back as the
    timestamp of the match, and the DTEND line the same for the time two
    hours later. *)
Theorem X8_event_dates_denote_the_match_time
    (team : TeamInfo) (match_ : MatchData) (reminderMinutes : Z) :
  0 <= timestamp match_ ->
  timestamp match_ + 7200 < 253402300800 ->
  exists start end_,
    nth 2 (generateVEvent team match_ reminderMinutes) "" = "DTSTART:" ++ start
    /\ nth 3 (generateVEvent team match_ reminderMinutes) "" = "DTEND:" ++ end_
    /\ String.length start = 16%nat /\ String.length end_ = 16%nat
    /\ parse_ics_date start = Some (timestamp match_)
    /\ parse_ics_date end_ = Some (timestamp match_ + 7200).
Proof.
  intros H0 H1.
  exists (formatICSDate (timestamp match_)),
         (formatICSDate (timestamp match_ + 2 * 60 * 60)).
  rewrite generateVEvent_shape. cbn [nth app].
  destruct (formatICSDate_roundtrip (timestamp match_)) as [Hp Hl]; [lia|].
  destruct (formatICSDate_roundtrip (timestamp match_ + 2 * 60 * 60)) as [Hp' Hl'];
    [lia|].
  repeat split; auto.
Qed.

Lemma X8_event_dates_denote_the_match_time_witness :
  exists start end_,
    nth 2 (generateVEvent (team TEAM_A) TEAM_A_future 30) "" = "DTSTART:" ++ start
    /\ nth 3 (generateVEvent (team TEAM_A) TEAM_A_future 30) "" = "DTEND:" ++ end_
    /\ String.length start = 16%nat /\ String.length end_ = 16%nat
    /\ parse_ics_date start = Some 1793620800
    /\ parse_ics_date end_ = Some (1793620800 + 7200).
Proof.
  apply (X8_event_dates_denote_the_match_time (team TEAM_A) TEAM_A_future 30).
  - vm_compute. discriminate.
  - vm_compute. reflexivity.
Defined.

(** X9.  For a match whose time in milliseconds is beyond the range of a
    date, [generateVEvent] still returns an event; its DTSTART line holds
    NaN in every field and reads back as no time. *)
Theorem X9_unprintable_date_renders_NaN
    (team : TeamInfo) (match_ : MatchData) (reminderMinutes : Z) :
  8640000000000 < Z.abs (timestamp match_) ->
  nth 2 (generateVEvent team match_ reminderMinutes) "" =
    "DTSTART:NaNNaNNaNTNaNNaNNaNZ"
  /\ parse_ics_date (formatICSDate (timestamp match_)) = None
  /\ hd_error (generateVEvent team match_ reminderMinutes) = Some "BEGIN:VEVENT"
  /\ last (generateVEvent team match_ reminderMinutes) "" = "END:VEVENT".
Proof.
  intros H.
  assert (E : formatICSDate (timestamp match_) = "NaNNaNNaNTNaNNaNNaNZ").
  { unfold formatICSDate, JS.Date_of_number, JS.TimeClip, JS.maxTime.
    destruct (Z.leb_spec (Z.abs (timestamp match_ * 1000)) 8640000000000000);
      [lia | reflexivity]. }
  rewrite generateVEvent_shape. split; [|split; [|split]].
  - cbn [nth app]. now rewrite E.
  - now rewrite E.
  - reflexivity.
  - rewrite !app_assoc. apply last_last.
Qed.

Lemma X9_unprintable_date_renders_NaN_witness :
  nth 2 (generateVEvent (team TEAM_FAR)
           (nth 0 (matches TEAM_FAR) TEAM_A_future) 30) "" =
  "DTSTART:NaNNaNNaNTNaNNaNNaNZ".
Proof.
  apply (X9_unprintable_date_renders_NaN (team TEAM_FAR)
           (nth 0 (matches TEAM_FAR) TEAM_A_future) 30).
  vm_compute. reflexivity.
Defined.

(** ** The tokens of the identifiers *)

Lemma lower_char_facts (c : ascii) :
  JS.is_whitespace (JS.lower_char c) = JS.is_whitespace c
  /\ Ascii.eqb (JS.lower_char c) "_" = Ascii.eqb c "_"
  /\ JS.is_upper (JS.lower_char c) = false
  /\ JS.lower_char (JS.lower_char c) = JS.lower_char c.
Proof.
  destruct c as [[] [] [] [] [] [] [] []]; vm_compute; repeat split.
Qed.

Lemma toLowerCase_replace_ws_runs_from (in_run : bool) (r s : string) :
  JS.toLowerCase (JS.replace_ws_runs_from in_run r s) =
  JS.replace_ws_runs_from in_run (JS.toLowerCase r) (JS.toLowerCase s).
Proof.
  revert in_run. induction s as [|c s IH]; intros in_run; [reflexivity|].
  cbn [JS.toLowerCase JS.replace_ws_runs_from].
  destruct (lower_char_facts c) as (-> & _).
  destruct (JS.is_whitespace c), in_run; rewrite ?toLowerCase_append;
    cbn [JS.toLowerCase]; now rewrite IH.
Qed.

Lemma toLowerCase_replace_underscore (r s : string) :
  JS.toLowerCase (JS.replace_char "_" r s) =
  JS.replace_char "_" (JS.toLowerCase r) (JS.toLowerCase s).
Proof.
  induction s as [|c s IH]; [reflexivity|].
  cbn [JS.toLowerCase JS.replace_char].
  destruct (lower_char_facts c) as (_ & -> & _).
  destruct (Ascii.eqb c "_"); rewrite ?toLowerCase_append;
    cbn [JS.toLowerCase]; now rewrite IH.
Qed.

(** The token of the UID is a function of the lower-cased name. *)
Lemma uid_opponentSlug_of_lower (opponent_ : string) :
  uid_opponentSlug opponent_ =
  JS.replace_char "_" "-" (JS.replace_ws_runs "-" (JS.toLowerCase opponent_)).
Proof.
  unfold uid_opponentSlug, JS.replace_ws_runs.
  now rewrite toLowerCase_replace_underscore, toLowerCase_replace_ws_runs_from.
Qed.

(** X10.  The UID of an event does not depend on the case of letters:
    two records whose team slugs agree up to case, whose opponent names
    agree up to case and whose timestamps are equal get the same UID. *)
Theorem X10_uid_ignores_letter_case
    (team1 team2 : TeamInfo) (match1 match2 : MatchData) :
  JS.toLowerCase (slug team1) = JS.toLowerCase (slug team2) ->
  JS.toLowerCase (opponent match1) = JS.toLowerCase (opponent match2) ->
  timestamp match1 = timestamp match2 ->
  event_uid team1 match1 = event_uid team2 match2.
Proof.
  intros Hs Ho Ht. unfold event_uid.
  now rewrite !uid_opponentSlug_of_lower, Hs, Ho, Ht.
Qed.

Lemma X10_uid_ignores_letter_case_witness :
  event_uid (team TEAM_A) TEAM_A_future =
  event_uid
    {| name := "Fnatic"; slug := "FNATIC"; short_name := "FNC"; emoji := "";
       game := "leagueoflegends"; liquipedia_url := ""; logo_url := None |}
    {| timestamp := FUTURE_TS; opponent := "g2 ESPORTS"; tournament := "";
       url := ""; is_upcoming := true; score := None |}.
Proof.
  apply X10_uid_ignores_letter_case; reflexivity.
Defined.

Lemma leb_total (x y : string) :
  (x <=? y)%string = false -> (y <=? x)%string = true.
Proof.
  unfold String.leb. rewrite (String.compare_antisym x y).
  destruct (String.compare y x); cbn [CompOpp]; congruence.
Qed.

Lemma lower_char_ascii (c : ascii) :
  ascii_char c = true -> ascii_char (JS.lower_char c) = true.
Proof.
  destruct c as [[] [] [] [] [] [] [] []]; vm_compute; intros H;
    try discriminate H; reflexivity.
Qed.

Lemma toLowerCase_ascii (s : string) :
  ascii_text s = true -> ascii_text (JS.toLowerCase s) = true.
Proof.
  unfold ascii_text. induction s as [|c s IH]; [reflexivity|].
  cbn [all_chars JS.toLowerCase]. intros H. apply andb_prop in H as [Hc Hs].
  now rewrite (lower_char_ascii c Hc), IH.
Qed.

Lemma replace_ws_runs_from_ascii (in_run : bool) (s : string) :
  ascii_text s = true -> ascii_text (JS.replace_ws_runs_from in_run "-" s) = true.
Proof.
  unfold ascii_text. revert in_run.
  induction s as [|c s IH]; intros in_run H; [reflexivity|].
  cbn [all_chars] in H. apply andb_prop in H as [Hc Hs].
  cbn [JS.replace_ws_runs_from].
  destruct (JS.is_whitespace c).
  - destruct in_run; [now apply IH|]. cbn [String.append all_chars].
    now rewrite IH.
  - cbn [all_chars]. now rewrite Hc, IH.
Qed.

Lemma replace_underscore_ascii (s : string) :
  ascii_text s = true -> ascii_text (JS.replace_char "_" "-" s) = true.
Proof.
  unfold ascii_text. induction s as [|c s IH]; [reflexivity|].
  cbn [all_chars JS.replace_char]. intros H. apply andb_prop in H as [Hc Hs].
  destruct (Ascii.eqb c "_").
  - cbn [String.append all_chars]. now rewrite IH.
  - cbn [all_chars]. now rewrite Hc, IH.
Qed.

Lemma uid_opponentSlug_ascii (opponent_ : string) :
  ascii_text opponent_ = true -> ascii_text (uid_opponentSlug opponent_) = true.
Proof.
  intros H. unfold uid_opponentSlug.
  now apply toLowerCase_ascii, replace_underscore_ascii, replace_ws_runs_from_ascii.
Qed.

Lemma feed_opponent_token_ascii (opponent_ : string) :
  ascii_text opponent_ = true -> ascii_text (feed_opponent_token opponent_) = true.
Proof.
  intros H. unfold feed_opponent_token.
  now apply toLowerCase_ascii, replace_ws_runs_from_ascii.
Qed.

(** X11.  For a team slug and an opponent name of ASCII text and a
    timestamp that is a safe integer, the UID of an event is two tokens
    of ASCII text in lexicographic order joined by "-vs-", then the
    timestamp in decimal and the namespace tag; the tokens are the slug
    in lower case and the token of the opponent, which is the name in
    lower case with one hyphen for each run of white space and for each
    underscore. *)
Theorem X11_uid_tokens_in_order (team : TeamInfo) (match_ : MatchData) :
  ascii_text (slug team) = true ->
  ascii_text (opponent match_) = true ->
  safe_integer (timestamp match_) = true ->
  exists first second,
    event_uid team match_ =
      first ++ "-vs-" ++ second ++ "-" ++ JS.Number_toString (timestamp match_)
        ++ "@esports-calendar"
    /\ (first <=? second)%string = true
    /\ ascii_text first = true /\ ascii_text second = true
    /\ exists opponent_token,
         token_spec true (opponent match_) opponent_token
         /\ ((first = lowercase_text (slug team) /\ second = opponent_token)
             \/ (first = opponent_token /\ second = lowercase_text (slug team))).
Proof.
  intros Hslug Hopp _.
  pose proof (toLowerCase_ascii _ Hslug) as Ha.
  pose proof (uid_opponentSlug_ascii _ Hopp) as Hb.
  pose proof (proj2 (uid_token_spec (opponent match_) _) eq_refl) as Hspec.
  unfold event_uid. rewrite sort_pair.
  rewrite <- toLowerCase_lowercase_text.
  destruct (JS.toLowerCase (slug team) <=? uid_opponentSlug (opponent match_))%string
    eqn:E.
  - exists (JS.toLowerCase (slug team)), (uid_opponentSlug (opponent match_)).
    cbn [nth]. repeat split; try assumption.
    exists (uid_opponentSlug (opponent match_)). auto.
  - exists (uid_opponentSlug (opponent match_)), (JS.toLowerCase (slug team)).
    cbn [nth]. split; [reflexivity|]. split; [now apply leb_total|].
    repeat split; try assumption.
    exists (uid_opponentSlug (opponent match_)). auto.
Qed.

Lemma X11_uid_tokens_in_order_witness :
  exists first second,
    event_uid (team TEAM_B) TEAM_B_future =
      first ++ "-vs-" ++ second ++ "-" ++ "1793620800" ++ "@esports-calendar"
    /\ (first <=? second)%string = true
    /\ first = "fnatic" /\ second = "g2_esports".
Proof.
  destruct (X11_uid_tokens_in_order (team TEAM_B) TEAM_B_future eq_refl eq_refl eq_refl)
    as (first & second & Huid & Hle & _ & _ & token & Hspec & Hcases).
  apply uid_token_spec in Hspec.
  exists first, second. split; [exact Huid|]. split; [exact Hle|].
  destruct Hcases as [[-> ->] | [-> ->]].
  - rewrite Hspec in Hle. discriminate Hle.
  - rewrite Hspec. split; reflexivity.
Defined.

Lemma replace_ws_runs_from_no_whitespace (in_run : bool) (s : string) :
  all_chars (fun c => negb (JS.is_whitespace c))
    (JS.replace_ws_runs_from in_run "-" s) = true.
Proof.
  revert in_run. induction s as [|c s IH]; intros in_run; [reflexivity|].
  cbn [JS.replace_ws_runs_from].
  destruct (JS.is_whitespace c) eqn:Ec.
  - destruct in_run; [apply IH|]. cbn [String.append all_chars]. now rewrite IH.
  - cbn [all_chars]. now rewrite Ec, IH.
Qed.

Lemma replace_underscore_token (s : string) :
  all_chars (fun c => negb (JS.is_whitespace c)) s = true ->
  all_chars (fun c => negb (JS.is_whitespace c) && negb (Ascii.eqb c "_"))
    (JS.replace_char "_" "-" s) = true.
Proof.
  induction s as [|c s IH]; [reflexivity|]. cbn [all_chars JS.replace_char].
  intros H. apply andb_prop in H as [Hc Hs].
  destruct (Ascii.eqb c "_") eqn:E.
  - cbn [String.append all_chars]. now rewrite IH.
  - cbn [all_chars]. now rewrite Hc, E, IH.
Qed.

Lemma toLowerCase_token (s : string) :
  all_chars (fun c => negb (JS.is_whitespace c) && negb (Ascii.eqb c "_")) s = true ->
  all_chars token_char (JS.toLowerCase s) = true.
Proof.
  induction s as [|c s IH]; [reflexivity|]. cbn [all_chars JS.toLowerCase].
  intros H. apply andb_prop in H as [Hc Hs]. rewrite (IH Hs).
  unfold token_char. destruct (lower_char_facts c) as (-> & -> & -> & _).
  now rewrite Hc.
Qed.

Lemma toLowerCase_feed_token (s : string) :
  all_chars (fun c => negb (JS.is_whitespace c)) s = true ->
  all_chars feed_token_char (JS.toLowerCase s) = true.
Proof.
  induction s as [|c s IH]; [reflexivity|]. cbn [all_chars JS.toLowerCase].
  intros H. apply andb_prop in H as [Hc Hs]. rewrite (IH Hs).
  unfold feed_token_char. destruct (lower_char_facts c) as (-> & _ & -> & _).
  now rewrite Hc.
Qed.

(** X12.  For an opponent name of ASCII text, the opponent token of a
    UID is ASCII text that holds no white space, no underscore and no
    upper-case letter; the token of a feed id is ASCII text that holds no
    white space and no upper-case letter.  A token that is already of
    that form is left as it is. *)
Theorem X12_tokens_are_normalised (opponent_ : string) :
  ascii_text opponent_ = true ->
  ascii_text (uid_opponentSlug opponent_) = true
  /\ ascii_text (feed_opponent_token opponent_) = true
  /\ all_chars token_char (uid_opponentSlug opponent_) = true
  /\ all_chars feed_token_char (feed_opponent_token opponent_) = true
  /\ uid_opponentSlug (uid_opponentSlug opponent_) = uid_opponentSlug opponent_
  /\ feed_opponent_token (feed_opponent_token opponent_) =
     feed_opponent_token opponent_.
Proof.
  intros Hascii.
  split; [now apply uid_opponentSlug_ascii|].
  split; [now apply feed_opponent_token_ascii|].
  assert (Hws : forall s, all_chars (fun c => negb (JS.is_whitespace c))
                            (JS.replace_ws_runs "-" s) = true).
  { intros s. apply replace_ws_runs_from_no_whitespace. }
  assert (Hfix_ws : forall s, all_chars (fun c => negb (JS.is_whitespace c)) s = true ->
                              forall b, JS.replace_ws_runs_from b "-" s = s).
  { induction s as [|c s IH]; intros H b; [reflexivity|].
    cbn [all_chars] in H. apply andb_prop in H as [Hc Hs].
    apply negb_true_iff in Hc. cbn [JS.replace_ws_runs_from]. rewrite Hc.
    now rewrite IH. }
  assert (Hfix_us : forall s, all_chars (fun c => negb (Ascii.eqb c "_")) s = true ->
                              JS.replace_char "_" "-" s = s).
  { induction s as [|c s IH]; intros H; [reflexivity|].
    cbn [all_chars] in H. apply andb_prop in H as [Hc Hs].
    apply negb_true_iff in Hc. cbn [JS.replace_char]. rewrite Hc. now rewrite IH. }
  assert (Hfix_lc : forall s, all_chars (fun c => negb (JS.is_upper c)) s = true ->
                              JS.toLowerCase s = s).
  { induction s as [|c s IH]; intros H; [reflexivity|].
    cbn [all_chars] in H. apply andb_prop in H as [Hc Hs].
    apply negb_true_iff in Hc. cbn [JS.toLowerCase]. unfold JS.lower_char at 1.
    rewrite Hc. now rewrite IH. }
  assert (Huid : all_chars token_char (uid_opponentSlug opponent_) = true).
  { unfold uid_opponentSlug. apply toLowerCase_token, replace_underscore_token, Hws. }
  assert (Hfeed : all_chars feed_token_char (feed_opponent_token opponent_) = true).
  { unfold feed_opponent_token. apply toLowerCase_feed_token, Hws. }
  split; [exact Huid|]. split; [exact Hfeed|]. split.
  - set (t := uid_opponentSlug opponent_) in *. unfold uid_opponentSlug at 1.
    unfold JS.replace_ws_runs.
    rewrite Hfix_ws, Hfix_us, Hfix_lc; [reflexivity| | |];
      (eapply all_chars_impl; [|exact Huid]); unfold token_char; intros c Hc;
      apply andb_prop in Hc as [Hc ?]; apply andb_prop in Hc as [? ?]; assumption.
  - set (t := feed_opponent_token opponent_) in *. unfold feed_opponent_token at 1.
    unfold JS.replace_ws_runs.
    rewrite Hfix_ws, Hfix_lc; [reflexivity| |];
      (eapply all_chars_impl; [|exact Hfeed]); unfold feed_token_char; intros c Hc;
      apply andb_prop in Hc as [? ?]; assumption.
Qed.

Lemma X12_tokens_are_normalised_witness :
  all_chars token_char (uid_opponentSlug "MAD  Lions_KOI") = true
  /\ uid_opponentSlug "MAD  Lions_KOI" = "mad-lions-koi"
  /\ feed_opponent_token "MAD  Lions_KOI" = "mad-lions_koi".
Proof.
  pose proof (X12_tokens_are_normalised "MAD  Lions_KOI" eq_refl)
    as (_ & _ & H & _).
  split; [exact H|]. split; reflexivity.
Defined.


(** ** Escaping, composed and undone *)

Lemma icsEscape_append (s1 s2 : string) :
  icsEscape (s1 ++ s2) = icsEscape s1 ++ icsEscape s2.
Proof.
  induction s1 as [|c s1 IH]; [reflexivity|]. cbn [String.append icsEscape].
  destruct (ics_special c); cbn [String.append]; now rewrite IH.
Qed.

(** X13.  The description of an event is the escaping of one text: the
    tournament, then the link when the match has one, then the marker
    when the match is completed, each after the two characters backslash
    and n written twice.  Escaping the parts one by one, as the code
    does, gives the escaping of the whole, and undoing the escapes gives
    the text back. *)
Theorem X13_description_is_escaped_text (match_ : MatchData) :
  event_description match_ = icsEscape (raw_description match_)
  /\ icsUnescape (event_description match_) = raw_description match_
  /\ (forall s1 s2, icsEscape (s1 ++ s2) = icsEscape s1 ++ icsEscape s2).
Proof.
  assert (E : event_description match_ = icsEscape (raw_description match_)).
  { unfold event_description, raw_description.
    destruct (JS.truthy (url match_)), (negb (is_upcoming match_));
      rewrite !icsEscape_append, ?append_assoc;
      change (icsEscape "") with ""; rewrite ?append_nil_r; reflexivity. }
  split; [exact E|]. split; [|apply icsEscape_append].
  rewrite E. apply icsUnescape_icsEscape.
Qed.

Lemma prefix_append (a post : string) : String.prefix a (a ++ post) = true.
Proof. apply prefix_iff. now exists post. Qed.

Lemma xmlUnescape_entity (c : ascii) (rest : string) :
  xmlUnescape_from 0 (xml_entity c ++ rest) = String c (xmlUnescape_from 0 rest).
Proof.
  unfold xml_entity.
  case_char c "&"%char.
  { change ("&amp;" ++ rest) with (String "&" ("amp;" ++ rest)).
    cbn [xmlUnescape_from]. change (Ascii.eqb "&" "&") with true. cbv iota.
    rewrite prefix_append. reflexivity. }
  case_char c "<"%char.
  { change ("&lt;" ++ rest) with (String "&" ("lt;" ++ rest)).
    cbn [xmlUnescape_from]. change (Ascii.eqb "&" "&") with true. cbv iota.
    rewrite prefix_append.
    destruct (String.prefix "amp;" ("lt;" ++ rest)) eqn:E; [|reflexivity].
    apply prefix_iff in E as [post E]. discriminate E. }
  case_char c ">"%char.
  { change ("&gt;" ++ rest) with (String "&" ("gt;" ++ rest)).
    cbn [xmlUnescape_from]. change (Ascii.eqb "&" "&") with true. cbv iota.
    rewrite prefix_append.
    destruct (String.prefix "amp;" ("gt;" ++ rest)) eqn:E1;
      [apply prefix_iff in E1 as [post E1]; discriminate E1|].
    destruct (String.prefix "lt;" ("gt;" ++ rest)) eqn:E2;
      [apply prefix_iff in E2 as [post E2]; discriminate E2|].
    reflexivity. }
  case_char c JS.dquote.
  { change ("&quot;" ++ rest) with (String "&" ("quot;" ++ rest)).
    cbn [xmlUnescape_from]. change (Ascii.eqb "&" "&") with true. cbv iota.
    rewrite prefix_append.
    destruct (String.prefix "amp;" ("quot;" ++ rest)) eqn:E1;
      [apply prefix_iff in E1 as [post E1]; discriminate E1|].
    destruct (String.prefix "lt;" ("quot;" ++ rest)) eqn:E2;
      [apply prefix_iff in E2 as [post E2]; discriminate E2|].
    destruct (String.prefix "gt;" ("quot;" ++ rest)) eqn:E3;
      [apply prefix_iff in E3 as [post E3]; discriminate E3|].
    reflexivity. }
  case_char c "'"%char.
  { change ("&apos;" ++ rest) with (String "&" ("apos;" ++ rest)).
    cbn [xmlUnescape_from]. change (Ascii.eqb "&" "&") with true. cbv iota.
    rewrite prefix_append.
    destruct (String.prefix "amp;" ("apos;" ++ rest)) eqn:E1;
      [apply prefix_iff in E1 as [post E1]; discriminate E1|].
    destruct (String.prefix "lt;" ("apos;" ++ rest)) eqn:E2;
      [apply prefix_iff in E2 as [post E2]; discriminate E2|].
    destruct (String.prefix "gt;" ("apos;" ++ rest)) eqn:E3;
      [apply prefix_iff in E3 as [post E3]; discriminate E3|].
    destruct (String.prefix "quot;" ("apos;" ++ rest)) eqn:E4;
      [apply prefix_iff in E4 as [post E4]; discriminate E4|].
    reflexivity. }
  cbn [String.append xmlUnescape_from].
  now rewrite (proj2 (Ascii.eqb_neq c "&"%char)) by assumption.
Qed.

(** X14.  Escaped XML text reads back as the text it was made from:
    replacing each of the five entities by its character undoes
    [xmlEscape], for every text, also one that already holds entities.
    [xmlEscape] of two texts joined is the two escaped texts joined. *)
Theorem X14_xmlEscape_round_trip (text : string) :
  xmlUnescape (xmlEscape text) = text
  /\ (forall s1 s2, xmlEscape (s1 ++ s2) = xmlEscape s1 ++ xmlEscape s2).
Proof.
  split; [|apply xmlEscape_append].
  rewrite xmlEscape_entities. unfold xmlUnescape.
  induction text as [|c text IH]; [reflexivity|].
  cbn [xml_entities]. now rewrite xmlUnescape_entity, IH.
Qed.

(** ** The order of equal times *)

Section SortStable.
Context {A : Type}.
Variable comparefn : A -> A -> option Z.
Variable key : A -> Z.
Variable good : A -> Prop.

Hypothesis comparefn_descending :
  forall x y, good x -> good y ->
    (JS.SortCompare comparefn x y <=? 0) = (key y <=? key x).

Lemma sort_insert_stable (t : Z) (x : A) (l : list A) :
  good x -> Forall good l ->
  filter (fun y => key y =? t) (JS.sort_insert comparefn x l) =
  filter (fun y => key y =? t) (x :: l).
Proof.
  intros Hx Hl. induction Hl as [|y l Hy Hl IH]; [reflexivity|].
  cbn [JS.sort_insert]. rewrite (comparefn_descending x y Hx Hy).
  destruct (Z.leb_spec (key y) (key x)) as [Hle|Hgt]; [reflexivity|].
  cbn [filter] in *. rewrite IH.
  destruct (Z.eqb_spec (key x) t), (Z.eqb_spec (key y) t); try reflexivity. lia.
Qed.

Lemma Array_sort_stable (t : Z) (l : list A) :
  Forall good l ->
  filter (fun y => key y =? t) (JS.Array_sort comparefn l) =
  filter (fun y => key y =? t) l.
Proof.
  induction 1 as [|x l Hx Hl IH]; [reflexivity|]. cbn [JS.Array_sort].
  rewrite sort_insert_stable.
  - cbn [filter]. now rewrite IH.
  - exact Hx.
  - eapply Permutation_Forall; [apply Array_sort_permutation | exact Hl].
Qed.

End SortStable.

(** X15.  Both feeds keep matches of equal time in the order of the
    request, team by team and match by match: among the sorted matches
    of the Atom feed, and among the items of the JSON Feed, those of any
    one time are in the order in which the loops met them. *)
Theorem X15_feeds_keep_order_of_equal_times
    (teams : list TeamData) (requestUrl : URL) (t : Z) :
  filter (fun p => match_time p =? t) (atom_allMatches teams) =
  filter (fun p => match_time p =? t) (all_matches teams)
  /\ match generateJSONFeed teams requestUrl with
     | Some feed =>
         exists unsorted,
           Forall2 (fun p item => feed_item (fst p) (snd p) = Some item)
             (all_matches teams) unsorted
           /\ filter (fun item => published_key item =? t) (items feed) =
              filter (fun item => published_key item =? t) unsorted
     | None => True
     end.
Proof.
  split.
  - destruct (atom_allMatches_sorted teams) as (-> & _ & _).
    apply (Array_sort_stable allMatches_comparefn match_time (fun _ => True)
             allMatches_comparefn_descending).
    apply Forall_forall. auto.
  - pose proof (generateJSONFeed_items teams requestUrl) as H.
    destruct (generateJSONFeed teams requestUrl) as [feed|]; [|exact I].
    destruct (traverse (fun p => feed_item (fst p) (snd p)) (all_matches teams))
      as [unsorted|] eqn:Et; [|discriminate].
    cbn [option_map] in H. injection H as ->.
    apply traverse_Some in Et. exists unsorted. split; [exact Et|].
    destruct (feed_items_published _ _ Et) as [_ Hgood].
    apply (Array_sort_stable items_comparefn published_key
             (fun item => published_time item <> None)
             items_comparefn_descending). exact Hgood.
Qed.

(** X16.  When [generateJSONFeed] returns a feed, its items are the
    items of the matches, one for each match of each team, none left out
    and none twice; with no match at all it returns a feed without
    items. *)
Theorem X16_json_feed_has_one_item_per_match
    (teams : list TeamData) (requestUrl : URL) :
  match generateJSONFeed teams requestUrl with
  | Some feed =>
      exists unsorted,
        Forall2 (fun p item => feed_item (fst p) (snd p) = Some item)
          (all_matches teams) unsorted
        /\ Permutation unsorted (items feed)
        /\ List.length (items feed) = List.length (all_matches teams)
  | None => all_matches teams <> []
  end.
Proof.
  pose proof (generateJSONFeed_items teams requestUrl) as H.
  destruct (generateJSONFeed teams requestUrl) as [feed|];
    destruct (traverse (fun p => feed_item (fst p) (snd p)) (all_matches teams))
      as [unsorted|] eqn:Et; try discriminate H.
  - cbn [option_map] in H. injection H as ->.
    apply traverse_Some in Et. exists unsorted. split; [exact Et|]. split.
    + apply Array_sort_permutation.
    + rewrite <- (Permutation_length (Array_sort_permutation items_comparefn unsorted)).
      symmetry. exact (Forall2_length Et).
  - intros E. rewrite E in Et. discriminate.
Qed.

(** ** The events of a calendar *)

Lemma count_occ_absent (l : list string) (x : string) :
  ~ In x l -> count_occ string_dec l x = 0%nat.
Proof. apply count_occ_not_In. Qed.

Lemma event_line_counts (team : TeamInfo) (match_ : MatchData) (reminderMinutes : Z) :
  count_occ string_dec (generateVEvent team match_ reminderMinutes) "BEGIN:VEVENT" = 1%nat
  /\ count_occ string_dec (generateVEvent team match_ reminderMinutes) "END:VEVENT" = 1%nat
  /\ count_occ string_dec (generateVEvent team match_ reminderMinutes) "BEGIN:VALARM" =
     (if is_upcoming match_ && (0 <? reminderMinutes) then 1%nat else 0%nat).
Proof.
  rewrite generateVEvent_shape. unfold valarm_block.
  split; [|split].
  - cbn [app]. rewrite count_occ_cons_eq by reflexivity. f_equal.
    apply count_occ_absent. intros H. cbn [In] in H. line_cases.
  - rewrite !app_assoc, count_occ_app.
    rewrite (count_occ_absent (_ ++ _)%list).
    + cbn [count_occ]. destruct (string_dec "END:VEVENT" "END:VEVENT"); [reflexivity|].
      congruence.
    + intros H. line_cases.
  - rewrite !count_occ_app.
    rewrite (count_occ_absent (_ :: _)) by (intros H; line_cases).
    rewrite (count_occ_absent (if JS.truthy _ then _ else _)) by (intros H; line_cases).
    rewrite (count_occ_absent (if negb _ then _ else _)) by (intros H; line_cases).
    rewrite (count_occ_absent ["END:VEVENT"]) by (intros H; line_cases).
    destruct (is_upcoming match_ && (0 <? reminderMinutes)); [|reflexivity].
    rewrite count_occ_cons_eq by reflexivity.
    rewrite count_occ_absent; [reflexivity|]. intros H. line_cases.
Qed.

Lemma count_occ_flat_map {A : Type} (f : A -> list string) (x : string)
    (n : A -> nat) (l : list A) :
  (forall a, count_occ string_dec (f a) x = n a) ->
  count_occ string_dec (flat_map f l) x = list_sum (map n l).
Proof.
  intros H. induction l as [|a l IH]; [reflexivity|].
  cbn [flat_map map list_sum]. now rewrite count_occ_app, H, IH.
Qed.

Lemma list_sum_ones {A : Type} (l : list A) :
  list_sum (map (fun _ => 1%nat) l) = List.length l.
Proof. induction l; simpl; congruence. Qed.

Lemma list_sum_indicator {A : Type} (p : A -> bool) (l : list A) :
  list_sum (map (fun a => if p a then 1%nat else 0%nat) l) =
  List.length (filter p l).
Proof.
  induction l as [|a l IH]; [reflexivity|]. cbn [map list_sum filter].
  destruct (p a); simpl; now rewrite IH.
Qed.

(** X17.  The calendar [generateICS] returns is its seven head lines,
    the lines of the events and the closing line, joined and ended by
    CRLF.  Among the lines of the events there is one BEGIN:VEVENT and
    one END:VEVENT for every match of every team, and one BEGIN:VALARM
    for every upcoming match when the reminder is positive, none when it
    is 0. *)
Theorem X17_calendar_has_one_event_per_match
    (teams : list TeamData) (reminderMinutes : Z) :
  generateICS teams reminderMinutes =
    JS.join JS.CRLF
      (app [ "BEGIN:VCALENDAR";
             "VERSION:2.0";
             "PRODID:-//Esports Calendar//" ++
               JS.join ", " (map (fun t => name (team t)) teams) ++ "//";
             "CALSCALE:GREGORIAN";
             "METHOD:PUBLISH";
             "X-WR-CALNAME:" ++
               JS.join ", " (map (fun t => name (team t)) teams) ++ " Matches";
             "X-PUBLISHED-TTL:PT4H" ]
         (app (event_lines teams reminderMinutes) [ "END:VCALENDAR" ]))
    ++ JS.CRLF
  /\ count_occ string_dec (event_lines teams reminderMinutes) "BEGIN:VEVENT" =
     List.length (all_matches teams)
  /\ count_occ string_dec (event_lines teams reminderMinutes) "END:VEVENT" =
     List.length (all_matches teams)
  /\ count_occ string_dec (event_lines teams reminderMinutes) "BEGIN:VALARM" =
     (if 0 <? reminderMinutes
      then List.length (filter (fun p => is_upcoming (snd p)) (all_matches teams))
      else 0%nat).
Proof.
  split; [apply generateICS_events|]. unfold event_lines.
  split; [|split].
  - rewrite (count_occ_flat_map _ _ (fun _ => 1%nat)); [apply list_sum_ones|].
    intros p. apply event_line_counts.
  - rewrite (count_occ_flat_map _ _ (fun _ => 1%nat)); [apply list_sum_ones|].
    intros p. apply event_line_counts.
  - rewrite (count_occ_flat_map _ _
               (fun p => if is_upcoming (snd p) && (0 <? reminderMinutes)
                         then 1%nat else 0%nat));
      [|intros p; apply event_line_counts].
    destruct (0 <? reminderMinutes).
    + rewrite <- list_sum_indicator. f_equal. apply map_ext.
      intros p. now rewrite andb_true_r.
    + induction (all_matches teams) as [|p l IH]; [reflexivity|].
      cbn [map list_sum]. rewrite andb_false_r. exact IH.
Qed.

Ltac url_cases :=
  repeat (line_cases;
          match goal with
          | H : _ = (_ ++ _)%string |- _ => cbn [String.append] in H
          end);
  line_cases.

(** X18.  The lines of an event hold a URL property exactly when the
    match has a non-empty url, and the line is then "URL:" followed by
    the url as it is, not escaped. *)
Theorem X18_url_line_iff_url
    (team : TeamInfo) (match_ : MatchData) (reminderMinutes : Z) :
  (In ("URL:" ++ url match_) (generateVEvent team match_ reminderMinutes)
   <-> url match_ <> "")
  /\ existsb (String.prefix "URL:") (generateVEvent team match_ reminderMinutes) =
     JS.truthy (url match_)
  /\ count_occ string_dec (generateVEvent team match_ reminderMinutes)
       ("URL:" ++ url match_) = (if JS.truthy (url match_) then 1%nat else 0%nat).
Proof.
  rewrite generateVEvent_shape. unfold valarm_block. split; [|split].
  - split.
    + intros H E. rewrite E in H. cbn [JS.truthy] in H.
      change ("URL:" ++ "") with "URL:" in H. line_cases.
    + intros Hne. destruct (url match_) as [|c u] eqn:E; [congruence|].
      cbn [JS.truthy]. rewrite !in_app_iff. right. left. now left.
  - rewrite !existsb_app.
    destruct (url match_) as [|c u], (negb (is_upcoming match_)),
      (is_upcoming match_ && (0 <? reminderMinutes));
      cbn [JS.truthy existsb String.append orb]; unfold String.prefix;
      repeat match goal with
             | |- context [ascii_dec ?a ?b] => destruct (ascii_dec a b); try congruence
             end; reflexivity.
  - rewrite !count_occ_app.
    rewrite (count_occ_absent (_ :: _)) by (intros H; url_cases).
    rewrite (count_occ_absent (if negb _ then _ else _)) by (intros H; url_cases).
    rewrite (count_occ_absent (if _ && _ then _ else _)) by (intros H; url_cases).
    rewrite (count_occ_absent ["END:VEVENT"]) by (intros H; url_cases).
    destruct (JS.truthy (url match_)); [|reflexivity].
    cbn [count_occ]. destruct (string_dec _ _); [reflexivity | congruence].
Qed.

(** ** A filter that no match passes *)

Lemma filter_none {A : Type} (p : A -> bool) (l : list A) :
  forallb (fun x => negb (p x)) l = true -> filter p l = [].
Proof.
  induction l as [|x l IH]; [reflexivity|]. cbn [forallb filter].
  intros H. apply andb_prop in H as [Hx Hl].
  destruct (p x); [discriminate|]. now apply IH.
Qed.

Lemma filter_stage_no_match (tournamentFilter : string) (teamDataList : list TeamData) :
  tournamentFilter <> "" ->
  no_match_passes tournamentFilter teamDataList = true ->
  filter_stage tournamentFilter teamDataList = map without_matches teamDataList.
Proof.
  intros Hne H. unfold filter_stage.
  destruct tournamentFilter as [|c f]; [congruence|]. cbn [JS.truthy].
  induction teamDataList as [|t l IH]; [reflexivity|].
  cbn [no_match_passes forallb] in H. apply andb_prop in H as [Ht Hl].
  cbn [map]. rewrite (IH Hl). unfold without_matches at 2.
  now rewrite (filter_none _ _ Ht).
Qed.

Lemma all_matches_without (teams : list TeamData) :
  all_matches (map without_matches teams) = [].
Proof. induction teams as [|t l IH]; [reflexivity|]. cbn. exact IH. Qed.

Lemma generateICS_without_matches (teams : list TeamData) (reminderMinutes : Z) :
  generateICS (map without_matches teams) reminderMinutes = empty_calendar teams.
Proof.
  rewrite generateICS_events, all_matches_without, map_map.
  reflexivity.
Qed.

(** X19.  A GET request for the calendar (no format, an empty one or
    ics) whose tournament filter no match of the loaded teams passes is
    still answered 200: the body is the calendar of the loaded teams with
    every team name in its head and no event.  The 404 is for teams that
    could not be loaded only.  The filter and the tournaments are ASCII
    text, on which the lower-casing of the embedding is that of the
    code. *)
Theorem X19_filter_without_match_gives_empty_calendar
    (context : Context) (tournamentFilter : string) (reminderMinutes : Z) :
  let url := request_url (request context) in
  let teamsParam := JS.or_default (searchParams_get "teams" (searchParams url)) "" in
  let slugs := filter JS.truthy (map JS.trim (JS.split_on "," teamsParam)) in
  let teamDataList := load_teams (env context) url slugs in
  method (request context) = "GET" ->
  reminder_stage (searchParams_get "reminder" (searchParams url)) = inr reminderMinutes ->
  JS.or_default (searchParams_get "format" (searchParams url)) "ics" = "ics" ->
  searchParams_get "tournament" (searchParams url) = Some tournamentFilter ->
  tournamentFilter <> "" ->
  ascii_text tournamentFilter = true ->
  find (fun slug => negb (SLUG_PATTERN_test slug)) slugs = None ->
  teamDataList <> [] ->
  ascii_tournaments teamDataList = true ->
  no_match_passes tournamentFilter teamDataList = true ->
  onRequest context =
  Some (corsResponse
    {| status := 200;
       headers := [ ("Content-Type", "text/calendar; charset=utf-8");
                    ("Cache-Control", "public, max-age=3600");
                    ("Content-Disposition",
                     "inline; filename=" ++ q ++ "esports-calendar.ics" ++ q) ];
       body := BodyText (empty_calendar teamDataList) |}).
Proof.
  intros url teamsParam slugs teamDataList Hm Hr Hf Ht Hne _ Hvalid Hloaded _ Hnone.
  unfold onRequest. rewrite Hm. cbn [String.eqb Ascii.eqb Bool.eqb negb].
  fold url. rewrite Hr, Ht, Hf. fold teamsParam.
  unfold teams_stage. fold slugs. rewrite Hvalid. fold teamDataList.
  assert (Hs : slugs <> []).
  { intros E. apply Hloaded. unfold teamDataList. now rewrite E. }
  rewrite <- (generateICS_without_matches teamDataList reminderMinutes).
  rewrite <- (filter_stage_no_match tournamentFilter teamDataList Hne Hnone).
  clearbody teamDataList. clearbody slugs.
  destruct slugs as [|slug0 slugs']; [congruence|].
  destruct teamDataList as [|t0 ts]; [congruence|].
  destruct tournamentFilter as [|c f]; [congruence|]. reflexivity.
Qed.

Lemma X19_filter_without_match_gives_empty_calendar_witness :
  option_map status
    (onRequest (mock_context
       "https://example.com/api/calendar?teams=Fnatic,G2_Esports&format=ics&tournament=worlds"
       [("teams", "Fnatic,G2_Esports"); ("format", "ics"); ("tournament", "worlds")]))
    = Some 200
  /\ option_map body
    (onRequest (mock_context
       "https://example.com/api/calendar?teams=Fnatic,G2_Esports&format=ics&tournament=worlds"
       [("teams", "Fnatic,G2_Esports"); ("format", "ics"); ("tournament", "worlds")])) =
     Some (BodyText (empty_calendar [TEAM_A; TEAM_B])).
Proof.
  rewrite (X19_filter_without_match_gives_empty_calendar
    (mock_context
       "https://example.com/api/calendar?teams=Fnatic,G2_Esports&format=ics&tournament=worlds"
       [("teams", "Fnatic,G2_Esports"); ("format", "ics"); ("tournament", "worlds")])
    "worlds" 30 eq_refl eq_refl eq_refl eq_refl).
  - split; reflexivity.
  - discriminate.
  - reflexivity.
  - reflexivity.
  - discriminate.
  - reflexivity.
  - reflexivity.
Defined.

(** ** The reminder parameter *)

(** X20.  A reminder from 0 to 1440 written in decimal is accepted and
    becomes the reminder of the request: both ends of the range are
    allowed. *)
Theorem X20_reminder_in_range_is_accepted (r : Z) (H : 0 <= r <= 1440) :
  reminder_stage (Some (JS.Number_toString r)) = inr r.
Proof.
  assert (E : reminder_accepted_as_itself r = true).
  { apply (check_range_spec reminder_accepted_as_itself (Z.to_nat 1441) 0).
    - vm_compute. reflexivity.
    - lia. }
  unfold reminder_accepted_as_itself in E.
  destruct (reminder_stage _) as [resp|n]; [discriminate|].
  apply Z.eqb_eq in E. now subst n.
Qed.

Lemma X20_reminder_in_range_is_accepted_witness :
  reminder_stage (Some "1440") = inr 1440.
Proof.
  apply (X20_reminder_in_range_is_accepted 1440). lia.
Defined.

(** ** The order of the checks *)

Lemma find_first_invalid (valid : list string) (bad : string) (rest : list string) :
  Forall (fun s => SLUG_PATTERN_test s = true) valid ->
  SLUG_PATTERN_test bad = false ->
  find (fun slug => negb (SLUG_PATTERN_test slug)) (valid ++ bad :: rest)%list = Some bad.
Proof.
  intros Hv Hb. induction Hv as [|s l Hs _ IH]; cbn [app find].
  - now rewrite Hb.
  - now rewrite Hs.
Qed.

(** X21.  A GET request with an acceptable reminder and a [teams]
    parameter of ASCII text one of whose slugs is not valid gets the 400
    response that names the first such slug, as it was written between
    the commas and the white space around it; the stored data, the format
    and the filter play no part, and nothing is loaded. *)
Theorem X21_first_invalid_slug_is_reported
    (context : Context) (reminderMinutes : Z)
    (valid : list string) (bad : string) (rest : list string) :
  let url := request_url (request context) in
  let teamsParam := JS.or_default (searchParams_get "teams" (searchParams url)) "" in
  method (request context) = "GET" ->
  reminder_stage (searchParams_get "reminder" (searchParams url)) = inr reminderMinutes ->
  ascii_text teamsParam = true ->
  filter JS.truthy (map JS.trim (JS.split_on "," teamsParam)) =
    (valid ++ bad :: rest)%list ->
  Forall (fun s => SLUG_PATTERN_test s = true) valid ->
  SLUG_PATTERN_test bad = false ->
  onRequest context =
  Some (corsResponse (text_response ("Invalid team slug: " ++ bad) 400)).
Proof.
  intros url teamsParam Hm Hr _ Hs Hv Hb.
  unfold onRequest. rewrite Hm. cbn [String.eqb Ascii.eqb Bool.eqb negb].
  fold url. rewrite Hr. fold teamsParam.
  unfold teams_stage. rewrite Hs, (find_first_invalid valid bad rest Hv Hb).
  destruct valid; reflexivity.
Qed.

Lemma X21_first_invalid_slug_is_reported_witness :
  onRequest (mock_context
    "https://example.com/api/calendar?teams=Fnatic,../secret,b@d&format=json"
    [("teams", "Fnatic,../secret,b@d"); ("format", "json")]) =
  Some (corsResponse (text_response "Invalid team slug: ../secret" 400)).
Proof.
  apply (X21_first_invalid_slug_is_reported
    (mock_context
       "https://example.com/api/calendar?teams=Fnatic,../secret,b@d&format=json"
       [("teams", "Fnatic,../secret,b@d"); ("format", "json")])
    30 ["Fnatic"] "../secret" ["b@d"]).
  - reflexivity.
  - reflexivity.
  - reflexivity.
  - reflexivity.
  - repeat constructor.
  - reflexivity.
Defined.

(** X22.  A GET request with an acceptable reminder and valid slugs none
    of which can be loaded gets the 404 response, whatever the format and
    the filter: an unknown format is not looked at before the data. *)
Theorem X22_no_data_is_404_whatever_the_format
    (context : Context) (reminderMinutes : Z) :
  let url := request_url (request context) in
  let teamsParam := JS.or_default (searchParams_get "teams" (searchParams url)) "" in
  let slugs := filter JS.truthy (map JS.trim (JS.split_on "," teamsParam)) in
  method (request context) = "GET" ->
  reminder_stage (searchParams_get "reminder" (searchParams url)) = inr reminderMinutes ->
  slugs <> [] ->
  find (fun slug => negb (SLUG_PATTERN_test slug)) slugs = None ->
  load_teams (env context) url slugs = [] ->
  onRequest context =
  Some (corsResponse (text_response "No data found for the requested teams" 404)).
Proof.
  intros url teamsParam slugs Hm Hr Hs Hvalid Hnone.
  unfold onRequest. rewrite Hm. cbn [String.eqb Ascii.eqb Bool.eqb negb].
  fold url. rewrite Hr. fold teamsParam.
  unfold teams_stage. fold slugs. rewrite Hvalid, Hnone.
  destruct slugs; [congruence | reflexivity].
Qed.

Lemma X22_no_data_is_404_whatever_the_format_witness :
  onRequest (mock_context
    "https://example.com/api/calendar?teams=Unknown_Team&format=pdf"
    [("teams", "Unknown_Team"); ("format", "pdf")]) =
  Some (corsResponse (text_response "No data found for the requested teams" 404)).
Proof.
  apply (X22_no_data_is_404_whatever_the_format
    (mock_context
       "https://example.com/api/calendar?teams=Unknown_Team&format=pdf"
       [("teams", "Unknown_Team"); ("format", "pdf")])
    30).
  - reflexivity.
  - reflexivity.
  - discriminate.
  - reflexivity.
  - reflexivity.
Defined.

(** X23.  A GET request that passes the reminder, slug and loading checks
    and asks for a format other than ics, json and rss, compared as
    written, gets the 400 response that lists the formats; no date is
    printed for it, so it never throws. *)
Theorem X23_unknown_format_is_400_after_loading
    (context : Context) (reminderMinutes : Z) (format : string) :
  let url := request_url (request context) in
  let teamsParam := JS.or_default (searchParams_get "teams" (searchParams url)) "" in
  let slugs := filter JS.truthy (map JS.trim (JS.split_on "," teamsParam)) in
  method (request context) = "GET" ->
  reminder_stage (searchParams_get "reminder" (searchParams url)) = inr reminderMinutes ->
  searchParams_get "format" (searchParams url) = Some format ->
  format <> "" -> format <> "ics" -> format <> "json" -> format <> "rss" ->
  find (fun slug => negb (SLUG_PATTERN_test slug)) slugs = None ->
  load_teams (env context) url slugs <> [] ->
  onRequest context =
  Some (corsResponse (text_response "Unknown format. Use: ics, json, or rss" 400)).
Proof.
  intros url teamsParam slugs Hm Hr Hf H0 H1 H2 H3 Hvalid Hloaded.
  unfold onRequest. rewrite Hm. cbn [String.eqb Ascii.eqb Bool.eqb negb].
  fold url. rewrite Hr, Hf. fold teamsParam.
  unfold teams_stage. fold slugs. rewrite Hvalid.
  assert (Hs : slugs <> []).
  { intros E. apply Hloaded. now rewrite E. }
  destruct slugs as [|slug0 slugs']; [congruence|].
  destruct (load_teams _ _ _) as [|t0 ts]; [congruence|].
  unfold render_stage.
  destruct format as [|c f]; [congruence|].
  unfold JS.or_default, JS.or_else. cbn [JS.truthy].
  apply String.eqb_neq in H1, H2, H3. now rewrite H1, H2, H3.
Qed.

Lemma X23_unknown_format_is_400_after_loading_witness :
  onRequest (mock_context
    "https://example.com/api/calendar?teams=Fnatic&format=ICS"
    [("teams", "Fnatic"); ("format", "ICS")]) =
  Some (corsResponse (text_response "Unknown format. Use: ics, json, or rss" 400)).
Proof.
  apply (X23_unknown_format_is_400_after_loading
    (mock_context
       "https://example.com/api/calendar?teams=Fnatic&format=ICS"
       [("teams", "Fnatic"); ("format", "ICS")])
    30 "ICS"); try reflexivity; discriminate.
Defined.
(** ** The clock *)

Lemma render_stage_clock (format : string) (teamDataList : list TeamData)
    (reminderMinutes : Z) (url_ : URL) (now1 now2 : Z) :
  format <> "rss" ->
  render_stage format teamDataList reminderMinutes url_ now1 =
  render_stage format teamDataList reminderMinutes url_ now2.
Proof.
  intros Hf. unfold render_stage.
  destruct (String.eqb format "ics"); [reflexivity|].
  destruct (String.eqb format "json"); [reflexivity|].
  destruct (String.eqb_spec format "rss"); [congruence | reflexivity].
Qed.

(** X24.  Only the Atom feed reads the clock: two requests that differ in
    nothing but the time at which they are served, for any format other
    than rss, get the same response.  In particular no line of the
    calendar records when it was produced. *)
Theorem X24_only_atom_reads_the_clock (context1 context2 : Context) :
  request context1 = request context2 ->
  env context1 = env context2 ->
  JS.or_default
    (searchParams_get "format" (searchParams (request_url (request context1)))) "ics"
    <> "rss" ->
  onRequest context1 = onRequest context2.
Proof.
  intros Hr He Hf. unfold onRequest. rewrite <- Hr.
  destruct (String.eqb _ "OPTIONS"); [reflexivity|].
  destruct (negb _); [reflexivity|].
  destruct (reminder_stage _) as [resp|r]; [reflexivity|].
  unfold teams_stage. rewrite <- He.
  destruct (filter JS.truthy _) as [|s0 slugs]; [reflexivity|].
  destruct (find _ _); [reflexivity|].
  destruct (load_teams _ _ _) as [|t0 ts]; [reflexivity|].
  now apply render_stage_clock.
Qed.

Lemma X24_only_atom_reads_the_clock_witness :
  onRequest (mock_context "https://example.com/api/calendar?teams=Fnatic&format=json"
               [("teams", "Fnatic"); ("format", "json")]) =
  onRequest
    {| request :=
         request (mock_context "https://example.com/api/calendar?teams=Fnatic&format=json"
                    [("teams", "Fnatic"); ("format", "json")]);
       env := mock_env;
       clock := 0 |}.
Proof.
  apply (X24_only_atom_reads_the_clock
    (mock_context "https://example.com/api/calendar?teams=Fnatic&format=json"
       [("teams", "Fnatic"); ("format", "json")])
    {| request :=
         request (mock_context "https://example.com/api/calendar?teams=Fnatic&format=json"
                    [("teams", "Fnatic"); ("format", "json")]);
       env := mock_env;
       clock := 0 |}).
  - reflexivity.
  - reflexivity.
  - discriminate.
Defined.


(** ** The scenarios of the test suite, evaluated *)

Example toISOString_values :
  JS.toISOString (JS.Date_of_number 0) = Some "1970-01-01T00:00:00.000Z"
  /\ JS.toISOString (JS.Date_of_number 1700000000000) = Some "2023-11-14T22:13:20.000Z"
  /\ JS.toISOString (JS.Date_of_number (-1)) = Some "1969-12-31T23:59:59.999Z"
  /\ JS.toISOString (JS.Date_of_number 8640000000000000) =
     Some "+275760-09-13T00:00:00.000Z"
  /\ JS.toISOString (JS.Date_of_number (-8640000000000000)) =
     Some "-271821-04-20T00:00:00.000Z"
  /\ JS.toISOString (JS.Date_of_number 8640000000000001) = None.
Proof. repeat split; reflexivity. Qed.

Example formatICSDate_values :
  formatICSDate FUTURE_TS = "20261102T120000Z"
  /\ formatICSDate (FUTURE_TS + 2 * 60 * 60) = "20261102T140000Z"
  /\ formatICSDate 951782400 = "20000229T000000Z"
  /\ formatICSDate 8640000000001 = "NaNNaNNaNTNaNNaNNaNZ".
Proof. repeat split; reflexivity. Qed.

Example upcoming_event_of_the_suite :
  generateVEvent (team TEAM_A) TEAM_A_future 30 =
  [ "BEGIN:VEVENT";
    "UID:fnatic-vs-g2-esports-1793620800@esports-calendar";
    "DTSTART:20261102T120000Z";
    "DTEND:20261102T140000Z";
    "SUMMARY:🇪🇺 FNC vs G2 Esports";
    "DESCRIPTION:Tournament: LEC 2025 Spring\\n\\nMore info: https://liquipedia.net/leagueoflegends/LEC/2025";
    "STATUS:CONFIRMED";
    "URL:https://liquipedia.net/leagueoflegends/LEC/2025";
    "BEGIN:VALARM";
    "ACTION:DISPLAY";
    "DESCRIPTION:Fnatic vs G2 Esports starts in 30 minutes!";
    "TRIGGER:-PT30M";
    "END:VALARM";
    "END:VEVENT" ].
Proof. vm_compute. reflexivity. Qed.

Example completed_event_of_the_suite :
  generateVEvent (team TEAM_A) TEAM_A_past 30 =
  [ "BEGIN:VEVENT";
    "UID:fnatic-vs-mad-lions-1793448000@esports-calendar";
    "DTSTART:20261031T120000Z";
    "DTEND:20261031T140000Z";
    "SUMMARY:🇪🇺 FNC vs MAD Lions";
    "DESCRIPTION:Tournament: LEC 2025 Spring\\n\\nMore info: https://liquipedia.net/leagueoflegends/LEC/2025\\n\\n(Completed match)";
    "STATUS:CONFIRMED";
    "URL:https://liquipedia.net/leagueoflegends/LEC/2025";
    "TRANSP:TRANSPARENT";
    "END:VEVENT" ].
Proof. vm_compute. reflexivity. Qed.

Example reminder_zero_has_no_alarm :
  JS.includes
    (body_text (onRequest (mock_context
       "https://example.com/api/calendar?teams=Fnatic&reminder=0"
       [("teams", "Fnatic"); ("reminder", "0")])))
    "BEGIN:VALARM" = false.
Proof. vm_compute. reflexivity. Qed.

Example custom_reminder_in_trigger :
  let text := body_text (onRequest (mock_context
       "https://example.com/api/calendar?teams=Fnatic&reminder=60"
       [("teams", "Fnatic"); ("reminder", "60")])) in
  JS.includes text "TRIGGER:-PT60M" = true /\ JS.includes text "TRIGGER:-PT30M" = false.
Proof. split; vm_compute; reflexivity. Qed.

Example validation_statuses :
  option_map status (onRequest (mock_context
    "https://example.com/api/calendar" [])) = Some 400
  /\ option_map status (onRequest (mock_context
       "https://example.com/api/calendar?teams=../etc/passwd"
       [("teams", "../etc/passwd")])) = Some 400
  /\ option_map status (onRequest (mock_context
       "https://example.com/api/calendar?teams=Fnatic&format=xml"
       [("teams", "Fnatic"); ("format", "xml")])) = Some 400
  /\ option_map status (onRequest (mock_context
       "https://example.com/api/calendar?teams=Unknown"
       [("teams", "Unknown")])) = Some 404.
Proof. repeat split; vm_compute; reflexivity. Qed.

Example json_feed_of_the_suite :
  option_map
    (fun response =>
       match body response with
       | BodyJSON feed => (version feed, map item_id (items feed))
       | _ => ("", [])
       end)
    (onRequest (mock_context
       "https://example.com/api/calendar?teams=Fnatic,G2_Esports&format=json"
       [("teams", "Fnatic,G2_Esports"); ("format", "json")])) =
  Some ("https://jsonfeed.org/version/1.1",
        [ "fnatic-1793620800-g2-esports";
          "g2_esports-1793620800-fnatic";
          "fnatic-1793448000-mad-lions" ]).
Proof. vm_compute. reflexivity. Qed.
